(** * Bulk mail sender: the dispatch engine of [Bulk_Mail_Sender_Gmail.py]
      and [Bulk_Mail_Sender_Gmail_V1.2.py]

    A shallow embedding of the worker thread ([EmailSenderWorker.run]), of the
    checkpoint functions, of [load_html_content], of the progress arithmetic
    and of the control panel ([GmailSenderUI]), followed by the properties of
    the dispatch engine and of the panel.

    Python text is modelled by [string] (code points below 256), Python
    integers by [Z], the outside world (files, the SMTP server, the network
    probe, the flags set by the GUI thread) by oracles indexed by a clock that
    advances at every interaction. *)

From Stdlib Require Import ZArith List String Ascii Bool Lia.
From Stdlib Require Import DecimalString DecimalZ.
From Stdlib Require Import QArith Qround Lqa.
Import ListNotations.

Local Open Scope string_scope.
Local Open Scope Z_scope.

(** ** Python string primitives *)

Module PyStr.

(** [str(n)] for an integer.  Recent interpreters refuse to convert an
    integer of more than 4300 digits; the integers of the engine, row indices
    and counts, are far below, and the limit is not modelled. *)
Definition py_str (n : Z) : string := NilZero.string_of_int (Z.to_int n).

(** [c.isspace()] for a code point below 256. *)
Definition is_space (c : ascii) : bool :=
  let n := nat_of_ascii c in
  (((9 <=? n) && (n <=? 13)) || ((28 <=? n) && (n <=? 32))
   || (n =? 133) || (n =? 160))%nat.

Fixpoint lstrip (s : string) : string :=
  match s with
  | String c s' => if is_space c then lstrip s' else s
  | EmptyString => EmptyString
  end.

Fixpoint rstrip (s : string) : string :=
  match s with
  | String c s' =>
      match rstrip s' with
      | EmptyString => if is_space c then EmptyString else String c EmptyString
      | r => String c r
      end
  | EmptyString => EmptyString
  end.

(** [s.strip()] *)
Definition strip (s : string) : string := rstrip (lstrip s).

Definition is_digit (c : ascii) : bool :=
  let n := nat_of_ascii c in ((48 <=? n) && (n <=? 57))%nat.

(** The digits of an integer literal as [int()] accepts them: single
    underscores are allowed between two digits and are dropped. [prev] tells
    whether the previous character was a digit. *)
Fixpoint drop_underscores (prev : bool) (s : string) : option string :=
  match s with
  | EmptyString => Some EmptyString
  | String c s' =>
      if Ascii.eqb c "_" then
        match s' with
        | String d _ => if prev && is_digit d then drop_underscores false s' else None
        | EmptyString => None
        end
      else
        match drop_underscores (is_digit c) s' with
        | Some r => Some (String c r)
        | None => None
        end
  end.

Definition parse_digits (s : string) : option Z :=
  match drop_underscores false s with
  | Some ds =>
      match NilZero.uint_of_string ds with
      | Some u => Some (Z.of_uint u)
      | None => None
      end
  | None => None
  end.

(** [int(s)], base ten: [None] stands for [ValueError].  The limit on the
    number of digits of recent interpreters is not modelled. *)
Definition py_int (s : string) : option Z :=
  match strip s with
  | String c r =>
      if Ascii.eqb c "+" then parse_digits r
      else if Ascii.eqb c "-" then option_map Z.opp (parse_digits r)
      else parse_digits (String c r)
  | EmptyString => None
  end.

(** [sub in s] *)
Fixpoint py_in (sub s : string) : bool :=
  if prefix sub s then true
  else match s with
       | EmptyString => false
       | String _ s' => py_in sub s'
       end.

(** [s.replace(old, new)] for a non-empty [old]: occurrences are replaced
    from left to right and do not overlap.  [skip] counts the characters of a
    matched occurrence that are still to be dropped. *)
Fixpoint replace_from (skip : nat) (old new s : string) : string :=
  match s with
  | EmptyString => EmptyString
  | String c s' =>
      match skip with
      | S k => replace_from k old new s'
      | O =>
          if prefix old s
          then new ++ replace_from (String.length old - 1) old new s'
          else String c (replace_from O old new s')
      end
  end.

Definition py_replace (old new s : string) : string := replace_from O old new s.

End PyStr.
Import PyStr.

(** ** Data model *)

(** One row of the spreadsheet: the seven required columns.  Each field holds
    the text of its cell: the cell itself when it is text, and what [str]
    gives for it otherwise ([pd.read_excel] reads an empty cell as NaN and a
    numeric one as a number).  The sender header, the log lines and the
    appended signature format the cell, so only its text matters there;
    [str.replace] wants text cells, and the rendering with placeholders is
    modelled for those. *)
Record Row := {
  from_email : string;
  password : string;
  sal : string;
  signature : string;
  to_email : string;
  subject : string;
  html_file : string;
}.

(** What [pd.read_excel] returns: the column names and the rows, in order.
    Row [i] of [rows] has index [i] in [df.iterrows()]. *)
Record DataFrame := {
  columns : list string;
  rows : list Row;
}.

(** The MIME message built for a row. *)
Record Message := {
  msg_subject : string;
  msg_from : string;
  msg_to : string;
  msg_body : string;
}.

(** An element of [self.failed_emails]. *)
Record FailureEntry := {
  fe_from_email : string;
  fe_to_email : string;
  fe_subject : string;
  fe_error_message : string;
}.

(** The checkpoint file [progress_checkpoint.txt] as the checkpoint functions
    see it. *)
Inductive FileState :=
| Absent                        (* os.path.exists is False *)
| Unopenable (err : string)     (* exists, but open(..., "r") raises *)
| Undecodable (err : string)    (* opens, but f.read() raises *)
| Content (text : string).      (* opens, and f.read() gives text *)

(** Signals emitted by the worker and its effects on the outside world, in
    the order in which they happen.  [Render] and [SmtpAttempt] carry the
    index of the row they are made for. *)
Inductive Event :=
| Log (msg : string)                     (* log_signal *)
| TotalContacts (n : Z)                  (* total_contacts_signal *)
| Progress (p : Z)                       (* progress_signal *)
| EmailsSent (n : Z)                     (* emails_sent_signal *)
| Finished                               (* finished_signal *)
| Sleep (secs : Q)                       (* time.sleep *)
| Render (i : Z) (path : string)         (* load_html_content *)
| SmtpAttempt (i : Z) (m : Message)      (* one SMTP session *)
| Probe                                  (* check_network *)
| CheckpointWrite (index : Z)            (* save_checkpoint *)
| ReportWrite (entries : list FailureEntry).  (* df_failed.to_excel *)

(** The outside world.  The oracles that may answer differently from one call
    to the next take the instant of the call. *)
Record Env := {
  read_excel : string -> string + DataFrame;  (* inl: str of the exception *)
  read_text : string -> string + string;      (* open(path).read() *)
  pause_at : nat -> bool;                     (* self._pause *)
  running_at : nat -> bool;                   (* self._running *)
  smtp_at : nat -> string -> string -> string -> Message -> option string;
                                              (* Some e: the session raised e *)
  network_at : nat -> bool;                   (* create_connection succeeds *)
  cp_write_at : nat -> option string;         (* Some e: open(..., "w") raises e;
                                                 None: the write completes *)
  to_excel_at : nat -> option string;         (* Some e: to_excel raises e *)
  long_sleep_at : nat -> Q -> option string;  (* Some e: a sleep longer than
                                                 MAX_DELAY raises e *)
}.

(** The arguments of [EmailSenderWorker.__init__].  [delay] is the float the
    panel parsed, a finite one: the infinities and NaN, which [float] accepts
    too and for which [time.sleep] raises, are not values of this type.
    [delay_str] is [str(self.delay)]. *)
Record Worker := {
  excel_file : string;
  delay : Q;
  delay_str : string;
}.

(** The mutable state of a run: the clock of the oracles, the events so far
    (oldest first), the checkpoint file, the local [sent_count] and
    [self.failed_emails]. *)
Record Store := {
  clock : nat;
  trace : list Event;
  cp_file : FileState;
  sent_count : Z;
  failed_emails : list FailureEntry;
}.

(** The store [__init__] leaves, given the checkpoint file on disk. *)
Definition init_store (fs : FileState) : Store :=
  {| clock := O; trace := []; cp_file := fs; sent_count := 0; failed_emails := [] |}.

(** ** A state monad with exceptions and fuel *)

Inductive Res (A : Type) :=
| Val (a : A)          (* normal completion *)
| Raise (e : string)   (* an exception escapes *)
| OutOfFuel.           (* a while loop is still running *)
Arguments Val {A} a.
Arguments Raise {A} e.
Arguments OutOfFuel {A}.

Definition M (A : Type) := Store -> Res A * Store.

Definition ret {A} (a : A) : M A := fun s => (Val a, s).

Definition bind {A B} (m : M A) (k : A -> M B) : M B :=
  fun s => match m s with
           | (Val a, s') => k a s'
           | (Raise e, s') => (Raise e, s')
           | (OutOfFuel, s') => (OutOfFuel, s')
           end.

Declare Scope engine_scope.
Delimit Scope engine_scope with engine.
Notation "x <- m ;; k" := (bind m (fun x => k))
  (at level 61, m at next level, right associativity) : engine_scope.
Notation "m ;; k" := (bind m (fun _ => k))
  (at level 61, right associativity) : engine_scope.
Local Open Scope engine_scope.

Definition raise {A} (e : string) : M A := fun s => (Raise e, s).
Definition out_of_fuel {A} : M A := fun s => (OutOfFuel, s).

Definition emit (e : Event) : M unit :=
  fun s => (Val tt, {| clock := clock s; trace := trace s ++ [e]; cp_file := cp_file s;
                       sent_count := sent_count s; failed_emails := failed_emails s |}).

(** The instant of an interaction with the outside world; the clock advances. *)
Definition tick : M nat :=
  fun s => (Val (clock s), {| clock := S (clock s); trace := trace s; cp_file := cp_file s;
                              sent_count := sent_count s; failed_emails := failed_emails s |}).

Definition set_cp_file (fs : FileState) : M unit :=
  fun s => (Val tt, {| clock := clock s; trace := trace s; cp_file := fs;
                       sent_count := sent_count s; failed_emails := failed_emails s |}).

Definition set_sent_count (n : Z) : M unit :=
  fun s => (Val tt, {| clock := clock s; trace := trace s; cp_file := cp_file s;
                       sent_count := n; failed_emails := failed_emails s |}).

Definition get_sent_count : M Z := fun s => (Val (sent_count s), s).

Definition append_failure (fe : FailureEntry) : M unit :=
  fun s => (Val tt, {| clock := clock s; trace := trace s; cp_file := cp_file s;
                       sent_count := sent_count s; failed_emails := failed_emails s ++ [fe] |}).

Definition get_failed_emails : M (list FailureEntry) := fun s => (Val (failed_emails s), s).

Definition nl : string := String (ascii_of_nat 10) EmptyString.

(** ** Double-precision arithmetic of the progress computation

    [int(((i + 1) / total) * 100)] divides two integers into a float,
    multiplies by 100 and truncates.  A float is modelled by the rational it
    denotes; each operation returns the exact result rounded to the nearest
    number with a 53-bit significand, ties to even (the values that arise are
    far from the overflow and underflow thresholds). *)

Module Float64.

Definition pow2 (e : Z) : Q :=
  if 0 <=? e then inject_Z (2 ^ e) else 1 # Z.to_pos (2 ^ (- e)).

(** The integer nearest to [n / d], ties to even, for [d > 0]. *)
Definition round_half_even (n d : Z) : Z :=
  let m0 := n / d in
  let r := n mod d in
  if 2 * r <? d then m0
  else if d <? 2 * r then m0 + 1
  else if Z.even m0 then m0 else m0 + 1.

(** [p / q / 2^e] as a fraction of integers. *)
Definition scaled (p q e : Z) : Z * Z :=
  (p * 2 ^ Z.max 0 (- e), q * 2 ^ Z.max 0 e).

(** The exponent of [p / q] for [p, q > 0]: the [e] such that
    [2^52 <= p / q / 2^e < 2^53]. *)
Definition fl_exp (p q : Z) : Z :=
  let e0 := Z.log2 p - Z.log2 q - 52 in
  if fst (scaled p q e0) / snd (scaled p q e0) <? 2 ^ 52 then e0 - 1 else e0.

(** The significand: [p / q / 2^e] rounded to an integer. *)
Definition fl_sig (p q : Z) : Z :=
  round_half_even (fst (scaled p q (fl_exp p q))) (snd (scaled p q (fl_exp p q))).

(** Rounding of [p / q] for [p, q > 0]. *)
Definition fl_pos (p q : Z) : Q := (inject_Z (fl_sig p q) * pow2 (fl_exp p q))%Q.

Definition fl_round (x : Q) : Q :=
  match Qnum x with
  | Z0 => 0%Q
  | Zpos p => fl_pos (Zpos p) (Zpos (Qden x))
  | Zneg p => Qopp (fl_pos (Zpos p) (Zpos (Qden x)))
  end.

(** [a / b] on integers (true division, correctly rounded), [b > 0]. *)
Definition fl_div (a b : Z) : Q := fl_round (a # Z.to_pos b).

(** [x * y] on floats. *)
Definition fl_mul (x y : Q) : Q := fl_round (x * y).

(** [int(x)]: truncation toward zero. *)
Definition py_int_of_float (x : Q) : Z := Z.quot (Qnum x) (Zpos (Qden x)).

End Float64.
Import Float64.

(** [int(((i + 1) / total) * 100)] *)
Definition progress_percent (i total : Z) : Z :=
  py_int_of_float (fl_mul (fl_div (i + 1) total) (inject_Z 100)).

(** ** The engine *)

Inductive Variant :=
| V1      (* Bulk_Mail_Sender_Gmail.py: no checkpoint *)
| V1_2.   (* Bulk_Mail_Sender_Gmail_V1.2.py *)

(** How an iteration of the [for] loop ends. *)
Inductive Flow := Continue | Break.

Definition required_columns : list string :=
  ["from_email"; "password"; "sal"; "signature"; "to_email"; "subject"; "html_file"].

Definition REPORT_FILENAME : string := "failed_emails_report.xlsx".

(** A duration, in seconds, that [time.sleep] accepts on every platform:
    between eleven and twelve days. *)
Definition MAX_DELAY : Q := inject_Z 1000000.

Section Engine.

Variable env : Env.

(** [time.sleep(secs)].  A negative argument raises [ValueError].  A sleep
    of at most [MAX_DELAY] seconds returns.  A longer one can raise
    [OverflowError] or [OSError]: the duration, or the deadline computed from
    it, can leave the range of the clock of the interpreter, which depends
    on the platform and on the time since boot; [long_sleep_at] tells. *)
Definition time_sleep (secs : Q) : M unit :=
  if Qle_bool 0 secs then
    if Qle_bool secs MAX_DELAY then emit (Sleep secs) ;; _ <- tick ;; ret tt
    else
      t <- tick ;;
      match long_sleep_at env t secs with
      | Some e => raise e
      | None => emit (Sleep secs)
      end
  else raise "sleep length must be non-negative".

Definition poll_pause : M bool := t <- tick ;; ret (pause_at env t).
Definition poll_running : M bool := t <- tick ;; ret (running_at env t).

(** [save_checkpoint(index)]: nothing catches the error of [open]. *)
Definition save_checkpoint (index : Z) : M unit :=
  t <- tick ;;
  emit (CheckpointWrite index) ;;
  match cp_write_at env t with
  | Some e => raise e
  | None => set_cp_file (Content (py_str index))
  end.

(** [load_checkpoint()]: [open] is outside the [try], [f.read()] and [int]
    are inside. *)
Definition load_checkpoint : M Z :=
  fun s =>
    match cp_file s with
    | Absent => (Val 0, s)
    | Unopenable e => (Raise e, s)
    | Undecodable _ => (Val 0, s)
    | Content text =>
        match py_int (strip text) with
        | Some n => (Val n, s)
        | None => (Val 0, s)
        end
    end.

(** [check_network()] *)
Definition check_network : M bool :=
  t <- tick ;; emit Probe ;; ret (network_at env t).

(** [load_html_content(file_path, salutation, signature)], called for row [i] *)
Definition load_html_content (i : Z) (file_path salutation signature : string) : M string :=
  emit (Render i file_path) ;;
  match read_text env file_path with
  | inr content =>
      if py_in "{sal}" content || py_in "{signature}" content
      then ret (py_replace "{signature}" signature (py_replace "{sal}" salutation content))
      else ret (content ++ "<br><br>Thanks & Regards,<br>" ++ signature)
  | inl e => ret ("Error loading HTML file: " ++ e)
  end.

(** [while self._pause: time.sleep(0.1)] *)
Fixpoint wait_while_paused (fuel : nat) : M unit :=
  match fuel with
  | O => out_of_fuel
  | S f =>
      p <- poll_pause ;;
      if p then time_sleep (1 # 10) ;; wait_while_paused f else ret tt
  end.

(** [while not check_network(): time.sleep(5)] *)
Fixpoint wait_for_network (fuel : nat) : M unit :=
  match fuel with
  | O => out_of_fuel
  | S f =>
      up <- check_network ;;
      if up then ret tt else time_sleep 5 ;; wait_for_network f
  end.

(** One SMTP session: [starttls], [login], [sendmail]. *)
Definition smtp_send (i : Z) (sender pass recipient : string) (message : Message)
  : M (option string) :=
  t <- tick ;;
  emit (SmtpAttempt i message) ;;
  ret (smtp_at env t sender pass recipient message).

(** The retry loop [while not email_sent: ...] for row [i]. *)
Fixpoint send_loop (fuel : nat) (i : Z) (sender pass recipient subj : string)
    (message : Message) : M unit :=
  match fuel with
  | O => out_of_fuel
  | S f =>
      wait_while_paused (S f) ;;
      r <- smtp_send i sender pass recipient message ;;
      match r with
      | None =>
          emit (Log "Email sent successfully!") ;;
          n <- get_sent_count ;;
          set_sent_count (n + 1) ;;
          emit (EmailsSent (n + 1))
      | Some error_message =>
          up <- check_network ;;
          if negb up then
            emit (Log "Network disconnected. Pausing email sending process. Waiting for network to be restored...") ;;
            wait_for_network (S f) ;;
            emit (Log "Network restored. Resuming email sending process.") ;;
            send_loop f i sender pass recipient subj message
          else
            emit (Log ("Failed to send email to " ++ recipient ++ ": " ++ error_message)) ;;
            append_failure {| fe_from_email := sender; fe_to_email := recipient;
                              fe_subject := subj; fe_error_message := error_message |}
      end
  end.

Variable v : Variant.
Variable self : Worker.

(** The body of [for i, row in df.iterrows()]. *)
Definition loop_body (fuel : nat) (total start_index i : Z) (row : Row) : M Flow :=
  if match v with V1_2 => i <? start_index | V1 => false end then ret Continue
  else
    wait_while_paused fuel ;;
    running <- poll_running ;;
    if negb running then ret Break
    else
      let sender := from_email row in
      let pass := password row in
      let recipient := to_email row in
      let subj := subject row in
      let salutation := sal row in
      let sender_name := signature row in
      let html_file_path := html_file row in
      email_body <- load_html_content i html_file_path salutation sender_name ;;
      let message := {| msg_subject := subj;
                        msg_from := sender_name ++ " <" ++ sender ++ ">";
                        msg_to := recipient;
                        msg_body := email_body |} in
      emit (Log ("Sending email to " ++ recipient ++ " from " ++ sender_name
                 ++ match v with V1_2 => " (row " ++ py_str i ++ ")" | V1 => "" end
                 ++ "...")) ;;
      send_loop fuel i sender pass recipient subj message ;;
      match v with V1_2 => save_checkpoint (i + 1) | V1 => ret tt end ;;
      emit (Progress (progress_percent i total)) ;;
      emit (Log ("Waiting for " ++ delay_str self ++ " seconds before next email..." ++ nl)) ;;
      time_sleep (delay self) ;;
      ret Continue.

Fixpoint for_rows (fuel : nat) (total start_index i : Z) (rs : list Row) : M unit :=
  match rs with
  | [] => ret tt
  | row :: rest =>
      fl <- loop_body fuel total start_index i row ;;
      match fl with
      | Break => ret tt
      | Continue => for_rows fuel total start_index (i + 1) rest
      end
  end.

(** The first required column that [df.columns] lacks. *)
Definition missing_column (cols : list string) : option string :=
  find (fun col => negb (existsb (String.eqb col) cols)) required_columns.

(** [if self.failed_emails: ...] *)
Definition export_report : M unit :=
  failed <- get_failed_emails ;;
  match failed with
  | [] => ret tt
  | _ :: _ =>
      t <- tick ;;
      emit (ReportWrite failed) ;;
      match to_excel_at env t with
      | None => emit (Log ("Failure report saved to " ++ REPORT_FILENAME))
      | Some report_err => emit (Log ("Error saving failure report: " ++ report_err))
      end
  end.

(** [EmailSenderWorker.run] *)
Definition run (fuel : nat) : M unit :=
  match read_excel env (excel_file self) with
  | inl e =>
      emit (Log ("Error reading Excel file: " ++ e)) ;;
      emit Finished
  | inr df =>
      match missing_column (columns df) with
      | Some col =>
          emit (Log ("Missing required column: " ++ col)) ;;
          emit Finished
      | None =>
          let total := Z.of_nat (List.length (rows df)) in
          emit (TotalContacts total) ;;
          start_index <- match v with
                         | V1_2 =>
                             start_index <- load_checkpoint ;;
                             emit (Log ("Resuming from row " ++ py_str start_index)) ;;
                             ret start_index
                         | V1 => ret 0
                         end ;;
          set_sent_count 0 ;;
          for_rows fuel total start_index 0 (rows df) ;;
          export_report ;;
          emit (Log ("Finished sending emails." ++ nl)) ;;
          emit Finished
      end
  end.

End Engine.

(** * Vocabulary of the properties *)

Local Open Scope list_scope.

(** Strings of decimal digits. *)
Fixpoint all_digits (s : string) : bool :=
  match s with
  | EmptyString => true
  | String c s' => is_digit c && all_digits s'
  end.

(** [s'] continues [s]: its trace is the trace of [s] followed by events that
    all satisfy [P]. *)
Definition extends (P : Event -> Prop) (s s' : Store) : Prop :=
  exists rest, trace s' = trace s ++ rest /\ Forall P rest.

(** The counters of a run. *)
Definition same_counts (s s' : Store) : Prop :=
  sent_count s' = sent_count s /\ failed_emails s' = failed_emails s.

(** The durations that [time.sleep] accepts whatever the platform. *)
Definition sleepable (secs : Q) : bool := Qle_bool 0 secs && Qle_bool secs MAX_DELAY.

(** The store a sleep that returns leaves. *)
Definition slept (secs : Q) (s : Store) : Store :=
  {| clock := S (clock s); trace := trace s ++ [Sleep secs]; cp_file := cp_file s;
     sent_count := sent_count s; failed_emails := failed_emails s |}.

(** Events of the waiting loops. *)
Definition is_sleep (secs : Q) (e : Event) : Prop := e = Sleep secs.
Definition is_probe_or_sleep (secs : Q) (e : Event) : Prop := e = Probe \/ e = Sleep secs.

(** Events the retry loop of row [i] may produce, [m] being its message. *)
Definition attempt_event (i : Z) (m : Message) (e : Event) : Prop :=
  match e with
  | SmtpAttempt j m' => j = i /\ m' = m
  | EmailsSent _ | Sleep _ | Probe | Log _ => True
  | _ => False
  end.

(** Events an iteration for row [i] may produce. *)
Definition row_event (i : Z) (e : Event) : Prop :=
  match e with
  | Render j _ | SmtpAttempt j _ => j = i
  | CheckpointWrite k => k = i + 1
  | Progress _ | EmailsSent _ | Sleep _ | Probe | Log _ => True
  | TotalContacts _ | Finished | ReportWrite _ => False
  end.

(** Events of iterations for rows [lo] and later. *)
Definition rows_from (lo : Z) (e : Event) : Prop :=
  match e with
  | Render j _ | SmtpAttempt j _ => lo <= j
  | CheckpointWrite k => lo + 1 <= k
  | Progress _ | EmailsSent _ | Sleep _ | Probe | Log _ => True
  | TotalContacts _ | Finished | ReportWrite _ => False
  end.

(** The rows whose body was rendered, in order: the rows that were
    processed. *)
Fixpoint rendered_rows (tr : list Event) : list Z :=
  match tr with
  | [] => []
  | Render i _ :: tr' => i :: rendered_rows tr'
  | _ :: tr' => rendered_rows tr'
  end.

Section RetryVocabulary.

Variable env : Env.

(** The entry appended to [self.failed_emails]. *)
Definition failure_entry (sender recipient subj err : string) : FailureEntry :=
  {| fe_from_email := sender; fe_to_email := recipient;
     fe_subject := subj; fe_error_message := err |}.

(** How the retry loop of a row can end: delivered, or a failure recorded
    because an attempt failed while the probe right after it reported the
    network reachable. *)
Definition delivered (sender pass recipient : string) (message : Message) (s s' : Store) : Prop :=
  sent_count s' = sent_count s + 1 /\ failed_emails s' = failed_emails s
  /\ exists t, smtp_at env t sender pass recipient message = None.

Definition recorded_failure (sender pass recipient subj : string) (message : Message)
    (s s' : Store) : Prop :=
  sent_count s' = sent_count s
  /\ exists t err,
       smtp_at env t sender pass recipient message = Some err
       /\ network_at env (S t) = true
       /\ failed_emails s' = failed_emails s ++ [failure_entry sender recipient subj err].

End RetryVocabulary.

Section BodyVocabulary.

Variable env : Env.

(** The body of an email as [load_html_content] computes it. *)
Definition rendered_body (file_path salutation sig : string) : string :=
  match read_text env file_path with
  | inr content =>
      if py_in "{sal}" content || py_in "{signature}" content
      then py_replace "{signature}" sig (py_replace "{sal}" salutation content)
      else (content ++ "<br><br>Thanks & Regards,<br>" ++ sig)%string
  | inl e => ("Error loading HTML file: " ++ e)%string
  end.

Variable v : Variant.
Variable self : Worker.

(** The message built for a row. *)
Definition message_of (row : Row) : Message :=
  {| msg_subject := subject row;
     msg_from := (signature row ++ " <" ++ from_email row ++ ">")%string;
     msg_to := to_email row;
     msg_body := rendered_body (html_file row) (sal row) (signature row) |}.

(** The log line that opens the processing of a row. *)
Definition sending_log (i : Z) (row : Row) : Event :=
  Log ("Sending email to " ++ to_email row ++ " from " ++ signature row
       ++ match v with V1_2 => " (row " ++ py_str i ++ ")" | V1 => "" end
       ++ "...")%string.

(** The events that close an iteration. *)
Definition closing_events (total i : Z) : list Event :=
  match v with V1_2 => [CheckpointWrite (i + 1)] | V1 => [] end
  ++ [Progress (progress_percent i total);
      Log ("Waiting for " ++ delay_str self ++ " seconds before next email..." ++ nl)%string;
      Sleep (delay self)].

(** The test [i < start_index] of the second variant. *)
Definition skipped (start_index i : Z) : bool :=
  match v with V1_2 => i <? start_index | V1 => false end.

(** The record was counted once: as sent, or as failed. *)
Definition finalized (s s' : Store) : Prop :=
  (sent_count s' = sent_count s + 1 /\ failed_emails s' = failed_emails s)
  \/ (sent_count s' = sent_count s
      /\ exists fe, failed_emails s' = failed_emails s ++ [fe]).

(** The checkpoint file after an iteration that finalized row [i]. *)
Definition cp_after (i : Z) (s : Store) : FileState :=
  match v with V1_2 => Content (py_str (i + 1)) | V1 => cp_file s end.

(** What an iteration for row [i] started in [s] guarantees about its
    result [r] and final store [s']. *)
Definition body_post (total start_index i : Z) (row : Row) (s : Store)
    (r : Res Flow) (s' : Store) : Prop :=
  if skipped start_index i then r = Val Continue /\ s' = s
  else
    exists rest, trace s' = trace s ++ rest /\ Forall (row_event i) rest /\
      ((rendered_rows rest = [] /\ same_counts s s' /\ cp_file s' = cp_file s
        /\ (r = OutOfFuel \/ (r = Val Break /\ exists t, running_at env t = false)))
       \/
       (rendered_rows rest = [i] /\
        match r with
        | Val fl =>
            fl = Continue /\ finalized s s' /\ cp_file s' = cp_after i s
            /\ exists pre mid,
                rest = pre ++ Render i (html_file row) :: sending_log i row
                           :: mid ++ closing_events total i
                /\ Forall (is_sleep (1 # 10)) pre
                /\ Forall (attempt_event i (message_of row)) mid
                /\ In (SmtpAttempt i (message_of row)) mid
        | OutOfFuel => same_counts s s' /\ cp_file s' = cp_file s
        | Raise _ =>
            finalized s s'
            /\ (cp_file s' = cp_file s \/ cp_file s' = Content (py_str (i + 1)))
            /\ (v = V1_2 \/ sleepable (delay self) = false)
        end)).

End BodyVocabulary.

(** [L] is strictly increasing and within [lo, hi). *)
Fixpoint inc_in (lo hi : Z) (L : list Z) : Prop :=
  match L with
  | [] => True
  | x :: L' => lo <= x < hi /\ inc_in (x + 1) hi L'
  end.

(** The checkpoint file after the rows [L] were finalized in order. *)
Definition cp_of_rows (L : list Z) (fs : FileState) : FileState :=
  match L with
  | [] => fs
  | _ :: _ => Content (py_str (last L 0 + 1))
  end.

(** The first row an iteration from [i] on can touch. *)
Definition first_row (v : Variant) (start_index i : Z) : Z :=
  match v with V1_2 => Z.max i start_index | V1 => i end.

(** Records counted so far: sent plus failed. *)
Definition count_done (s : Store) : Z :=
  sent_count s + Z.of_nat (List.length (failed_emails s)).

(** What the loop over the rows [rs], of indices [i] and up, guarantees. *)
Definition rows_post (env : Env) (v : Variant) (self : Worker) (start_index i : Z)
    (rs : list Row) (s : Store) (r : Res unit) (s' : Store) : Prop :=
  exists rest,
    let L := rendered_rows rest in
    let hi := i + Z.of_nat (List.length rs) in
    trace s' = trace s ++ rest
    /\ Forall (rows_from (first_row v start_index i)) rest
    /\ inc_in (first_row v start_index i) hi L
    /\ count_done s' <= count_done s + Z.of_nat (List.length L)
    /\ (r = Val tt -> count_done s' = count_done s + Z.of_nat (List.length L))
    /\ (forall e, r = Raise e -> v = V1_2 \/ sleepable (delay self) = false)
    /\ (r = Val tt ->
        cp_file s' = match v with V1_2 => cp_of_rows L (cp_file s) | V1 => cp_file s end)
    /\ (r = Val tt -> (forall t, running_at env t = true) ->
        match L with
        | [] => rs = [] \/ (v = V1_2 /\ hi <= start_index)
        | _ :: _ => last L 0 = hi - 1
        end).

(** What [load_checkpoint] returns when it returns. *)
Definition checkpoint_value (fs : FileState) : Z :=
  match fs with
  | Content text =>
      match py_int (strip text) with
      | Some n => n
      | None => 0
      end
  | _ => 0
  end.

(** The end of [run]: the failure report, the last log line and the
    completion signal. *)
Definition report_events (env : Env) (s : Store) : list Event :=
  match failed_emails s with
  | [] => []
  | _ :: _ =>
      [ReportWrite (failed_emails s);
       match to_excel_at env (clock s) with
       | None => Log ("Failure report saved to " ++ REPORT_FILENAME)%string
       | Some report_err => Log ("Error saving failure report: " ++ report_err)%string
       end]
  end.

(** The store when [run] returns, [s] being the store after the loop. *)
Definition finish (env : Env) (s : Store) : Store :=
  {| clock := match failed_emails s with [] => clock s | _ :: _ => S (clock s) end;
     trace := trace s ++ report_events env s
              ++ [Log ("Finished sending emails." ++ nl)%string; Finished];
     cp_file := cp_file s;
     sent_count := sent_count s;
     failed_emails := failed_emails s |}.

(** The store when the loop over the rows starts. *)
Definition loop_start (v : Variant) (n : Z) (fs : FileState) : Store :=
  {| clock := O;
     trace := TotalContacts n
              :: match v with
                 | V1_2 => [Log ("Resuming from row " ++ py_str (checkpoint_value fs))%string]
                 | V1 => []
                 end;
     cp_file := fs; sent_count := 0; failed_emails := [] |}.

(** The index the loop over the rows starts from. *)
Definition start_of (v : Variant) (fs : FileState) : Z :=
  match v with V1_2 => checkpoint_value fs | V1 => 0 end.

(** No event of a row before [c]. *)
Definition not_before (c : Z) (e : Event) : Prop :=
  match e with
  | Render j _ | SmtpAttempt j _ => c <= j
  | CheckpointWrite k => c + 1 <= k
  | _ => True
  end.


(** The two log lines of an outage. *)
Definition DISCONNECTED : string :=
  "Network disconnected. Pausing email sending process. Waiting for network to be restored...".
Definition RESTORED : string := "Network restored. Resuming email sending process.".


(** The suffix as the specification words it. *)
Definition spec_suffix (sig : string) : string :=
  (nl ++ nl ++ "Thanks & Regards," ++ nl ++ sig)%string.

(** The progress value as the specification words it:
    [round(100 * (i + 1) / total)], the nearest integer. *)
Definition spec_progress (i total : Z) : Z := round_half_even (100 * (i + 1)) total.

(** [2^53]: the inverse of the relative error of one rounding. *)
Definition c53 : Q := inject_Z (2 ^ 53).

(** ** Test data *)

Module Fixtures.

Definition contact (recipient : string) : Row :=
  {| from_email := "me@example.org"; password := "secret"; sal := "Jane";
     signature := "Bob"; to_email := recipient; subject := "Hello";
     html_file := "body.html" |}.

Definition contacts : DataFrame :=
  {| columns := required_columns;
     rows := [contact "a@example.org"; contact "b@example.org"; contact "c@example.org"] |}.

(** Everything works, except that the server rejects [b@example.org]. *)
Definition bad_address : Env :=
  {| read_excel := fun _ => inr contacts;
     read_text := fun _ => inr "Hello";
     pause_at := fun _ => false;
     running_at := fun _ => true;
     smtp_at := fun _ _ _ recipient _ =>
                  if String.eqb recipient "b@example.org" then Some "bad address" else None;
     network_at := fun _ => true;
     cp_write_at := fun _ => None;
     to_excel_at := fun _ => None;
     long_sleep_at := fun _ _ => None |}.


(** The checkpoint file cannot be written. *)
Definition read_only_dir : Env :=
  {| read_excel := fun _ => inr contacts;
     read_text := fun _ => inr "Hello";
     pause_at := fun _ => false;
     running_at := fun _ => true;
     smtp_at := fun _ _ _ _ _ => None;
     network_at := fun _ => true;
     cp_write_at := fun _ => Some "[Errno 13] Permission denied: 'progress_checkpoint.txt'";
     to_excel_at := fun _ => None;
     long_sleep_at := fun _ _ => None |}.

(** A network that is reachable one instant out of four. *)
Definition flaky (t : nat) : bool := Nat.eqb (Nat.modulo t 4) 3.

(** An outage: a session fails whenever the network is unreachable at the
    next instant.  From instant 0 on, every attempt of the retry loop fails,
    the probe of the handler reports the network unreachable and the next
    probe reports it back. *)
Definition outage : Env :=
  {| read_excel := fun _ => inr contacts;
     read_text := fun _ => inr "Hello";
     pause_at := fun _ => false;
     running_at := fun _ => true;
     smtp_at := fun t _ _ _ _ =>
                  if flaky (S t) then None else Some "[Errno 101] Network is unreachable";
     network_at := flaky;
     cp_write_at := fun _ => None;
     to_excel_at := fun _ => None;
     long_sleep_at := fun _ _ => None |}.



Definition worker : Worker :=
  {| excel_file := "contacts.xlsx"; delay := 1; delay_str := "1.0" |}.

End Fixtures.

(** * The control panel

    [GmailSenderUI]: the state its handlers read and write, and one step per
    user action or delivered signal.  A disabled button emits no click, and
    the signals of the worker are delivered to their slots in the order of
    emission.  [float] of Python is a parameter: [is_float text] tells
    whether [float(text)] returns. *)

Module Panel.

(** The [EmailSenderWorker] the panel holds: the arguments of [__init__]
    and the two control flags.  [h_delay_text] is the text whose [float] is
    [self.delay]. *)
Record Handle := {
  h_excel_file : string;
  h_delay_text : string;
  h_pause : bool;       (* self._pause *)
  h_running : bool;     (* self._running *)
}.

Record State := {
  ui_excel_file : string;          (* self.excel_file *)
  ui_worker : option Handle;       (* self.worker *)
  ui_delay_input : string;         (* the text of self.delay_input *)
  ui_file_label : string;
  ui_send_enabled : bool;
  ui_pause_enabled : bool;
  ui_resume_enabled : bool;
  ui_total_label : string;
  ui_sent_label : string;
  ui_progress : Z;                 (* the value the progress bar is set or animated to *)
  ui_log_area : list string;
  ui_dialogs : list string;        (* the message boxes shown *)
}.

Inductive Action :=
| ChooseFile (file_path : string)  (* the load button; what the dialog returns *)
| EditDelay (text : string)
| ClickSend
| ClickPause
| ClickResume
| Deliver (e : Event).             (* a signal of the worker reaches its slot *)

(** [__init__] and [setup_ui] *)
Definition initial : State :=
  {| ui_excel_file := ""; ui_worker := None; ui_delay_input := "1";
     ui_file_label := "No file loaded";
     ui_send_enabled := true; ui_pause_enabled := false; ui_resume_enabled := false;
     ui_total_label := "Total Contacts: 0"; ui_sent_label := "Emails Sent: 0";
     ui_progress := 0; ui_log_area := []; ui_dialogs := [] |}.

Definition append_log (message : string) (p : State) : State :=
  {| ui_excel_file := ui_excel_file p; ui_worker := ui_worker p;
     ui_delay_input := ui_delay_input p; ui_file_label := ui_file_label p;
     ui_send_enabled := ui_send_enabled p; ui_pause_enabled := ui_pause_enabled p;
     ui_resume_enabled := ui_resume_enabled p;
     ui_total_label := ui_total_label p; ui_sent_label := ui_sent_label p;
     ui_progress := ui_progress p; ui_log_area := ui_log_area p ++ [message];
     ui_dialogs := ui_dialogs p |}.

Definition show_dialog (text : string) (p : State) : State :=
  {| ui_excel_file := ui_excel_file p; ui_worker := ui_worker p;
     ui_delay_input := ui_delay_input p; ui_file_label := ui_file_label p;
     ui_send_enabled := ui_send_enabled p; ui_pause_enabled := ui_pause_enabled p;
     ui_resume_enabled := ui_resume_enabled p;
     ui_total_label := ui_total_label p; ui_sent_label := ui_sent_label p;
     ui_progress := ui_progress p; ui_log_area := ui_log_area p;
     ui_dialogs := ui_dialogs p ++ [text] |}.

(** The three buttons and [self.worker], which the handlers set together. *)
Definition set_controls (worker : option Handle) (send pause resume : bool) (p : State)
  : State :=
  {| ui_excel_file := ui_excel_file p; ui_worker := worker;
     ui_delay_input := ui_delay_input p; ui_file_label := ui_file_label p;
     ui_send_enabled := send; ui_pause_enabled := pause; ui_resume_enabled := resume;
     ui_total_label := ui_total_label p; ui_sent_label := ui_sent_label p;
     ui_progress := ui_progress p; ui_log_area := ui_log_area p;
     ui_dialogs := ui_dialogs p |}.

Definition edit_delay (text : string) (p : State) : State :=
  {| ui_excel_file := ui_excel_file p; ui_worker := ui_worker p;
     ui_delay_input := text; ui_file_label := ui_file_label p;
     ui_send_enabled := ui_send_enabled p; ui_pause_enabled := ui_pause_enabled p;
     ui_resume_enabled := ui_resume_enabled p;
     ui_total_label := ui_total_label p; ui_sent_label := ui_sent_label p;
     ui_progress := ui_progress p; ui_log_area := ui_log_area p;
     ui_dialogs := ui_dialogs p |}.

(** [load_excel]: an empty path (the dialog was cancelled) changes nothing. *)
Definition load_excel (file_path : string) (p : State) : State :=
  match file_path with
  | EmptyString => p
  | _ =>
      append_log ("Loaded file: " ++ file_path)
        {| ui_excel_file := file_path; ui_worker := ui_worker p;
           ui_delay_input := ui_delay_input p; ui_file_label := file_path;
           ui_send_enabled := ui_send_enabled p; ui_pause_enabled := ui_pause_enabled p;
           ui_resume_enabled := ui_resume_enabled p;
           ui_total_label := ui_total_label p; ui_sent_label := ui_sent_label p;
           ui_progress := ui_progress p; ui_log_area := ui_log_area p;
           ui_dialogs := ui_dialogs p |}
  end.

(** [update_log], [update_progress], [update_total], [update_sent] *)
Definition update_log (message : string) (p : State) : State := append_log message p.

Definition update_progress (value : Z) (p : State) : State :=
  {| ui_excel_file := ui_excel_file p; ui_worker := ui_worker p;
     ui_delay_input := ui_delay_input p; ui_file_label := ui_file_label p;
     ui_send_enabled := ui_send_enabled p; ui_pause_enabled := ui_pause_enabled p;
     ui_resume_enabled := ui_resume_enabled p;
     ui_total_label := ui_total_label p; ui_sent_label := ui_sent_label p;
     ui_progress := value; ui_log_area := ui_log_area p;
     ui_dialogs := ui_dialogs p |}.

Definition update_total (total : Z) (p : State) : State :=
  {| ui_excel_file := ui_excel_file p; ui_worker := ui_worker p;
     ui_delay_input := ui_delay_input p; ui_file_label := ui_file_label p;
     ui_send_enabled := ui_send_enabled p; ui_pause_enabled := ui_pause_enabled p;
     ui_resume_enabled := ui_resume_enabled p;
     ui_total_label := "Total Contacts: " ++ py_str total;
     ui_sent_label := ui_sent_label p;
     ui_progress := ui_progress p; ui_log_area := ui_log_area p;
     ui_dialogs := ui_dialogs p |}.

Definition update_sent (sent : Z) (p : State) : State :=
  {| ui_excel_file := ui_excel_file p; ui_worker := ui_worker p;
     ui_delay_input := ui_delay_input p; ui_file_label := ui_file_label p;
     ui_send_enabled := ui_send_enabled p; ui_pause_enabled := ui_pause_enabled p;
     ui_resume_enabled := ui_resume_enabled p;
     ui_total_label := ui_total_label p;
     ui_sent_label := "Emails Sent: " ++ py_str sent;
     ui_progress := ui_progress p; ui_log_area := ui_log_area p;
     ui_dialogs := ui_dialogs p |}.

(** [on_finished] *)
Definition on_finished (p : State) : State :=
  show_dialog "Finished sending emails." (set_controls None true false false p).

(** [EmailSenderWorker.pause] and [resume] on the handle: the flag, and the
    log line, which reaches [update_log] at once. *)
Definition set_pause (b : bool) (h : Handle) : Handle :=
  {| h_excel_file := h_excel_file h; h_delay_text := h_delay_text h;
     h_pause := b; h_running := h_running h |}.

Section Handlers.

Variable is_float : string -> bool.

(** [start_sending] *)
Definition start_sending (p : State) : State :=
  match ui_excel_file p with
  | EmptyString => show_dialog "Please load an Excel file first!" p
  | _ =>
      if is_float (ui_delay_input p) then
        set_controls
          (Some {| h_excel_file := ui_excel_file p; h_delay_text := ui_delay_input p;
                   h_pause := false; h_running := true |})
          false true false p
      else show_dialog "Please enter a valid number for delay!" p
  end.

(** [pause_sending] *)
Definition pause_sending (p : State) : State :=
  match ui_worker p with
  | Some h =>
      set_controls (Some (set_pause true h)) (ui_send_enabled p) false true
        (append_log "Process paused by user." p)
  | None => p
  end.

(** [resume_sending] *)
Definition resume_sending (p : State) : State :=
  match ui_worker p with
  | Some h =>
      set_controls (Some (set_pause false h)) (ui_send_enabled p) true false
        (append_log "Process resumed by user." p)
  | None => p
  end.

(** One action.  A click on a disabled button does nothing; events that
    are not signals have no slot. *)
Definition step (p : State) (a : Action) : State :=
  match a with
  | ChooseFile file_path => load_excel file_path p
  | EditDelay text => edit_delay text p
  | ClickSend => if ui_send_enabled p then start_sending p else p
  | ClickPause => if ui_pause_enabled p then pause_sending p else p
  | ClickResume => if ui_resume_enabled p then resume_sending p else p
  | Deliver (Log message) => update_log message p
  | Deliver (TotalContacts total) => update_total total p
  | Deliver (Progress value) => update_progress value p
  | Deliver (EmailsSent sent) => update_sent sent p
  | Deliver Finished => on_finished p
  | Deliver _ => p
  end.

Definition steps (p : State) (actions : list Action) : State := fold_left step actions p.

End Handlers.

(** The signals among the actions, in order. *)
Fixpoint deliveries (actions : list Action) : list Event :=
  match actions with
  | [] => []
  | Deliver e :: actions' => e :: deliveries actions'
  | _ :: actions' => deliveries actions'
  end.

(** What the panel guarantees after any sequence of actions. *)
Definition consistent (p : State) : Prop :=
  ui_file_label p = match ui_excel_file p with
                    | EmptyString => "No file loaded"%string
                    | file_path => file_path
                    end
  /\ match ui_worker p with
     | None =>
         ui_send_enabled p = true /\ ui_pause_enabled p = false
         /\ ui_resume_enabled p = false
     | Some h =>
         ui_send_enabled p = false
         /\ ui_pause_enabled p = negb (h_pause h)
         /\ ui_resume_enabled p = h_pause h
         /\ h_running h = true
         /\ h_excel_file h <> ""%string
     end.

End Panel.

(** * More vocabulary *)

(** [m] keeps the property [I] of the store, however it ends. *)
Definition preserves {A : Type} (I : Store -> Prop) (m : M A) : Prop :=
  forall s, I s -> I (snd (m s)).

(** The values of the sent-count signals, in order. *)
Fixpoint sent_signals (tr : list Event) : list Z :=
  match tr with
  | [] => []
  | EmailsSent n :: tr' => n :: sent_signals tr'
  | _ :: tr' => sent_signals tr'
  end.

(** The values of the total-contacts signals, in order. *)
Fixpoint total_signals (tr : list Event) : list Z :=
  match tr with
  | [] => []
  | TotalContacts n :: tr' => n :: total_signals tr'
  | _ :: tr' => total_signals tr'
  end.

(** The values of the progress signals, in order. *)
Fixpoint progress_signals (tr : list Event) : list Z :=
  match tr with
  | [] => []
  | Progress value :: tr' => value :: progress_signals tr'
  | _ :: tr' => progress_signals tr'
  end.

(** [1, 2, ..., k] *)
Definition one_to (k : nat) : list Z := map Z.of_nat (seq 1 k).

(** The sent-count signals so far are [1, ..., sent_count]. *)
Definition signals_in_step (s : Store) : Prop :=
  exists k, sent_count s = Z.of_nat k /\ sent_signals (trace s) = one_to k.

(** The entry records a row of [rs] and an error raised by an SMTP session
    for that row, at an instant after which the probe found the network
    reachable. *)
Definition from_source (env : Env) (rs : list Row) (fe : FailureEntry) : Prop :=
  exists row message t,
    In row rs
    /\ fe_from_email fe = from_email row
    /\ fe_to_email fe = to_email row
    /\ fe_subject fe = subject row
    /\ smtp_at env t (from_email row) (password row) (to_email row) message
       = Some (fe_error_message fe)
    /\ network_at env (S t) = true.

(** An SMTP session is for a row of [rs], with the headers built from that
    row, and with the body that rendering gives whatever the kind of the
    cells: the error text when the template cannot be read, the content and
    the closing lines when it holds no placeholder. *)
Definition row_message (env : Env) (rs : list Row) (e : Event) : Prop :=
  match e with
  | SmtpAttempt j m =>
      0 <= j
      /\ exists row,
           nth_error rs (Z.to_nat j) = Some row
           /\ msg_subject m = subject row
           /\ msg_from m = (signature row ++ " <" ++ from_email row ++ ">")%string
           /\ msg_to m = to_email row
           /\ match read_text env (html_file row) with
              | inl err => msg_body m = ("Error loading HTML file: " ++ err)%string
              | inr content =>
                  py_in "{sal}" content || py_in "{signature}" content = false ->
                  msg_body m
                  = (content ++ "<br><br>Thanks & Regards,<br>" ++ signature row)%string
              end
  | _ => True
  end.

(** The longest integer, in decimal digits, that [str] and [int] convert
    ([sys.int_info.default_max_str_digits]); [py_str] and [py_int] describe
    them up to that length. *)
Definition MAX_STR_DIGITS : Z := 4300.

(** Strings of whitespace. *)
Fixpoint all_space (s : string) : bool :=
  match s with
  | EmptyString => true
  | String c s' => is_space c && all_space s'
  end.

(** The checkpoint file is the one the run found, or holds the successor of
    an index at or after [lo]. *)
Definition cp_advanced (fs : FileState) (lo : Z) (s : Store) : Prop :=
  cp_file s = fs \/ exists k, lo <= k /\ cp_file s = Content (py_str (k + 1)).

(** The payloads of the report writes, in order. *)
Fixpoint reports (tr : list Event) : list (list FailureEntry) :=
  match tr with
  | [] => []
  | ReportWrite entries :: tr' => entries :: reports tr'
  | _ :: tr' => reports tr'
  end.

(** The number of completion signals. *)
Fixpoint count_finished (tr : list Event) : nat :=
  match tr with
  | [] => O
  | Finished :: tr' => S (count_finished tr')
  | _ :: tr' => count_finished tr'
  end.

(** The number of SMTP sessions. *)
Fixpoint count_attempts (tr : list Event) : nat :=
  match tr with
  | [] => O
  | SmtpAttempt _ _ :: tr' => S (count_attempts tr')
  | _ :: tr' => count_attempts tr'
  end.

(** The store after a waiting loop consulted the outside world [ticks]
    times and produced the events [extra]. *)
Definition after_polls (extra : list Event) (ticks : nat) (s : Store) : Store :=
  {| clock := clock s + ticks;
     trace := trace s ++ extra;
     cp_file := cp_file s;
     sent_count := sent_count s;
     failed_emails := failed_emails s |}.

(** ** More test data *)

Module Scenarios.

(** The user pauses at once and resumes after three polls. *)
Definition paused_three_polls : Env :=
  {| read_excel := fun _ => inr Fixtures.contacts;
     read_text := fun _ => inr "Hello"%string;
     pause_at := fun t => Nat.ltb t 6;
     running_at := fun _ => true;
     smtp_at := fun _ _ _ _ _ => None;
     network_at := fun _ => true;
     cp_write_at := fun _ => None;
     to_excel_at := fun _ => None;
     long_sleep_at := fun _ _ => None |}.

(** The user never resumes. *)
Definition paused_forever : Env :=
  {| read_excel := fun _ => inr Fixtures.contacts;
     read_text := fun _ => inr "Hello"%string;
     pause_at := fun _ => true;
     running_at := fun _ => true;
     smtp_at := fun _ _ _ _ _ => None;
     network_at := fun _ => true;
     cp_write_at := fun _ => None;
     to_excel_at := fun _ => None;
     long_sleep_at := fun _ _ => None |}.

(** The network comes back at the third probe. *)
Definition back_at_third_probe : Env :=
  {| read_excel := fun _ => inr Fixtures.contacts;
     read_text := fun _ => inr "Hello"%string;
     pause_at := fun _ => false;
     running_at := fun _ => true;
     smtp_at := fun _ _ _ _ _ => None;
     network_at := fun t => Nat.leb 4 t;
     cp_write_at := fun _ => None;
     to_excel_at := fun _ => None;
     long_sleep_at := fun _ _ => None |}.

(** The source cannot be read. *)
Definition no_source : Env :=
  {| read_excel := fun _ => inl "[Errno 2] No such file or directory: 'contacts.xlsx'"%string;
     read_text := fun _ => inr "Hello"%string;
     pause_at := fun _ => false;
     running_at := fun _ => true;
     smtp_at := fun _ _ _ _ _ => None;
     network_at := fun _ => true;
     cp_write_at := fun _ => None;
     to_excel_at := fun _ => None;
     long_sleep_at := fun _ _ => None |}.

(** The sheet lacks the columns [sal] and [subject]. *)
Definition short_sheet : DataFrame :=
  {| columns := ["from_email"; "password"; "signature"; "to_email"; "html_file"]%string;
     rows := [Fixtures.contact "a@example.org"] |}.

Definition bad_schema : Env :=
  {| read_excel := fun _ => inr short_sheet;
     read_text := fun _ => inr "Hello"%string;
     pause_at := fun _ => false;
     running_at := fun _ => true;
     smtp_at := fun _ _ _ _ _ => None;
     network_at := fun _ => true;
     cp_write_at := fun _ => None;
     to_excel_at := fun _ => None;
     long_sleep_at := fun _ _ => None |}.

(** The report cannot be written. *)
Definition no_report : Env :=
  {| read_excel := fun _ => inr Fixtures.contacts;
     read_text := fun _ => inr "Hello"%string;
     pause_at := fun _ => false;
     running_at := fun _ => true;
     smtp_at := fun _ _ _ recipient _ =>
                  if String.eqb recipient "b@example.org" then Some "bad address"%string
                  else None;
     network_at := fun _ => true;
     cp_write_at := fun _ => None;
     to_excel_at := fun _ => Some "[Errno 13] Permission denied"%string;
     long_sleep_at := fun _ _ => None |}.

(** A negative delay, which [float] accepts. *)
Definition hasty : Worker :=
  {| excel_file := "contacts.xlsx"; delay := - (1); delay_str := "-1.0" |}.

(** [float] succeeds on these two texts. *)
Definition is_float (text : string) : bool :=
  String.eqb text "1" || String.eqb text "2.5".

End Scenarios.

(** * Properties *)

(** ** Examples *)

Example py_int_ex1 : py_int " 12
" = Some 12.
Proof. reflexivity. Qed.

Example py_int_ex2 : py_int "-1_000" = Some (-1000).
Proof. reflexivity. Qed.

Example py_int_ex3 : py_int "1__0" = None /\ py_int "" = None /\ py_int "abc" = None /\ py_int "- 5" = None.
Proof. repeat split; reflexivity. Qed.

Example py_replace_ex1 : py_replace "aa" "b" "aaaaa" = "bba".
Proof. reflexivity. Qed.

Example py_replace_ex2 : py_replace "{sal}" "Jane" "Hi {sal}, {sal}!" = "Hi Jane, Jane!".
Proof. reflexivity. Qed.

Example progress_percent_ex1 : progress_percent 0 3 = 33 /\ progress_percent 2 3 = 100.
Proof. split; vm_compute; reflexivity. Qed.

(** The double-precision product can fall just below the exact percentage:
    [29 / 100 * 100] is [28.999999999999996]. *)
Example progress_percent_ex2 : progress_percent 28 100 = 28 /\ progress_percent 49 100 = 50.
Proof. split; vm_compute; reflexivity. Qed.

(** ** Text primitives *)

Local Open Scope string_scope.

Lemma digit_not_special (c : ascii) :
  is_digit c = true ->
  is_space c = false /\ Ascii.eqb c "_" = false /\ Ascii.eqb c "+" = false
  /\ Ascii.eqb c "-" = false.
Proof.
  destruct c as [[] [] [] [] [] [] [] []]; vm_compute; intuition congruence.
Qed.

Lemma all_digits_string_of_uint (d : Decimal.uint) :
  all_digits (NilEmpty.string_of_uint d) = true.
Proof. induction d; simpl; auto. Qed.

Lemma rstrip_all_digits (s : string) : all_digits s = true -> rstrip s = s.
Proof.
  induction s as [|c s IH]; simpl; [reflexivity|].
  intros H. apply andb_prop in H as [Hc Hs].
  rewrite (IH Hs). destruct s.
  - destruct (digit_not_special c Hc) as [-> _]. reflexivity.
  - reflexivity.
Qed.

Lemma strip_all_digits (s : string) : all_digits s = true -> strip s = s.
Proof.
  intros H. unfold strip.
  assert (lstrip s = s) as ->; [|now apply rstrip_all_digits].
  destruct s as [|c s]; simpl in *; [reflexivity|].
  apply andb_prop in H as [Hc _].
  now destruct (digit_not_special c Hc) as [-> _].
Qed.

Lemma drop_underscores_all_digits (s : string) (prev : bool) :
  all_digits s = true -> drop_underscores prev s = Some s.
Proof.
  revert prev. induction s as [|c s IH]; simpl; intros prev H; [reflexivity|].
  apply andb_prop in H as [Hc Hs].
  destruct (digit_not_special c Hc) as (_ & -> & _).
  now rewrite (IH _ Hs).
Qed.

Lemma parse_digits_pos (p : positive) :
  parse_digits (NilEmpty.string_of_uint (Pos.to_uint p)) = Some (Zpos p).
Proof.
  unfold parse_digits.
  rewrite drop_underscores_all_digits by apply all_digits_string_of_uint.
  assert (Hnil : Pos.to_uint p <> Decimal.Nil).
  { intros E. pose proof (DecimalPos.Unsigned.of_to p) as H.
    rewrite E in H. discriminate H. }
  pose proof (NilZero.usu _ Hnil) as H.
  unfold NilZero.string_of_uint in H.
  destruct (Pos.to_uint p) eqn:E; try congruence; rewrite H;
    f_equal; rewrite <- E;
    change (Z.of_int (Z.to_int (Zpos p)) = Zpos p); apply DecimalZ.of_to.
Qed.

Lemma string_of_uint_pos_shape (p : positive) :
  NilZero.string_of_uint (Pos.to_uint p) = NilEmpty.string_of_uint (Pos.to_uint p)
  /\ exists c r, NilEmpty.string_of_uint (Pos.to_uint p) = String c r /\ is_digit c = true.
Proof.
  assert (Hnil : Pos.to_uint p <> Decimal.Nil).
  { intros E. pose proof (DecimalPos.Unsigned.of_to p) as H.
    rewrite E in H. discriminate H. }
  unfold NilZero.string_of_uint.
  destruct (Pos.to_uint p); try congruence; split; try reflexivity;
    simpl; eexists; eexists; (split; [reflexivity|reflexivity]).
Qed.

(** [int(str(n)) == n] *)
Lemma py_int_py_str (n : Z) : py_int (py_str n) = Some n.
Proof.
  destruct n as [|p|p]; [reflexivity| |].
  - unfold py_str, py_int. simpl Z.to_int. unfold NilZero.string_of_int.
    destruct (string_of_uint_pos_shape p) as (-> & c & r & E & Hc).
    rewrite strip_all_digits by apply all_digits_string_of_uint.
    pose proof (parse_digits_pos p) as HP. rewrite E in *.
    destruct (digit_not_special c Hc) as (_ & _ & -> & ->). exact HP.
  - unfold py_str, py_int. simpl Z.to_int. unfold NilZero.string_of_int.
    destruct (string_of_uint_pos_shape p) as (-> & c & r & E & Hc).
    assert (strip (String "-" (NilEmpty.string_of_uint (Pos.to_uint p)))
            = String "-" (NilEmpty.string_of_uint (Pos.to_uint p))) as ->.
    { unfold strip. simpl lstrip. simpl rstrip.
      rewrite rstrip_all_digits by apply all_digits_string_of_uint.
      rewrite E. reflexivity. }
    simpl. now rewrite parse_digits_pos.
Qed.

Lemma strip_py_str (n : Z) : strip (py_str n) = py_str n.
Proof.
  destruct n as [|p|p]; [reflexivity| |]; unfold py_str; simpl Z.to_int;
    unfold NilZero.string_of_int;
    destruct (string_of_uint_pos_shape p) as (-> & c & r & E & Hc).
  - apply strip_all_digits, all_digits_string_of_uint.
  - unfold strip. simpl lstrip. simpl rstrip.
    rewrite rstrip_all_digits by apply all_digits_string_of_uint.
    rewrite E. reflexivity.
Qed.

Lemma py_in_cons_false (old : string) (c : ascii) (s : string) :
  py_in old (String c s) = false ->
  prefix old (String c s) = false /\ py_in old s = false.
Proof.
  simpl py_in. destruct old as [|a old']; [discriminate|].
  simpl. destruct (ascii_dec a c); [destruct (prefix old' s)|]; auto; discriminate.
Qed.

(** Replacing a substring that does not occur changes nothing. *)
Lemma py_replace_absent (old new s : string) :
  py_in old s = false -> py_replace old new s = s.
Proof.
  unfold py_replace. induction s as [|c s IH]; [reflexivity|].
  intros H. apply py_in_cons_false in H as [Hp Hs].
  cbn [replace_from]. rewrite Hp. now rewrite IH.
Qed.

Lemma replace_from_skip (old new x b : string) :
  replace_from (String.length x) old new (x ++ b) = replace_from O old new b.
Proof.
  induction x as [|c x IH]; simpl.
  - destruct b; reflexivity.
  - exact IH.
Qed.

Lemma prefix_app (old b : string) : prefix old (old ++ b) = true.
Proof.
  induction old as [|c old IH]; simpl; [now destruct b|].
  destruct (ascii_dec c c); [exact IH|congruence].
Qed.

(** An occurrence at the front is replaced, and the replacement resumes
    after it. *)
Lemma py_replace_front (c : ascii) (old' new b : string) :
  py_replace (String c old') new (String c old' ++ b) = new ++ py_replace (String c old') new b.
Proof.
  unfold py_replace. cbn [append replace_from].
  change (String c (old' ++ b)) with (String c old' ++ b).
  rewrite prefix_app. f_equal.
  cbn [String.length]. rewrite Nat.sub_succ, Nat.sub_0_r.
  apply replace_from_skip.
Qed.

(** A character at which no occurrence starts is copied. *)
Lemma py_replace_copy (old new : string) (c : ascii) (s : string) :
  prefix old (String c s) = false ->
  py_replace old new (String c s) = String c (py_replace old new s).
Proof. unfold py_replace. cbn [replace_from]. now intros ->. Qed.

(** ** Traces *)

Local Open Scope Z_scope.
Local Open Scope list_scope.

Lemma extends_refl (P : Event -> Prop) (s : Store) : extends P s s.
Proof. exists []. split; [now rewrite app_nil_r|constructor]. Qed.

Lemma extends_same_trace (P : Event -> Prop) (s s' : Store) :
  trace s' = trace s -> extends P s s'.
Proof. intros E. exists []. split; [now rewrite app_nil_r|constructor]. Qed.

Lemma extends_trans (P : Event -> Prop) (s1 s2 s3 : Store) :
  extends P s1 s2 -> extends P s2 s3 -> extends P s1 s3.
Proof.
  intros (r1 & E1 & F1) (r2 & E2 & F2). exists (r1 ++ r2). split.
  - now rewrite E2, E1, app_assoc.
  - apply Forall_app; split; assumption.
Qed.

Lemma extends_weaken (P Q : Event -> Prop) (s s' : Store) :
  (forall e, P e -> Q e) -> extends P s s' -> extends Q s s'.
Proof.
  intros H (r & E & F). exists r. split; [exact E|].
  eapply Forall_impl; eauto.
Qed.

Lemma extends_emit (P : Event -> Prop) (e : Event) (s : Store) :
  P e -> extends P s (snd (emit e s)).
Proof. intros H. exists [e]. split; [reflexivity|repeat constructor; exact H]. Qed.

Lemma attempt_row_event (i : Z) (m : Message) (e : Event) :
  attempt_event i m e -> row_event i e.
Proof. destruct e; simpl; intuition. Qed.

Lemma row_event_rows_from (lo i : Z) (e : Event) :
  lo <= i -> row_event i e -> rows_from lo e.
Proof. destruct e; simpl; intros; subst; auto; try contradiction; lia. Qed.

Lemma rows_from_weaken (lo lo' : Z) (e : Event) :
  lo' <= lo -> rows_from lo e -> rows_from lo' e.
Proof. destruct e; simpl; intros; auto; try contradiction; lia. Qed.

Lemma rendered_rows_app (a b : list Event) :
  rendered_rows (a ++ b) = rendered_rows a ++ rendered_rows b.
Proof.
  induction a as [|e a IH]; [reflexivity|].
  destruct e; simpl; rewrite IH; reflexivity.
Qed.

Lemma rendered_rows_attempt (i : Z) (m : Message) (tr : list Event) :
  Forall (attempt_event i m) tr -> rendered_rows tr = [].
Proof.
  induction 1 as [|e tr He _ IH]; [reflexivity|].
  destruct e; simpl in *; try contradiction; exact IH.
Qed.

Lemma rendered_rows_In (i : Z) (tr : list Event) :
  In i (rendered_rows tr) <-> exists path, In (Render i path) tr.
Proof.
  induction tr as [|e tr IH]; simpl.
  - split; [contradiction|intros (? & [])].
  - destruct e as [m|n|pc|n| |secs|j pj|j mj| |k|es]; simpl; rewrite ?IH;
      try (split; [intros (q & H); exists q; right; exact H
                  |intros (q & [H|H]); [discriminate|exists q; exact H]]).
    split.
    + intros [->|(q & H)]; [exists pj; left; reflexivity|exists q; right; exact H].
    + intros (q & [H|H]); [left; congruence|right; exists q; exact H].
Qed.

(** ** Sleeping *)

Lemma time_sleep_short (env : Env) (secs : Q) :
  sleepable secs = true ->
  time_sleep env secs = (emit (Sleep secs) ;; _ <- tick ;; ret tt).
Proof.
  unfold sleepable, time_sleep. intros H. apply andb_prop in H as [-> ->]. reflexivity.
Qed.

Lemma time_sleep_slept (env : Env) (secs : Q) (s : Store) :
  sleepable secs = true -> time_sleep env secs s = (Val tt, slept secs s).
Proof. intros H. now rewrite (time_sleep_short env secs H). Qed.

(** A sleep returns, or raises and leaves all but the clock as it was. *)
Lemma time_sleep_result (env : Env) (secs : Q) (s : Store) :
  time_sleep env secs s = (Val tt, slept secs s)
  \/ exists e s',
       time_sleep env secs s = (Raise e, s')
       /\ sleepable secs = false
       /\ trace s' = trace s /\ cp_file s' = cp_file s
       /\ sent_count s' = sent_count s /\ failed_emails s' = failed_emails s.
Proof.
  unfold time_sleep, sleepable.
  destruct (Qle_bool 0 secs); cbn [andb].
  - destruct (Qle_bool secs MAX_DELAY); [now left|].
    unfold bind, tick, emit, raise. cbn.
    destruct (long_sleep_at env (clock s) secs) as [e|]; [right|now left].
    eexists. eexists. split; [reflexivity|]. cbn. repeat split.
  - right. eexists. eexists. split; [reflexivity|]. repeat split.
Qed.

Arguments time_sleep : simpl never.

(** ** The waiting loops *)

Section Loops.

Variable env : Env.

Lemma wait_while_paused_spec (fuel : nat) (s : Store) :
  forall r s', wait_while_paused env fuel s = (r, s') ->
    (r = Val tt \/ r = OutOfFuel)
    /\ cp_file s' = cp_file s /\ same_counts s s'
    /\ extends (is_sleep (1 # 10)) s s'.
Proof.
  revert s. induction fuel as [|f IH]; intros s r s' H.
  - inversion H; subst. repeat split; auto. apply extends_refl.
  - cbn [wait_while_paused] in H. unfold bind, poll_pause, tick, ret in H. cbn in H.
    destruct (pause_at env (clock s)).
    + rewrite time_sleep_slept in H by reflexivity. unfold slept in H. cbn in H.
      apply IH in H as (Hr & Hcp & (Hs & Hf) & Hext). cbn in *.
      repeat split; auto.
      eapply extends_trans; [|exact Hext].
      exists [Sleep (1 # 10)]. split; [reflexivity|repeat constructor].
    + inversion H; subst. repeat split; auto. now apply extends_same_trace.
Qed.

Lemma wait_for_network_spec (fuel : nat) (s : Store) :
  forall r s', wait_for_network env fuel s = (r, s') ->
    (r = Val tt \/ r = OutOfFuel)
    /\ cp_file s' = cp_file s /\ same_counts s s'
    /\ extends (is_probe_or_sleep 5) s s'.
Proof.
  revert s. induction fuel as [|f IH]; intros s r s' H.
  - inversion H; subst. repeat split; auto. apply extends_refl.
  - cbn [wait_for_network] in H. unfold bind, check_network, tick, emit, ret in H. cbn in H.
    destruct (network_at env (clock s)).
    + inversion H; subst. cbn. repeat split; auto.
      exists [Probe]. split; [reflexivity|]. constructor; [now left|constructor].
    + rewrite time_sleep_slept in H by reflexivity. unfold slept in H. cbn in H.
      apply IH in H as (Hr & Hcp & (Hs & Hf) & Hext). cbn in *.
      repeat split; auto.
      eapply extends_trans; [|exact Hext].
      exists [Probe; Sleep 5]. split; [cbn; now rewrite <- app_assoc|].
      constructor; [now left|constructor; [now right|constructor]].
Qed.

End Loops.

Arguments wait_while_paused : simpl never.
Arguments wait_for_network : simpl never.

(** ** The waiting loops, round by round *)

Lemma after_polls_nothing (s : Store) : after_polls [] 0 s = s.
Proof.
  destruct s. unfold after_polls. cbn. now rewrite Nat.add_0_r, app_nil_r.
Qed.

Lemma after_polls_again (a b : list Event) (n m : nat) (s : Store) :
  after_polls b m (after_polls a n s) = after_polls (a ++ b) (n + m) s.
Proof.
  unfold after_polls. cbn. now rewrite Nat.add_assoc, app_assoc.
Qed.

Lemma wait_while_paused_S (env : Env) (f : nat) :
  wait_while_paused env (S f)
  = (p <- poll_pause env ;;
     if p then time_sleep env (1 # 10) ;; wait_while_paused env f else ret tt).
Proof. reflexivity. Qed.

Lemma wait_for_network_S (env : Env) (f : nat) :
  wait_for_network env (S f)
  = (up <- check_network env ;;
     if up then ret tt else time_sleep env 5 ;; wait_for_network env f).
Proof. reflexivity. Qed.

(** One poll that finds the flag set. *)
Lemma wait_while_paused_round (env : Env) (f : nat) (s : Store) :
  pause_at env (clock s) = true ->
  wait_while_paused env (S f) s
  = wait_while_paused env f (after_polls [Sleep (1 # 10)] 2 s).
Proof.
  intros Hp. rewrite wait_while_paused_S.
  unfold bind, poll_pause, tick, ret. cbn. rewrite Hp.
  rewrite time_sleep_slept by reflexivity.
  unfold after_polls, slept. f_equal. cbn. f_equal. lia.
Qed.

(** [k] polls that find the flag set: [k] sleeps, and the loop goes on. *)
Lemma wait_while_paused_rounds (env : Env) (k : nat) :
  forall (f : nat) (s : Store),
    (forall j, (j < k)%nat -> pause_at env (clock s + 2 * j)%nat = true) ->
    wait_while_paused env (k + f) s
    = wait_while_paused env f (after_polls (repeat (Sleep (1 # 10)) k) (2 * k) s).
Proof.
  induction k as [|k IH]; intros f s Hp.
  - now rewrite after_polls_nothing.
  - change (S k + f)%nat with (S (k + f)).
    pose proof (Hp O ltac:(lia)) as H0. rewrite Nat.mul_0_r, Nat.add_0_r in H0.
    rewrite (wait_while_paused_round env _ s H0), IH.
    + rewrite after_polls_again. cbn [app repeat]. do 2 f_equal. lia.
    + intros j Hj. cbn [after_polls clock].
      replace (clock s + 2 + 2 * j)%nat with (clock s + 2 * S j)%nat by lia.
      apply Hp. lia.
Qed.

(** One probe that finds the network unreachable. *)
Lemma wait_for_network_round (env : Env) (f : nat) (s : Store) :
  network_at env (clock s) = false ->
  wait_for_network env (S f) s
  = wait_for_network env f (after_polls [Probe; Sleep 5] 2 s).
Proof.
  intros Hp. rewrite wait_for_network_S.
  unfold check_network, bind, tick, ret, emit. cbn. rewrite Hp.
  rewrite time_sleep_slept by reflexivity.
  unfold after_polls, slept. f_equal. cbn. rewrite <- app_assoc. f_equal. lia.
Qed.

(** [k] probes that find the network unreachable. *)
Lemma wait_for_network_rounds (env : Env) (k : nat) :
  forall (f : nat) (s : Store),
    (forall j, (j < k)%nat -> network_at env (clock s + 2 * j)%nat = false) ->
    wait_for_network env (k + f) s
    = wait_for_network env f
        (after_polls (List.concat (repeat [Probe; Sleep 5] k)) (2 * k) s).
Proof.
  induction k as [|k IH]; intros f s Hp.
  - cbn [repeat List.concat]. now rewrite after_polls_nothing.
  - change (S k + f)%nat with (S (k + f)).
    pose proof (Hp O ltac:(lia)) as H0. rewrite Nat.mul_0_r, Nat.add_0_r in H0.
    rewrite (wait_for_network_round env _ s H0), IH.
    + rewrite after_polls_again. cbn [repeat List.concat app]. do 2 f_equal. lia.
    + intros j Hj. cbn [after_polls clock].
      replace (clock s + 2 + 2 * j)%nat with (clock s + 2 * S j)%nat by lia.
      apply Hp. lia.
Qed.


(** ** The retry loop *)

Section Retry.

Variable env : Env.

Lemma send_loop_spec (fuel : nat) (i : Z) (sender pass recipient subj : string)
    (message : Message) (s : Store) :
  forall r s', send_loop env fuel i sender pass recipient subj message s = (r, s') ->
    cp_file s' = cp_file s
    /\ exists rest, trace s' = trace s ++ rest
        /\ Forall (attempt_event i message) rest
        /\ match r with
           | Val _ => In (SmtpAttempt i message) rest
                      /\ (delivered env sender pass recipient message s s'
                          \/ recorded_failure env sender pass recipient subj message s s')
           | OutOfFuel => same_counts s s'
           | Raise _ => False
           end.
Proof.
  revert s. induction fuel as [|f IH]; intros s r s' H.
  - inversion H; subst. split; [reflexivity|]. exists [].
    rewrite app_nil_r. repeat split; auto.
  - cbn [send_loop] in H. unfold bind at 1 in H.
    destruct (wait_while_paused env (S f) s) as [r0 s0] eqn:E0.
    apply wait_while_paused_spec in E0 as (Hr0 & Hcp0 & (Hs0 & Hf0) & (pre & Ht0 & Hx0)).
    apply (Forall_impl (attempt_event i message)) in Hx0; [|intros e ->; exact I].
    destruct Hr0 as [-> | ->].
    2:{ inversion H; subst. split; [exact Hcp0|]. exists pre. repeat split; auto. }
    unfold bind, smtp_send, tick, emit, ret in H. cbn in H.
    destruct (smtp_at env (clock s0) sender pass recipient message) as [err|] eqn:Esmtp.
    + unfold check_network, tick, emit, ret, bind in H. cbn in H.
      destruct (network_at env (S (clock s0))) eqn:Enet; cbn in H.
      * unfold append_failure in H. inversion H; subst; clear H. cbn.
        split; [exact Hcp0|].
        exists (pre ++ [SmtpAttempt i message; Probe;
                        Log ("Failed to send email to " ++ recipient ++ ": " ++ err)%string]).
        split; [rewrite Ht0, <- !app_assoc; reflexivity|]. split.
        { apply Forall_app. split; [exact Hx0|].
          repeat (constructor; [cbn; auto|]). constructor. }
        split; [apply in_or_app; right; now left|].
        right. split; [exact Hs0|]. exists (clock s0), err.
        rewrite Hf0. auto.
      * match type of H with
        | context [wait_for_network env (S f) ?st] =>
            destruct (wait_for_network env (S f) st) as [r1 s1] eqn:E1
        end.
        apply wait_for_network_spec in E1 as (Hr1 & Hcp1 & (Hs1 & Hf1) & (w & Ht1 & Hx1)).
        apply (Forall_impl (attempt_event i message)) in Hx1;
          [|intros e [-> | ->]; exact I].
        cbn in Hcp1, Hs1, Hf1, Ht1.
        set (round := pre ++ [SmtpAttempt i message; Probe;
               Log "Network disconnected. Pausing email sending process. Waiting for network to be restored..."]
               ++ w).
        assert (Hround : trace s1 = trace s ++ round).
        { unfold round. rewrite Ht1, Ht0, <- !app_assoc. reflexivity. }
        assert (Fround : Forall (attempt_event i message) round).
        { unfold round. apply Forall_app. split; [exact Hx0|].
          apply Forall_app. split; [|exact Hx1].
          repeat (constructor; [cbn; auto|]). constructor. }
        destruct Hr1 as [-> | ->].
        2:{ inversion H; subst. split; [congruence|]. exists round.
            repeat split; auto; congruence. }
        apply IH in H as (Hcp & (rest & Ht & Hx & Hres)). cbn in Hcp, Ht.
        split; [congruence|].
        exists (round ++ Log "Network restored. Resuming email sending process." :: rest).
        split; [rewrite Ht, Hround, <- !app_assoc; reflexivity|]. split.
        { apply Forall_app. split; [exact Fround|]. constructor; [exact I|exact Hx]. }
        destruct r as [[]|e|].
        -- destruct Hres as [Hin Hres]. split.
           { apply in_or_app. left. unfold round. apply in_or_app. right. now left. }
           destruct Hres as [(A & B & C)|(A & t & e & B & C & D)]; cbn in A.
           ++ left. repeat split; [congruence| |exact C].
              cbn in B. congruence.
           ++ right. split; [congruence|]. exists t, e. cbn in D.
              repeat split; auto. congruence.
        -- exact Hres.
        -- destruct Hres as [A B]. cbn in A, B. split; congruence.
    + inversion H; subst; clear H. cbn. split; [exact Hcp0|].
      exists (pre ++ [SmtpAttempt i message; Log "Email sent successfully!";
                      EmailsSent (sent_count s0 + 1)]).
      split; [rewrite Ht0, <- !app_assoc; reflexivity|]. split.
      { apply Forall_app. split; [exact Hx0|].
        repeat (constructor; [cbn; auto|]). constructor. }
      split; [apply in_or_app; right; now left|].
      left. unfold delivered. cbn. rewrite Hs0.
      repeat split; auto. now exists (clock s0).
Qed.

End Retry.

Arguments send_loop : simpl never.

(** ** One iteration of the loop *)

(** Rendering always returns a body: no error escapes it. *)
Lemma load_html_content_val (env : Env) (i : Z) (file_path salutation sig : string) (s : Store) :
  load_html_content env i file_path salutation sig s
  = (Val (rendered_body env file_path salutation sig), snd (emit (Render i file_path) s)).
Proof.
  unfold load_html_content, rendered_body, bind. cbn.
  destruct (read_text env file_path) as [e|content]; [reflexivity|].
  destruct (py_in "{sal}" content || py_in "{signature}" content); reflexivity.
Qed.

Arguments load_html_content : simpl never.

Ltac close_trace :=
  cbn;
  repeat match goal with
         | E : trace _ = _ ++ _ |- _ => rewrite E; clear E
         end;
  rewrite <- ?app_assoc; cbn; rewrite <- ?app_assoc; reflexivity.

Lemma loop_body_spec (env : Env) (v : Variant) (self : Worker) (fuel : nat)
    (total start_index i : Z) (row : Row) (s : Store) :
  forall r s', loop_body env v self fuel total start_index i row s = (r, s') ->
    body_post env v self total start_index i row s r s'.
Proof.
  intros r s' H. unfold loop_body in H. unfold body_post, skipped.
  destruct (match v with V1_2 => i <? start_index | V1 => false end).
  { inversion H; subst. auto. }
  unfold bind at 1 in H.
  destruct (wait_while_paused env fuel s) as [r0 s0] eqn:E0.
  apply wait_while_paused_spec in E0 as (Hr0 & Hcp0 & (Hs0 & Hf0) & (pre & Ht0 & Hx0)).
  assert (Fpre : Forall (row_event i) pre).
  { eapply Forall_impl; [|exact Hx0]. intros e ->. exact I. }
  destruct Hr0 as [-> | ->].
  2:{ inversion H; subst. exists pre. repeat split; auto. left.
      repeat split; auto.
      eapply (rendered_rows_attempt i (message_of env row)), Forall_impl; [|exact Hx0].
      intros e ->. exact I. }
  unfold bind at 1 in H. unfold poll_running, bind, tick, ret in H. cbn in H.
  destruct (running_at env (clock s0)) eqn:Erun; cbn in H.
  2:{ inversion H; subst. exists pre. cbn. repeat split; auto. left.
      repeat split; auto.
      - eapply (rendered_rows_attempt i (message_of env row)), Forall_impl; [|exact Hx0].
        intros e ->. exact I.
      - right. split; [reflexivity|]. now exists (clock s0). }
  rewrite load_html_content_val in H. cbn in H.
  match type of H with
  | context [send_loop env fuel i ?a ?b ?c ?d ?m ?st] =>
      destruct (send_loop env fuel i a b c d m st) as [r1 s1] eqn:E1
  end.
  apply send_loop_spec in E1 as (Hcp1 & (mid & Ht1 & Hx1 & Hres)).
  change (Forall (attempt_event i (message_of env row)) mid) in Hx1.
  cbn in Hcp1, Ht1.
  assert (Fmid : Forall (row_event i) mid).
  { eapply Forall_impl; [|exact Hx1]. intros e. apply attempt_row_event. }
  assert (Rpre : rendered_rows pre = []).
  { eapply (rendered_rows_attempt i (message_of env row)), Forall_impl; [|exact Hx0].
    intros e ->. exact I. }
  assert (Rmid : rendered_rows mid = []).
  { eapply rendered_rows_attempt; exact Hx1. }
  destruct r1 as [[]|e1|].
  2:{ contradiction. }
  2:{ inversion H; subst. destruct Hres as [A B]. cbn in A, B.
      exists (pre ++ Render i (html_file row) :: sending_log v i row :: mid).
      split; [rewrite Ht1, Ht0, <- !app_assoc; reflexivity|]. split.
      { apply Forall_app. split; [exact Fpre|].
        constructor; [reflexivity|]. constructor; [exact I|exact Fmid]. }
      right. split.
      { rewrite rendered_rows_app, Rpre. cbn. now rewrite Rmid. }
      split; [split; congruence|congruence]. }
  destruct Hres as [Hin Hres].
  change (In (SmtpAttempt i (message_of env row)) mid) in Hin.
  assert (Hfin : finalized s s1).
  { destruct Hres as [(A & B & _)|(A & t & e & _ & _ & B)]; cbn in A, B.
    - left. split; congruence.
    - right. split; [congruence|]. eexists. rewrite B, Hf0. reflexivity. }
  clear Hres.
  assert (Hshape : forall tl, Forall (row_event i) tl ->
            rendered_rows tl = [] ->
            Forall (row_event i)
              (pre ++ Render i (html_file row) :: sending_log v i row :: mid ++ tl)
            /\ rendered_rows
                 (pre ++ Render i (html_file row) :: sending_log v i row :: mid ++ tl) = [i]).
  { intros tl Ftl Rtl. split.
    - apply Forall_app. split; [exact Fpre|].
      constructor; [reflexivity|]. constructor; [exact I|].
      apply Forall_app. split; assumption.
    - rewrite rendered_rows_app, Rpre. cbn.
      now rewrite rendered_rows_app, Rmid, Rtl. }
  assert (Hfin2 : forall s2, sent_count s2 = sent_count s1 ->
                     failed_emails s2 = failed_emails s1 -> finalized s s2).
  { intros s2 A B. unfold finalized in *. rewrite A, B. exact Hfin. }
  destruct v.
  - (* V1: no checkpoint *)
    cbn in H.
    match type of H with
    | context [time_sleep env (delay self) ?st] =>
        destruct (time_sleep_result env (delay self) st)
          as [E|(e & s2 & E & Edelay & Htr & Hcp2 & Hsc & Hfe)];
        rewrite E in H
    end; cbn in H; inversion H; subst; clear H.
    + unfold slept.
      exists (pre ++ Render i (html_file row) :: sending_log V1 i row
                              :: mid ++ closing_events V1 self total i).
      split; [|split; [|right; split]].
      * close_trace.
      * apply Hshape; [|reflexivity].
        repeat (constructor; [exact I|]). constructor.
      * apply Hshape; [|reflexivity].
        repeat (constructor; [exact I|]). constructor.
      * split; [reflexivity|]. split; [now apply Hfin2|]. split; [cbn; congruence|].
        exists pre, mid. repeat split; auto.
    + cbn in Htr, Hcp2, Hsc, Hfe.
      exists (pre ++ Render i (html_file row) :: sending_log V1 i row
                              :: mid ++ [Progress (progress_percent i total);
                                         Log ("Waiting for " ++ delay_str self
                                              ++ " seconds before next email..." ++ nl)%string]).
      split; [|split; [|right; split]].
      * close_trace.
      * apply Hshape; [|reflexivity].
        repeat (constructor; [exact I|]). constructor.
      * apply Hshape; [|reflexivity].
        repeat (constructor; [exact I|]). constructor.
      * split; [now apply Hfin2|]. split; [left; congruence|now right].
  - (* V1_2: the checkpoint is written first *)
    unfold save_checkpoint, bind, tick, emit, raise, set_cp_file in H. cbn in H.
    destruct (cp_write_at env (clock s1)) as [werr|] eqn:Ewrite; cbn in H.
    + inversion H; subst; clear H.
      exists (pre ++ Render i (html_file row) :: sending_log V1_2 i row
                              :: mid ++ [CheckpointWrite (i + 1)]).
      split; [|split; [|right; split]].
      * close_trace.
      * apply Hshape; [|reflexivity].
        repeat (constructor; [reflexivity|]). constructor.
      * apply Hshape; [|reflexivity].
        repeat (constructor; [reflexivity|]). constructor.
      * split; [exact Hfin|]. split; [left; cbn; congruence|now left].
    + match type of H with
      | context [time_sleep env (delay self) ?st] =>
          destruct (time_sleep_result env (delay self) st)
            as [E|(e & s2 & E & Edelay & Htr & Hcp2 & Hsc & Hfe)];
          rewrite E in H
      end; cbn in H; inversion H; subst; clear H.
      * unfold slept.
        exists (pre ++ Render i (html_file row) :: sending_log V1_2 i row
                                 :: mid ++ closing_events V1_2 self total i).
        split; [|split; [|right; split]].
        -- close_trace.
        -- apply Hshape; [|reflexivity].
           constructor; [reflexivity|]. repeat (constructor; [exact I|]). constructor.
        -- apply Hshape; [|reflexivity].
           constructor; [reflexivity|]. repeat (constructor; [exact I|]). constructor.
        -- split; [reflexivity|]. split; [now apply Hfin2|]. split; [reflexivity|].
           exists pre, mid. repeat split; auto.
      * cbn in Htr, Hcp2, Hsc, Hfe.
        exists (pre ++ Render i (html_file row) :: sending_log V1_2 i row
                                 :: mid ++ [CheckpointWrite (i + 1);
                                            Progress (progress_percent i total);
                                            Log ("Waiting for " ++ delay_str self
                                                 ++ " seconds before next email..." ++ nl)%string]).
        split; [|split; [|right; split]].
        -- close_trace.
        -- apply Hshape; [|reflexivity].
           constructor; [reflexivity|]. repeat (constructor; [exact I|]). constructor.
        -- apply Hshape; [|reflexivity].
           constructor; [reflexivity|]. repeat (constructor; [exact I|]). constructor.
        -- split; [now apply Hfin2|]. split; [now right|now left].
Qed.

Arguments loop_body : simpl never.

(** ** The loop over the rows *)

Lemma inc_in_weaken (lo lo' hi : Z) (L : list Z) :
  lo' <= lo -> inc_in lo hi L -> inc_in lo' hi L.
Proof. destruct L; simpl; intuition lia. Qed.

Lemma inc_in_In (lo hi : Z) (L : list Z) (x : Z) :
  inc_in lo hi L -> In x L -> lo <= x < hi.
Proof.
  revert lo. induction L as [|y L IH]; simpl; intros lo H Hin; [contradiction|].
  destruct H as [Hy HL]. destruct Hin as [->|Hin]; [exact Hy|].
  apply (IH _ HL) in Hin. lia.
Qed.

Lemma inc_in_length (lo hi : Z) (L : list Z) :
  lo <= hi -> inc_in lo hi L -> Z.of_nat (List.length L) <= hi - lo.
Proof.
  revert lo. induction L as [|y L IH]; simpl List.length; intros lo Hle H; [simpl; lia|].
  destruct H as [Hy HL]. apply IH in HL; lia.
Qed.

(** An increasing list within [lo, hi) has [hi - lo] elements exactly when
    it contains every element of the range. *)
Lemma inc_in_full (lo hi : Z) (L : list Z) :
  lo <= hi -> inc_in lo hi L ->
  (Z.of_nat (List.length L) = hi - lo <-> forall x, lo <= x < hi -> In x L).
Proof.
  revert lo. induction L as [|y L IH]; intros lo Hle H.
  - simpl. split; [intros E x Hx; lia|].
    intros Hall. destruct (Z.eq_dec lo hi) as [|Hne]; [lia|].
    destruct (Hall lo); lia.
  - destruct H as [Hy HL]. simpl List.length.
    assert (Hlen : Z.of_nat (List.length L) <= hi - (y + 1))
      by (apply inc_in_length; [lia|exact HL]).
    specialize (IH (y + 1) ltac:(lia) HL). split.
    + intros E x Hx. assert (y = lo) as -> by lia.
      destruct (Z.eq_dec x lo) as [->|Hne]; [now left|].
      right. apply IH; lia.
    + intros Hall.
      assert (y = lo) as ->.
      { destruct (Hall lo ltac:(lia)) as [E|Hin]; [exact E|].
        apply (inc_in_In _ _ _ _ HL) in Hin. lia. }
      assert (Z.of_nat (List.length L) = hi - (lo + 1)); [|lia].
      apply IH. intros x Hx.
      destruct (Hall x ltac:(lia)) as [E|Hin]; [lia|exact Hin].
Qed.



Lemma finalized_count (s s' : Store) : finalized s s' -> count_done s' = count_done s + 1.
Proof.
  unfold count_done. intros [[-> ->]|[-> [fe ->]]]; [lia|].
  rewrite length_app. simpl. lia.
Qed.

Lemma same_counts_count (s s' : Store) : same_counts s s' -> count_done s' = count_done s.
Proof. unfold count_done. now intros [-> ->]. Qed.

Lemma first_row_skipped (v : Variant) (start_index i : Z) :
  skipped v start_index i = true ->
  v = V1_2 /\ i < start_index /\ first_row v start_index (i + 1) = first_row v start_index i.
Proof.
  unfold skipped, first_row. destruct v; [discriminate|].
  intros H. apply Z.ltb_lt in H. repeat split; lia.
Qed.

Lemma first_row_not_skipped (v : Variant) (start_index i : Z) :
  skipped v start_index i = false ->
  first_row v start_index i = i /\ first_row v start_index (i + 1) = i + 1.
Proof.
  unfold skipped, first_row. destruct v; [split; reflexivity|].
  intros H. apply Z.ltb_ge in H. split; lia.
Qed.

Lemma for_rows_spec (env : Env) (v : Variant) (self : Worker) (fuel : nat)
    (total start_index : Z) (rs : list Row) :
  forall i s r s', for_rows env v self fuel total start_index i rs s = (r, s') ->
    rows_post env v self start_index i rs s r s'.
Proof.
  induction rs as [|row rs IH]; intros i s r s' H.
  - inversion H; subst. exists []. cbn. rewrite app_nil_r.
    repeat split; auto; try lia; try discriminate.
    destruct v; reflexivity.
  - cbn [for_rows] in H. unfold bind at 1 in H.
    destruct (loop_body env v self fuel total start_index i row s) as [r0 s0] eqn:E0.
    apply loop_body_spec in E0. unfold body_post in E0.
    assert (Hhi : i + 1 + Z.of_nat (List.length rs)
                  = i + Z.of_nat (List.length (row :: rs))).
    { simpl List.length. lia. }
    destruct (skipped v start_index i) eqn:Eskip.
    + (* the row is skipped *)
      destruct E0 as [-> ->].
      apply first_row_skipped in Eskip as (Hv & Hlt & Hfirst).
      apply IH in H as (rest & Ht & Hrows & Hinc & Hle & Heq & Hraise & Hcp & Hall).
      rewrite Hfirst, Hhi in *.
      exists rest. cbn zeta. repeat split; auto.
      intros Hr Hrun. specialize (Hall Hr Hrun).
      destruct (rendered_rows rest); [|exact Hall].
      right. split; [exact Hv|]. destruct Hall as [->|[_ Hge]]; [|exact Hge].
      simpl List.length. lia.
    + apply first_row_not_skipped in Eskip as (Hfirst & Hfirst').
      destruct E0 as (rb & Htb & Frb & [(Rb & Hsame & Hcpb & Hidle)|(Rb & Hdone)]).
      * (* the iteration stopped before rendering *)
        exists rb. cbn zeta. rewrite Rb. cbn.
        assert (s' = s0) as -> by (destruct Hidle as [->|[-> _]]; now inversion H).
        rewrite (same_counts_count _ _ Hsame).
        repeat split; auto; try lia.
        -- eapply Forall_impl; [|exact Frb]. intros e.
           apply row_event_rows_from. lia.
        -- intros e ->. destruct Hidle as [->|[-> _]]; inversion H.
        -- intros _. rewrite Hcpb. destruct v; reflexivity.
        -- intros -> Hrun. destruct Hidle as [->|[_ [t Ht]]]; [inversion H|].
           rewrite Hrun in Ht. discriminate.
      * destruct r0 as [fl|e0|].
        -- (* the row was finalized *)
           destruct Hdone as (-> & Hfin & Hcpb & _).
           apply IH in H as (rest & Ht & Hrows & Hinc & Hle & Heq & Hraise & Hcp & Hall).
           rewrite Hfirst' in *. rewrite Hhi in *.
           apply finalized_count in Hfin.
           exists (rb ++ rest). cbn zeta.
           rewrite rendered_rows_app, Rb. cbn [app List.length].
           rewrite Hfirst.
           repeat split.
           ++ rewrite Ht, Htb, app_assoc. reflexivity.
           ++ apply Forall_app. split.
              ** eapply Forall_impl; [|exact Frb]. intros e.
                 apply row_event_rows_from. lia.
              ** eapply Forall_impl; [|exact Hrows]. intros e.
                 apply rows_from_weaken. lia.
           ++ lia.
           ++ simpl List.length in Hhi. lia.
           ++ exact Hinc.
           ++ lia.
           ++ intros Hr. specialize (Heq Hr). lia.
           ++ exact Hraise.
           ++ intros Hr. rewrite (Hcp Hr), Hcpb. unfold cp_after.
              destruct v; [reflexivity|].
              unfold cp_of_rows. destruct (rendered_rows rest); reflexivity.
           ++ intros Hr Hrun. specialize (Hall Hr Hrun).
              destruct (rendered_rows rest) as [|z L'] eqn:EL.
              ** destruct Hall as [->|[Hv Hge]]; [simpl; lia|].
                 exfalso. subst v. unfold first_row in Hfirst.
                 simpl List.length in Hge. lia.
              ** exact Hall.
        -- (* an exception escaped the iteration *)
           destruct Hdone as (Hfin & _ & Hwhy).
           inversion H; subst. apply finalized_count in Hfin.
           exists rb. cbn zeta. rewrite Rb. cbn [List.length]. rewrite Hfirst.
           repeat split; auto; try discriminate; try lia;
             try (simpl List.length; lia).
           eapply Forall_impl; [|exact Frb]. intros ev.
           apply row_event_rows_from. lia.
        -- (* a loop of the iteration is still running *)
           destruct Hdone as (Hsame & _).
           inversion H; subst. apply same_counts_count in Hsame.
           exists rb. cbn zeta. rewrite Rb. cbn [List.length]. rewrite Hfirst.
           repeat split; auto; try discriminate; try lia;
             try (simpl List.length; lia).
           eapply Forall_impl; [|exact Frb]. intros ev.
           apply row_event_rows_from. lia.
Qed.

(** A loop that returns without having been cancelled has processed every
    row from the first one it can touch. *)
Lemma for_rows_uncancelled (env : Env) (v : Variant) (self : Worker) (fuel : nat)
    (total start_index : Z) (rs : list Row) :
  (forall t, running_at env t = true) ->
  forall i s s', for_rows env v self fuel total start_index i rs s = (Val tt, s') ->
    exists rest,
      trace s' = trace s ++ rest
      /\ Z.of_nat (List.length (rendered_rows rest))
         = Z.max 0 (i + Z.of_nat (List.length rs) - first_row v start_index i).
Proof.
  intros Hrun. induction rs as [|row rs IH]; intros i s s' H.
  - inversion H; subst. exists []. rewrite app_nil_r. split; [reflexivity|].
    cbn. unfold first_row. destruct v; lia.
  - cbn [for_rows] in H. unfold bind at 1 in H.
    destruct (loop_body env v self fuel total start_index i row s) as [r0 s0] eqn:E0.
    apply loop_body_spec in E0. unfold body_post in E0.
    simpl List.length. rewrite Nat2Z.inj_succ.
    destruct (skipped v start_index i) eqn:Eskip.
    + destruct E0 as [-> ->].
      apply first_row_skipped in Eskip as (_ & _ & Hfirst).
      apply IH in H as (rest & Ht & Hlen). exists rest. split; [exact Ht|].
      rewrite Hlen, Hfirst. f_equal. lia.
    + apply first_row_not_skipped in Eskip as (Hfirst & Hfirst').
      destruct E0 as (rb & Htb & _ & [(_ & _ & _ & Hidle)|(Rb & Hdone)]).
      * destruct Hidle as [->|[_ [t Ht]]]; [discriminate H|].
        rewrite Hrun in Ht. discriminate Ht.
      * destruct r0 as [fl|e0|]; [|discriminate H|discriminate H].
        destruct Hdone as (-> & _).
        apply IH in H as (rest & Ht & Hlen). exists (rb ++ rest). split.
        -- rewrite Ht, Htb, app_assoc. reflexivity.
        -- rewrite rendered_rows_app, Rb. cbn [app List.length].
           rewrite Nat2Z.inj_succ, Hlen, Hfirst, Hfirst'. lia.
Qed.

Arguments for_rows : simpl never.

Lemma for_rows_cons (env : Env) (v : Variant) (self : Worker) (fuel : nat)
    (total start_index i : Z) (row : Row) (rest : list Row) :
  for_rows env v self fuel total start_index i (row :: rest)
  = (fl <- loop_body env v self fuel total start_index i row ;;
     match fl with
     | Break => ret tt
     | Continue => for_rows env v self fuel total start_index (i + 1) rest
     end).
Proof. reflexivity. Qed.

(** ** The whole run *)

Lemma load_checkpoint_value (fs : FileState) (s : Store) :
  cp_file s = fs -> (forall e, fs <> Unopenable e) ->
  load_checkpoint s = (Val (checkpoint_value fs), s).
Proof.
  intros <- Hopen. unfold load_checkpoint, checkpoint_value.
  destruct (cp_file s) as [|e|e|text]; try reflexivity.
  - now destruct (Hopen e).
  - destruct (py_int (strip text)); reflexivity.
Qed.

Lemma checkpoint_value_py_str (c : Z) : checkpoint_value (Content (py_str c)) = c.
Proof. unfold checkpoint_value. now rewrite strip_py_str, py_int_py_str. Qed.

Lemma finish_run (env : Env) (s : Store) :
  (export_report env ;;
   emit (Log ("Finished sending emails." ++ nl)%string) ;;
   emit Finished) s = (Val tt, finish env s).
Proof.
  unfold export_report, finish, report_events, bind, get_failed_emails, tick, emit, ret.
  destruct (failed_emails s) eqn:E; cbn; rewrite ?E.
  - rewrite <- !app_assoc. reflexivity.
  - destruct (to_excel_at env (clock s)); cbn; rewrite ?E, <- !app_assoc; reflexivity.
Qed.

Lemma rendered_rows_report (env : Env) (s : Store) :
  rendered_rows (report_events env s
                 ++ [Log ("Finished sending emails." ++ nl)%string; Finished]) = [].
Proof.
  unfold report_events. destruct (failed_emails s); [reflexivity|].
  destruct (to_excel_at env (clock s)); reflexivity.
Qed.

(** [run] on a readable source with the required columns: unless the
    checkpoint cannot be opened, it is the loop over the rows followed by the
    end of the run. *)
Lemma run_shape (env : Env) (v : Variant) (self : Worker) (fuel : nat)
    (fs : FileState) (df : DataFrame) :
  read_excel env (excel_file self) = inr df ->
  missing_column (columns df) = None ->
  (v = V1 \/ forall e, fs <> Unopenable e) ->
  run env v self fuel (init_store fs)
  = let n := Z.of_nat (List.length (rows df)) in
    match for_rows env v self fuel n (start_of v fs) 0 (rows df) (loop_start v n fs) with
    | (Val _, s2) => (Val tt, finish env s2)
    | (Raise e, s2) => (Raise e, s2)
    | (OutOfFuel, s2) => (OutOfFuel, s2)
    end.
Proof.
  intros Hread Hcols Hopen. unfold run. rewrite Hread, Hcols. cbn zeta.
  unfold bind at 1. cbn [emit].
  destruct v.
  - unfold bind at 1. cbn [ret]. unfold bind at 1. cbn [set_sent_count].
    unfold bind at 1. unfold loop_start, start_of, init_store. cbn.
    destruct (for_rows env V1 self fuel _ 0 0 (rows df) _) as [[[]|e|] s2];
      [apply finish_run|reflexivity|reflexivity].
  - destruct Hopen as [Hv|Hopen]; [discriminate|].
    unfold bind at 1. unfold bind at 1.
    rewrite (load_checkpoint_value fs) by (auto; reflexivity).
    unfold bind at 1. cbn [emit]. cbn [ret]. unfold bind at 1. cbn [set_sent_count].
    unfold bind at 1. unfold loop_start, start_of, init_store. cbn.
    destruct (for_rows env V1_2 self fuel _ _ 0 (rows df) _) as [[[]|e|] s2];
      [apply finish_run|reflexivity|reflexivity].
Qed.

(** When the checkpoint file exists and cannot be opened, the exception of
    [load_checkpoint] escapes [run] before the loop. *)
Lemma run_unopenable (env : Env) (self : Worker) (fuel : nat) (err : string)
    (df : DataFrame) :
  read_excel env (excel_file self) = inr df ->
  missing_column (columns df) = None ->
  run env V1_2 self fuel (init_store (Unopenable err))
  = (Raise err,
     {| clock := O; trace := [TotalContacts (Z.of_nat (List.length (rows df)))];
        cp_file := Unopenable err; sent_count := 0; failed_emails := [] |}).
Proof. intros Hread Hcols. unfold run. rewrite Hread, Hcols. reflexivity. Qed.

Lemma unopenable_dec (fs : FileState) :
  (exists e, fs = Unopenable e) \/ (forall e, fs <> Unopenable e).
Proof. destruct fs; try (right; discriminate). left. now eexists. Qed.

(** The rows processed by a run, with what the loop over the rows
    guarantees about them. *)
Lemma run_rows (env : Env) (v : Variant) (self : Worker) (fuel : nat)
    (fs : FileState) (df : DataFrame) :
  read_excel env (excel_file self) = inr df ->
  missing_column (columns df) = None ->
  let n := Z.of_nat (List.length (rows df)) in
  let r := fst (run env v self fuel (init_store fs)) in
  let s' := snd (run env v self fuel (init_store fs)) in
  let L := rendered_rows (trace s') in
  inc_in (first_row v (start_of v fs) 0) n L
  /\ count_done s' <= Z.of_nat (List.length L)
  /\ (r = Val tt -> count_done s' = Z.of_nat (List.length L))
  /\ (r = Val tt -> v = V1_2 -> cp_file s' = cp_of_rows L fs)
  /\ (r = Val tt -> (forall t, running_at env t = true) ->
      match L with
      | [] => rows df = [] \/ (v = V1_2 /\ n <= start_of v fs)
      | _ :: _ => last L 0 = n - 1
      end)
  /\ (forall e, r = Raise e -> v = V1_2 \/ sleepable (delay self) = false)
  /\ (r = Val tt -> (forall t, running_at env t = true) ->
      Z.of_nat (List.length L) = Z.max 0 (n - first_row v (start_of v fs) 0)).
Proof.
  intros Hread Hcols n r s' L.
  assert (Hcase : (v = V1_2 /\ exists e, fs = Unopenable e)
                  \/ (v = V1 \/ forall e, fs <> Unopenable e)).
  { destruct v; [right; now left|].
    destruct (unopenable_dec fs) as [He|Hne]; [left|right]; auto. }
  destruct Hcase as [(-> & e & ->)|Hor].
  { subst r s' L. rewrite (run_unopenable _ _ _ _ _ Hread Hcols). cbn.
    repeat split; auto; try discriminate; lia. }
  pose proof (run_shape env v self fuel fs df Hread Hcols Hor) as Hrun.
  cbn zeta in Hrun. fold n in Hrun.
  destruct (for_rows env v self fuel n (start_of v fs) 0 (rows df) (loop_start v n fs))
    as [r2 s2] eqn:Erows.
  assert (Hfull : r2 = Val tt -> (forall t, running_at env t = true) ->
            Z.of_nat (List.length (rendered_rows (trace s2)))
            = Z.max 0 (n - first_row v (start_of v fs) 0)).
  { intros -> Hrunning.
    destruct (for_rows_uncancelled env v self fuel n (start_of v fs) (rows df) Hrunning
                0 (loop_start v n fs) s2 Erows) as (rest & Ht & Hlen).
    rewrite Ht, rendered_rows_app, length_app, Nat2Z.inj_add, Hlen.
    unfold n. destruct v; cbn; lia. }
  apply for_rows_spec in Erows.
  destruct Erows as (rest & Ht & Hrows & Hinc & Hle & Heq & Hraise & Hcp & Hall).
  unfold count_done in Hle, Heq. cbn in Ht, Hle, Heq, Hcp.
  assert (HL : rendered_rows (trace s2) = rendered_rows rest).
  { rewrite Ht. destruct v; reflexivity. }
  subst r s' L. rewrite Hrun. clear Hrun.
  destruct r2 as [[]|e2|]; cbn [fst snd].
  1: unfold finish; cbn [trace];
     rewrite rendered_rows_app, rendered_rows_report, app_nil_r.
  all: rewrite HL; unfold count_done; cbn [sent_count failed_emails cp_file].
  all: repeat split; auto; try discriminate; try lia.
  - intros _ ->. now apply Hcp.
  - intros _ Hrunning. rewrite <- HL. now apply Hfull.
Qed.

(** The scenario of three records whose second one is rejected. *)
Example three_records_one_rejected :
  let s' := snd (run Fixtures.bad_address V1_2 Fixtures.worker 2 (init_store Absent)) in
  sent_count s' = 2
  /\ failed_emails s' = [failure_entry "me@example.org" "b@example.org" "Hello" "bad address"]
  /\ cp_file s' = Content "3"
  /\ In (ReportWrite (failed_emails s')) (trace s').
Proof.
  vm_compute. split; [reflexivity|split; [reflexivity|split; [reflexivity|]]].
  repeat first [left; reflexivity | right].
Qed.

(** ** Counting sent and failed records *)

(** C1. For every source and every run (whatever the fuel, the pauses and
    the way it ends), the number of records sent plus the number of recorded
    failures never exceeds the number of records; records are processed at
    most once, in order; when the run returns, that sum is the number of
    processed records, and it equals the total exactly when every record was
    processed, which is the case when the run started from the first record
    and was never cancelled; an iteration that finalizes a record counts it
    exactly once, as sent or as failed. *)
Theorem sent_plus_failed_le_total (env : Env) (v : Variant) (self : Worker)
    (fuel : nat) (fs : FileState) (df : DataFrame) :
  read_excel env (excel_file self) = inr df ->
  missing_column (columns df) = None ->
  let total := Z.of_nat (List.length (rows df)) in
  let r := fst (run env v self fuel (init_store fs)) in
  let s' := snd (run env v self fuel (init_store fs)) in
  let processed := rendered_rows (trace s') in
  sent_count s' + Z.of_nat (List.length (failed_emails s')) <= total
  /\ inc_in 0 total processed
  /\ (r = Val tt ->
      sent_count s' + Z.of_nat (List.length (failed_emails s'))
      = Z.of_nat (List.length processed))
  /\ (r = Val tt ->
      (sent_count s' + Z.of_nat (List.length (failed_emails s')) = total
       <-> forall i, 0 <= i < total -> In i processed))
  /\ (r = Val tt -> (forall t, running_at env t = true) -> start_of v fs <= 0 ->
      sent_count s' + Z.of_nat (List.length (failed_emails s')) = total)
  /\ (forall fuel' total' start_index i row s s1,
        skipped v start_index i = false ->
        loop_body env v self fuel' total' start_index i row s = (Val Continue, s1) ->
        finalized s s1).
Proof.
  intros Hread Hcols total r s' processed.
  destruct (run_rows env v self fuel fs df Hread Hcols)
    as (Hinc & Hle & Heq & _ & _ & _ & Hfull).
  fold total s' processed r in Hinc, Hle, Heq, Hfull.
  unfold count_done in Hle, Heq.
  assert (Hinc0 : inc_in 0 total processed).
  { eapply inc_in_weaken; [|exact Hinc]. unfold first_row. destruct v; lia. }
  assert (Hlen : Z.of_nat (List.length processed) <= total - 0).
  { apply inc_in_length; [unfold total; lia|exact Hinc0]. }
  split; [lia|]. split; [exact Hinc0|]. split; [exact Heq|]. split; [|split].
  - intros Hr. rewrite (Heq Hr).
    pose proof (inc_in_full 0 total processed ltac:(unfold total; lia) Hinc0) as Hiff.
    rewrite Z.sub_0_r in Hiff. exact Hiff.
  - intros Hr Hrunning Hstart. rewrite (Heq Hr), (Hfull Hr Hrunning).
    unfold first_row, start_of in *. destruct v; unfold total; lia.
  - intros fuel' total' start_index i row s s1 Hskip Hbody.
    apply loop_body_spec in Hbody. unfold body_post in Hbody. rewrite Hskip in Hbody.
    destruct Hbody as (rest & _ & _ & [(_ & _ & _ & [Hr|[Hr _]])|(_ & _ & Hfin & _)]);
      [discriminate Hr|discriminate Hr|exact Hfin].
Qed.

Lemma sent_plus_failed_le_total_witness :
  let s' := snd (run Fixtures.bad_address V1_2 Fixtures.worker 2 (init_store Absent)) in
  sent_count s' + Z.of_nat (List.length (failed_emails s')) <= 3
  /\ (sent_count s' + Z.of_nat (List.length (failed_emails s')) = 3
      <-> forall i, 0 <= i < 3 -> In i (rendered_rows (trace s'))).
Proof.
  pose proof (sent_plus_failed_le_total Fixtures.bad_address V1_2 Fixtures.worker 2
                Absent Fixtures.contacts eq_refl eq_refl) as (Hle & _ & _ & Hiff & _ & _).
  split; [exact Hle|]. apply Hiff. vm_compute. reflexivity.
Defined.

(** ** Resuming from the checkpoint *)



Lemma rows_from_not_before (c lo : Z) (e : Event) :
  c <= lo -> rows_from lo e -> not_before c e.
Proof. destruct e; simpl; intros; auto; lia. Qed.

Lemma run_not_before (env : Env) (self : Worker) (fuel : nat) (fs : FileState)
    (df : DataFrame) :
  read_excel env (excel_file self) = inr df ->
  missing_column (columns df) = None ->
  Forall (not_before (checkpoint_value fs))
    (trace (snd (run env V1_2 self fuel (init_store fs)))).
Proof.
  intros Hread Hcols.
  destruct (unopenable_dec fs) as [[e ->]|Hopen].
  { rewrite (run_unopenable _ _ _ _ _ Hread Hcols). cbn. repeat constructor. }
  rewrite (run_shape env V1_2 self fuel fs df Hread Hcols (or_intror Hopen)).
  cbn zeta.
  destruct (for_rows env V1_2 self fuel _ (start_of V1_2 fs) 0 (rows df) _)
    as [r2 s2] eqn:Erows.
  apply for_rows_spec in Erows. destruct Erows as (rest & Ht & Hrows & _).
  assert (H2 : Forall (not_before (checkpoint_value fs)) (trace s2)).
  { rewrite Ht. cbn. constructor; [exact I|]. constructor; [exact I|].
    eapply Forall_impl; [|exact Hrows]. intros e.
    apply rows_from_not_before. unfold first_row, start_of. lia. }
  destruct r2 as [[]|e2|]; cbn [snd]; try exact H2.
  unfold finish. cbn [trace]. apply Forall_app. split; [exact H2|].
  apply Forall_app. split.
  - unfold report_events. destruct (failed_emails s2); [constructor|].
    constructor; [exact I|]. constructor; [|constructor].
    destruct (to_excel_at env (clock s2)); exact I.
  - repeat constructor.
Qed.




(** ** The checkpoint after each record *)








(** ** Network outages *)





(** ** Exceptions that escape the run *)

(** The first variant has no checkpoint: with a delay that [time.sleep]
    accepts, no exception escapes its [run]. *)
Lemma run_v1_never_raises (env : Env) (self : Worker) (fuel : nat) (fs : FileState) :
  sleepable (delay self) = true ->
  forall e, fst (run env V1 self fuel (init_store fs)) <> Raise e.
Proof.
  intros Hdelay e.
  destruct (read_excel env (excel_file self)) as [err|df] eqn:Hread.
  { unfold run. rewrite Hread. discriminate. }
  destruct (missing_column (columns df)) as [col|] eqn:Hcols.
  { unfold run. rewrite Hread, Hcols. discriminate. }
  destruct (run_rows env V1 self fuel fs df Hread Hcols)
    as (_ & _ & _ & _ & _ & Hraise & _).
  intros Hr. destruct (Hraise e Hr) as [Hv|Hneg]; [discriminate|congruence].
Qed.

(** C5. An exception can escape [run] in the second variant:
    [save_checkpoint] opens the checkpoint file for writing outside any
    [try].  With sendable records and a checkpoint file that cannot be
    written, the exception escapes after the first record was sent: the run
    ends without the completion signal and without the remaining records. *)
Theorem checkpoint_write_error_escapes :
  let res := run Fixtures.read_only_dir V1_2 Fixtures.worker 2 (init_store Absent) in
  fst res = Raise "[Errno 13] Permission denied: 'progress_checkpoint.txt'"
  /\ sent_count (snd res) = 1
  /\ rendered_rows (trace (snd res)) = [0]
  /\ ~ In Finished (trace (snd res))
  /\ cp_file (snd res) = Absent.
Proof.
  vm_compute. repeat split; try reflexivity.
  intros H. repeat (destruct H as [H|H]; [discriminate H|]). exact H.
Qed.

(** ** Loading the checkpoint *)

(** A missing file, a file whose content cannot be read, and a content that
    is not an integer literal all give 0. *)
Lemma load_checkpoint_defaults (s : Store) :
  (cp_file s = Absent
   \/ (exists e, cp_file s = Undecodable e)
   \/ (exists text, cp_file s = Content text /\ py_int (strip text) = None)) ->
  load_checkpoint s = (Val 0, s).
Proof.
  unfold load_checkpoint.
  intros [->|[[e ->]|(text & -> & ->)]]; reflexivity.
Qed.

(** C6. A checkpoint file that exists and cannot be opened does not give
    0: [open] is outside the [try] of [load_checkpoint], so its exception
    escapes the function, and the run that called it ends before any record
    and without the completion signal. *)
Theorem load_checkpoint_unopenable (err : string) :
  load_checkpoint (init_store (Unopenable err)) = (Raise err, init_store (Unopenable err))
  /\ let res := run Fixtures.bad_address V1_2 Fixtures.worker 2
                  (init_store (Unopenable err)) in
     fst res = Raise err /\ trace (snd res) = [TotalContacts 3].
Proof. split; [reflexivity|]. split; reflexivity. Qed.

(** ** Rendering the body *)

Example rendering_example :
  py_replace "{signature}" "Bob" (py_replace "{sal}" "Jane" "Hi {sal}, ... {signature}")
  = "Hi Jane, ... Bob"%string.
Proof. reflexivity. Qed.

(** C9, as stated, fails: for the template [Hello], which has no
    placeholder, the body is not the template followed by the suffix made of
    line feeds. *)
Lemma load_html_content_suffix_counterexample :
  read_text Fixtures.bad_address "body.html" = inr "Hello"%string
  /\ py_in "{sal}" "Hello" = false
  /\ py_in "{signature}" "Hello" = false
  /\ fst (load_html_content Fixtures.bad_address 0 "body.html" "Jane" "Bob" (init_store Absent))
     <> Val ("Hello" ++ spec_suffix "Bob")%string
  /\ fst (load_html_content Fixtures.bad_address 0 "body.html" "Jane" "Bob" (init_store Absent))
     = Val "Hello<br><br>Thanks & Regards,<br>Bob"%string.
Proof. vm_compute. repeat split; try reflexivity. discriminate. Qed.

(** C9, amended. For a template without [{sal}] and without [{signature}]
    the body is the template followed by
    [<br><br>Thanks & Regards,<br>] and the signature; when one of the two
    placeholders occurs, [{sal}] is replaced by the salutation and then
    [{signature}] by the signature, a replacement whose placeholder does not
    occur leaving the text as it is. *)
Theorem load_html_content_placeholders (env : Env) (i : Z)
    (file_path salutation sig content : string) (s : Store) :
  read_text env file_path = inr content ->
  exists body,
    load_html_content env i file_path salutation sig s
    = (Val body, snd (emit (Render i file_path) s))
    /\ (py_in "{sal}" content = false -> py_in "{signature}" content = false ->
        body = (content ++ "<br><br>Thanks & Regards,<br>" ++ sig)%string)
    /\ (py_in "{sal}" content = true \/ py_in "{signature}" content = true ->
        body = py_replace "{signature}" sig (py_replace "{sal}" salutation content))
    /\ (py_in "{sal}" content = false -> py_in "{signature}" content = true ->
        body = py_replace "{signature}" sig content)
    /\ (py_in "{sal}" content = true ->
        py_in "{signature}" (py_replace "{sal}" salutation content) = false ->
        body = py_replace "{sal}" salutation content).
Proof.
  intros Hread. exists (rendered_body env file_path salutation sig).
  split; [apply load_html_content_val|].
  unfold rendered_body. rewrite Hread.
  destruct (py_in "{sal}" content) eqn:Esal;
    destruct (py_in "{signature}" content) eqn:Esig; cbn [orb];
    repeat split; try discriminate; try reflexivity;
    try (intros [H|H]; discriminate H).
  - intros _ Habs. now rewrite (py_replace_absent _ _ _ Habs).
  - intros _ Habs. now rewrite (py_replace_absent _ _ _ Habs).
  - intros _ _. now rewrite (py_replace_absent "{sal}" salutation content Esal).
Qed.

Lemma load_html_content_placeholders_witness :
  exists body,
    load_html_content Fixtures.bad_address 0 "body.html" "Jane" "Bob" (init_store Absent)
    = (Val body, snd (emit (Render 0 "body.html") (init_store Absent)))
    /\ body = "Hello<br><br>Thanks & Regards,<br>Bob"%string.
Proof.
  destruct (load_html_content_placeholders Fixtures.bad_address 0 "body.html" "Jane" "Bob"
              "Hello" (init_store Absent) eq_refl) as (body & Hrun & Hplain & _).
  exists body. split; [exact Hrun|]. apply Hplain; reflexivity.
Defined.

(** ** A checkpoint at or beyond the end of the source *)



(** ** A template that cannot be read *)

Lemma wait_not_paused (env : Env) (f : nat) (s : Store) :
  pause_at env (clock s) = false ->
  wait_while_paused env (S f) s = (Val tt, snd (tick s)).
Proof.
  intros Hp. unfold wait_while_paused, bind, poll_pause, tick, ret. cbn.
  now rewrite Hp.
Qed.

Lemma send_loop_S (env : Env) (f : nat) (i : Z)
    (sender pass recipient subj : string) (message : Message) :
  send_loop env (S f) i sender pass recipient subj message
  = (wait_while_paused env (S f) ;;
     r <- smtp_send env i sender pass recipient message ;;
     match r with
     | None =>
         emit (Log "Email sent successfully!") ;;
         n <- get_sent_count ;;
         set_sent_count (n + 1) ;;
         emit (EmailsSent (n + 1))
     | Some error_message =>
         up <- check_network env ;;
         if negb up then
           emit (Log DISCONNECTED) ;;
           wait_for_network env (S f) ;;
           emit (Log RESTORED) ;;
           send_loop env f i sender pass recipient subj message
         else
           emit (Log ("Failed to send email to " ++ recipient ++ ": " ++ error_message)%string) ;;
           append_failure (failure_entry sender recipient subj error_message)
     end).
Proof. reflexivity. Qed.





(** ** The progress value *)

Lemma round_half_even_near (n d : Z) :
  0 < d ->
  2 * (round_half_even n d * d - n) <= d /\ 2 * (n - round_half_even n d * d) <= d.
Proof.
  intros Hd. unfold round_half_even.
  pose proof (Z.div_mod n d ltac:(lia)) as Hdm.
  pose proof (Z.mod_pos_bound n d Hd) as Hr.
  destruct (Z.ltb_spec (2 * (n mod d)) d); [nia|].
  destruct (Z.ltb_spec d (2 * (n mod d))); [nia|].
  destruct (Z.even (n / d)); nia.
Qed.

Lemma scaled_pos (p q e : Z) :
  0 < p -> 0 < q -> 0 < fst (scaled p q e) /\ 0 < snd (scaled p q e).
Proof.
  intros Hp Hq. unfold scaled. cbn [fst snd].
  split; apply Z.mul_pos_pos; auto; apply Z.pow_pos_nonneg; lia.
Qed.

Lemma log2_bounds (p : Z) : 0 < p -> 2 ^ Z.log2 p <= p < 2 ^ (Z.log2 p + 1).
Proof.
  intros Hp. pose proof (Z.log2_spec p Hp) as H.
  now rewrite <- Z.add_1_r in H.
Qed.

(** The significand is at least [2^52]. *)
Lemma fl_exp_normal (p q : Z) :
  0 < p -> 0 < q ->
  2 ^ 52 * snd (scaled p q (fl_exp p q)) <= fst (scaled p q (fl_exp p q)).
Proof.
  intros Hp Hq. unfold fl_exp.
  set (e0 := Z.log2 p - Z.log2 q - 52).
  destruct (Z.ltb_spec (fst (scaled p q e0) / snd (scaled p q e0)) (2 ^ 52)) as [Hlt|Hge].
  - clear Hlt.
    pose proof (log2_bounds p Hp) as [Hp1 _].
    pose proof (log2_bounds q Hq) as [_ Hq2].
    pose proof (Z.log2_nonneg p) as Hlp. pose proof (Z.log2_nonneg q) as Hlq.
    unfold scaled. cbn [fst snd].
    destruct (Z.le_ge_cases 0 (e0 - 1)) as [Hpos|Hneg].
    + rewrite (Z.max_l 0 (- (e0 - 1))) by lia. rewrite (Z.max_r 0 (e0 - 1)) by lia.
      rewrite Z.pow_0_r, Z.mul_1_r.
      assert (E : 2 ^ 52 * 2 ^ (e0 - 1) * 2 ^ (Z.log2 q + 1) = 2 ^ Z.log2 p).
      { rewrite <- !Z.pow_add_r by lia. f_equal. unfold e0. lia. }
      assert (0 < 2 ^ (e0 - 1)) by (apply Z.pow_pos_nonneg; lia).
      nia.
    + rewrite (Z.max_r 0 (- (e0 - 1))) by lia. rewrite (Z.max_l 0 (e0 - 1)) by lia.
      rewrite Z.pow_0_r, Z.mul_1_r.
      assert (E : 2 ^ Z.log2 p * 2 ^ (- (e0 - 1)) = 2 ^ 52 * 2 ^ (Z.log2 q + 1)).
      { rewrite <- !Z.pow_add_r by lia. f_equal. unfold e0. lia. }
      assert (0 < 2 ^ (- (e0 - 1))) by (apply Z.pow_pos_nonneg; lia).
      nia.
  - destruct (scaled_pos p q e0 Hp Hq) as [HN HD].
    pose proof (Z.mul_div_le (fst (scaled p q e0)) (snd (scaled p q e0)) HD) as Hmd.
    nia.
Qed.

Lemma pow2_scaled (e : Z) :
  (pow2 e * inject_Z (2 ^ Z.max 0 (- e)) == inject_Z (2 ^ Z.max 0 e))%Q.
Proof.
  unfold pow2. destruct (Z.leb_spec 0 e) as [Hpos|Hneg].
  - rewrite (Z.max_l 0 (- e)) by lia. rewrite (Z.max_r 0 e) by lia.
    rewrite Z.pow_0_r. ring.
  - rewrite (Z.max_r 0 (- e)) by lia. rewrite (Z.max_l 0 e) by lia.
    rewrite Z.pow_0_r.
    assert (0 < 2 ^ (- e)) by (apply Z.pow_pos_nonneg; lia).
    unfold Qeq, Qmult, inject_Z. cbn [Qnum Qden].
    rewrite Pos.mul_1_r, Z2Pos.id by lia. lia.
Qed.

(** The relative error of one rounding is at most [2^-53]. *)
Lemma fl_pos_error (p q : Z) :
  0 < p -> 0 < q ->
  ((fl_pos p q * inject_Z q - inject_Z p) * c53 <= inject_Z p
   /\ (inject_Z p - fl_pos p q * inject_Z q) * c53 <= inject_Z p)%Q.
Proof.
  intros Hp Hq. unfold fl_pos, fl_sig.
  set (e := fl_exp p q).
  pose proof (fl_exp_normal p q Hp Hq) as Hnorm. fold e in Hnorm.
  destruct (scaled_pos p q e Hp Hq) as [HN HD].
  pose proof (round_half_even_near (fst (scaled p q e)) (snd (scaled p q e)) HD) as [Hup Hdn].
  set (m := round_half_even (fst (scaled p q e)) (snd (scaled p q e))) in *.
  unfold scaled in *. cbn [fst snd] in *.
  set (A := 2 ^ Z.max 0 (- e)) in *. set (B := 2 ^ Z.max 0 e) in *.
  assert (HA : 0 < A) by (apply Z.pow_pos_nonneg; lia).
  pose proof (pow2_scaled e) as HAB. fold A B in HAB.
  assert (HAq : (0 < inject_Z A)%Q).
  { change (inject_Z 0 < inject_Z A)%Q. now rewrite <- Zlt_Qlt. }
  split.
  - apply (Qmult_le_r _ _ (inject_Z A) HAq).
    assert (E : ((inject_Z m * pow2 e * inject_Z q - inject_Z p) * c53 * inject_Z A
                == inject_Z ((m * (q * B) + - (p * A)) * 2 ^ 53))%Q).
    { unfold c53. rewrite !inject_Z_mult, inject_Z_plus, inject_Z_opp, !inject_Z_mult.
      rewrite <- HAB. ring. }
    rewrite E. rewrite <- inject_Z_mult. rewrite <- Zle_Qle. nia.
  - apply (Qmult_le_r _ _ (inject_Z A) HAq).
    assert (E : ((inject_Z p - inject_Z m * pow2 e * inject_Z q) * c53 * inject_Z A
                == inject_Z ((p * A + - (m * (q * B))) * 2 ^ 53))%Q).
    { unfold c53. rewrite !inject_Z_mult, inject_Z_plus, inject_Z_opp, !inject_Z_mult.
      rewrite <- HAB. ring. }
    rewrite E. rewrite <- inject_Z_mult. rewrite <- Zle_Qle. nia.
Qed.

Lemma c53_val : c53 = (9007199254740992 # 1)%Q.
Proof. reflexivity. Qed.

Lemma inject_Z_pos (z : Z) : 0 < z -> (0 < inject_Z z)%Q.
Proof. intros H. change (inject_Z 0 < inject_Z z)%Q. now rewrite <- Zlt_Qlt. Qed.

Lemma Qnum_pos (x : Q) : (0 < x)%Q -> 0 < Qnum x.
Proof. unfold Qlt. cbn. lia. Qed.

Lemma Q_as_fraction (x : Q) : (x * inject_Z (Zpos (Qden x)) == inject_Z (Qnum x))%Q.
Proof. destruct x as [n d]. unfold Qeq, Qmult, inject_Z. cbn. lia. Qed.

(** Rounding a positive number: the error is at most [2^-53] times the
    number, and the result is positive. *)
Lemma fl_round_error (x : Q) :
  (0 < x)%Q ->
  ((fl_round x - x) * c53 <= x /\ (x - fl_round x) * c53 <= x /\ 0 < fl_round x)%Q.
Proof.
  intros Hx. pose proof (Qnum_pos x Hx) as Hn.
  pose proof (Q_as_fraction x) as Hfrac.
  unfold fl_round. destruct (Qnum x) as [|n|n] eqn:En; try lia.
  destruct (fl_pos_error (Zpos n) (Zpos (Qden x)) ltac:(lia) ltac:(lia)) as [Hup Hdn].
  set (F := fl_pos (Zpos n) (Zpos (Qden x))) in *.
  set (d := inject_Z (Zpos (Qden x))) in *.
  assert (Hd : (0 < d)%Q) by (apply inject_Z_pos; lia).
  rewrite <- Hfrac in Hup, Hdn. rewrite c53_val in *.
  assert (H1 : ((F - x) * (9007199254740992 # 1) <= x)%Q).
  { apply (Qmult_le_r _ _ d Hd).
    setoid_replace ((F - x) * (9007199254740992 # 1) * d)%Q
      with ((F * d - x * d) * (9007199254740992 # 1))%Q by ring.
    exact Hup. }
  assert (H2 : ((x - F) * (9007199254740992 # 1) <= x)%Q).
  { apply (Qmult_le_r _ _ d Hd).
    setoid_replace ((x - F) * (9007199254740992 # 1) * d)%Q
      with ((x * d - F * d) * (9007199254740992 # 1))%Q by ring.
    exact Hdn. }
  repeat split; [exact H1|exact H2|lra].
Qed.

Lemma py_int_of_float_floor (x : Q) : (0 <= x)%Q -> py_int_of_float x = Qfloor x.
Proof.
  intros Hx. unfold py_int_of_float. destruct x as [n d]. cbn.
  apply Z.quot_div_nonneg; [|lia]. unfold Qle in Hx. cbn in Hx. lia.
Qed.

Lemma Qfloor_lt (x : Q) (z : Z) : (x < inject_Z z)%Q -> Qfloor x < z.
Proof.
  intros H. rewrite Zlt_Qlt. eapply Qle_lt_trans; [apply Qfloor_le|exact H].
Qed.

Lemma Qfloor_ge (x : Q) (z : Z) : (inject_Z z <= x)%Q -> z <= Qfloor x.
Proof. intros H. rewrite <- (Qfloor_Z z). now apply Qfloor_resp_le. Qed.

(** The progress value is the exact percentage rounded down, or one less. *)
Lemma progress_percent_bounds (i total : Z) :
  0 <= i < total -> total <= 2 ^ 45 ->
  (100 * (i + 1)) / total - 1 <= progress_percent i total <= (100 * (i + 1)) / total.
Proof.
  intros Hi Htot. set (a := i + 1). set (k := (100 * a) / total).
  assert (Ha : 0 < a <= total) by (unfold a; lia).
  assert (Hb : 0 < total) by lia.
  (* the exact quotient *)
  pose proof (Z.mul_div_le (100 * a) total Hb) as Hk1.
  pose proof (Z.mul_succ_div_gt (100 * a) total Hb) as Hk2. fold k in Hk1, Hk2.
  assert (Hk0 : 0 <= k) by (apply Z.div_pos; lia).
  assert (Hk100 : k <= 100).
  { unfold k. apply Z.div_le_upper_bound; lia. }
  (* first rounding: the division *)
  unfold progress_percent. fold a.
  assert (Hx1 : (0 < a # Z.to_pos total)%Q) by (unfold Qlt; cbn; lia).
  destruct (fl_round_error _ Hx1) as (_ & _ & Hq1pos).
  unfold fl_div.
  assert (Hfl1 : fl_round (a # Z.to_pos total) = fl_pos a total).
  { unfold fl_round. cbn [Qnum Qden]. destruct a; try lia.
    now rewrite Z2Pos.id by lia. }
  rewrite Hfl1 in *.
  destruct (fl_pos_error a total ltac:(lia) Hb) as [Hup1 Hdn1].
  set (Q1 := fl_pos a total) in *.
  (* second rounding: the multiplication *)
  assert (Hx2 : (0 < Q1 * inject_Z 100)%Q).
  { apply Qmult_lt_0_compat; [exact Hq1pos|reflexivity]. }
  destruct (fl_round_error _ Hx2) as (Hup2 & Hdn2 & Hppos).
  unfold fl_mul. set (P := fl_round (Q1 * inject_Z 100)) in *.
  rewrite py_int_of_float_floor by (apply Qlt_le_weak; exact Hppos).
  (* everything times [total] *)
  set (B := inject_Z total) in *. set (A := inject_Z a) in *.
  assert (HB : (0 < B)%Q) by (apply inject_Z_pos; exact Hb).
  rewrite c53_val in *. change (inject_Z 100) with (100 # 1)%Q in *.
  assert (Hup2' : ((P * B - Q1 * B * (100 # 1)) * (9007199254740992 # 1)
                   <= Q1 * B * (100 # 1))%Q).
  { setoid_replace ((P * B - Q1 * B * (100 # 1)) * (9007199254740992 # 1))%Q
      with ((P - Q1 * (100 # 1)) * (9007199254740992 # 1) * B)%Q by ring.
    setoid_replace (Q1 * B * (100 # 1))%Q with (Q1 * (100 # 1) * B)%Q by ring.
    apply Qmult_le_compat_r; [exact Hup2|apply Qlt_le_weak; exact HB]. }
  assert (Hdn2' : ((Q1 * B * (100 # 1) - P * B) * (9007199254740992 # 1)
                   <= Q1 * B * (100 # 1))%Q).
  { setoid_replace ((Q1 * B * (100 # 1) - P * B) * (9007199254740992 # 1))%Q
      with ((Q1 * (100 # 1) - P) * (9007199254740992 # 1) * B)%Q by ring.
    setoid_replace (Q1 * B * (100 # 1))%Q with (Q1 * (100 # 1) * B)%Q by ring.
    apply Qmult_le_compat_r; [exact Hdn2|apply Qlt_le_weak; exact HB]. }
  (* integer facts, as rationals *)
  set (W := (k + 1) * total). set (V := total * k).
  assert (HW : W <= 101 * 2 ^ 45) by (unfold W; nia).
  assert (HaW : 100 * a <= W - 1) by (unfold W; lia).
  assert (HVa : V <= 100 * a) by (unfold V; lia).
  assert (HV100 : V <= 100 * total) by (unfold V; nia).
  assert (HV0 : 0 <= V) by (unfold V; nia).
  assert (HWq : (inject_Z W <= 3553621580972032 # 1)%Q).
  { rewrite Zle_Qle in HW. exact HW. }
  assert (HaWq : ((100 # 1) * A <= inject_Z W - 1)%Q).
  { rewrite Zle_Qle in HaW. unfold Z.sub in HaW.
    rewrite inject_Z_mult, inject_Z_plus, inject_Z_opp in HaW. exact HaW. }
  assert (HVaq : (inject_Z V <= (100 # 1) * A)%Q).
  { rewrite Zle_Qle in HVa. rewrite inject_Z_mult in HVa. exact HVa. }
  assert (HV100q : (inject_Z V <= (100 # 1) * B)%Q).
  { rewrite Zle_Qle in HV100. rewrite inject_Z_mult in HV100. exact HV100. }
  assert (HV0q : (0 <= inject_Z V)%Q).
  { rewrite Zle_Qle in HV0. exact HV0. }
  split.
  - (* k - 1 <= floor P *)
    apply Qfloor_ge. apply (Qmult_le_r _ _ B HB).
    assert (E : (inject_Z (k - 1) * B == inject_Z V - B)%Q).
    { unfold V, B, Z.sub. rewrite !inject_Z_mult, !inject_Z_plus, inject_Z_opp.
      change (inject_Z 1) with 1%Q. ring. }
    rewrite E. lra.
  - (* floor P <= k *)
    apply Z.lt_succ_r. apply Qfloor_lt. apply (Qmult_lt_r _ _ B HB).
    assert (E : (inject_Z (Z.succ k) * B == inject_Z W)%Q).
    { unfold W, B. rewrite <- Z.add_1_r. rewrite !inject_Z_mult. reflexivity. }
    rewrite E. lra.
Qed.

(** The significand has 53 bits, or is [2^53] after rounding up. *)
Lemma fl_sig_range (p q : Z) :
  0 < p -> 0 < q -> 2 ^ 52 <= fl_sig p q <= 2 ^ 53.
Proof.
  intros Hp Hq.
  pose proof (fl_exp_normal p q Hp Hq) as Hlow.
  assert (Hhigh : fst (scaled p q (fl_exp p q)) < 2 ^ 53 * snd (scaled p q (fl_exp p q))).
  { unfold fl_exp. set (e0 := Z.log2 p - Z.log2 q - 52).
    pose proof (log2_bounds p Hp) as [_ Hp2].
    pose proof (log2_bounds q Hq) as [Hq1 _].
    pose proof (Z.log2_nonneg p) as Hlp. pose proof (Z.log2_nonneg q) as Hlq.
    destruct (scaled_pos p q e0 Hp Hq) as [HN0 HD0].
    destruct (Z.ltb_spec (fst (scaled p q e0) / snd (scaled p q e0)) (2 ^ 52)) as [Hlt|Hge].
    - assert (Hlt' : fst (scaled p q e0) < 2 ^ 52 * snd (scaled p q e0)).
      { pose proof (Z.mul_succ_div_gt (fst (scaled p q e0)) (snd (scaled p q e0)) HD0).
        nia. }
      unfold scaled in *. cbn [fst snd] in *.
      destruct (Z.lt_ge_cases 0 e0) as [Hpos|Hneg].
      + rewrite (Z.max_l 0 (- (e0 - 1))) by lia. rewrite (Z.max_r 0 (e0 - 1)) by lia.
        rewrite (Z.max_l 0 (- e0)) in Hlt' by lia. rewrite (Z.max_r 0 e0) in Hlt' by lia.
        assert (E : 2 ^ e0 = 2 * 2 ^ (e0 - 1)).
        { rewrite <- Z.pow_succ_r by lia. f_equal. lia. }
        rewrite E in Hlt'. lia.
      + rewrite (Z.max_r 0 (- (e0 - 1))) by lia. rewrite (Z.max_l 0 (e0 - 1)) by lia.
        rewrite (Z.max_r 0 (- e0)) in Hlt' by lia. rewrite (Z.max_l 0 e0) in Hlt' by lia.
        assert (E : 2 ^ (- (e0 - 1)) = 2 * 2 ^ (- e0)).
        { rewrite <- Z.pow_succ_r by lia. f_equal. lia. }
        rewrite E. lia.
    - unfold scaled. cbn [fst snd].
      destruct (Z.le_ge_cases 0 e0) as [Hpos|Hneg].
      + rewrite (Z.max_l 0 (- e0)) by lia. rewrite (Z.max_r 0 e0) by lia.
        rewrite Z.pow_0_r, Z.mul_1_r.
        assert (E : 2 ^ 53 * 2 ^ Z.log2 q * 2 ^ e0 = 2 ^ (Z.log2 p + 1)).
        { rewrite <- !Z.pow_add_r by lia. f_equal. unfold e0. lia. }
        assert (0 < 2 ^ e0) by (apply Z.pow_pos_nonneg; lia).
        nia.
      + rewrite (Z.max_r 0 (- e0)) by lia. rewrite (Z.max_l 0 e0) by lia.
        rewrite Z.pow_0_r, Z.mul_1_r.
        assert (E : 2 ^ (Z.log2 p + 1) * 2 ^ (- e0) = 2 ^ 53 * 2 ^ Z.log2 q).
        { rewrite <- !Z.pow_add_r by lia. f_equal. unfold e0. lia. }
        assert (0 < 2 ^ (- e0)) by (apply Z.pow_pos_nonneg; lia).
        nia. }
  destruct (scaled_pos p q (fl_exp p q) Hp Hq) as [HN HD].
  unfold fl_sig.
  set (N := fst (scaled p q (fl_exp p q))) in *.
  set (D := snd (scaled p q (fl_exp p q))) in *.
  assert (Hd1 : 2 ^ 52 <= N / D) by (apply Z.div_le_lower_bound; lia).
  assert (Hd2 : N / D < 2 ^ 53) by (apply Z.div_lt_upper_bound; lia).
  unfold round_half_even.
  destruct (2 * (N mod D) <? D); [lia|].
  destruct (D <? 2 * (N mod D)); [lia|].
  destruct (Z.even (N / D)); lia.
Qed.

(** [n / n] is [1.0]. *)
Lemma fl_pos_same (a : Z) : 0 < a -> fl_pos a a = (inject_Z (2 ^ 52) * pow2 (- 52))%Q.
Proof.
  intros Ha.
  assert (Hdiv : (a * 2 ^ 52) / (a * 1) = 2 ^ 52).
  { rewrite Z.mul_1_r, Z.mul_comm. apply Z.div_mul. lia. }
  assert (Hmod : (a * 2 ^ 52) mod (a * 1) = 0).
  { rewrite Z.mul_1_r, Z.mul_comm. apply Z.mod_mul. lia. }
  assert (He : fl_exp a a = - 52).
  { unfold fl_exp. rewrite Z.sub_diag. cbn [Z.sub Z.add Z.opp].
    unfold scaled. cbn [fst snd Z.max Z.compare Z.opp].
    change (Z.max 0 52) with 52. change (Z.max 0 (-52)) with 0.
    rewrite Z.pow_0_r, Hdiv. reflexivity. }
  unfold fl_pos, fl_sig. rewrite He. f_equal. f_equal.
  unfold scaled, round_half_even. cbn [fst snd].
  change (Z.max 0 (- -52)) with 52. change (Z.max 0 (-52)) with 0.
  rewrite Z.pow_0_r, Hdiv, Hmod.
  destruct (Z.ltb_spec (2 * 0) (a * 1)); [reflexivity|lia].
Qed.

(** The last record gives 100. *)
Lemma progress_percent_last (total : Z) :
  0 < total -> progress_percent (total - 1) total = 100.
Proof.
  intros Ht. unfold progress_percent, fl_div.
  replace (total - 1 + 1) with total by lia.
  assert (Hfl : fl_round (total # Z.to_pos total) = fl_pos total total).
  { unfold fl_round. cbn [Qnum Qden]. destruct total; try lia. reflexivity. }
  rewrite Hfl, (fl_pos_same total Ht). vm_compute. reflexivity.
Qed.

(** The value of the specification is a nearest integer. *)
Lemma spec_progress_nearest (i total : Z) :
  0 < total ->
  2 * Z.abs (spec_progress i total * total - 100 * (i + 1)) <= total.
Proof.
  intros Ht. unfold spec_progress.
  destruct (round_half_even_near (100 * (i + 1)) total Ht) as [Hup Hdn]. lia.
Qed.

(** C7, as stated, fails: after the second of three records the engine
    emits 66, and the nearest integer to [200 / 3] is 67. *)
Lemma progress_not_rounded_counterexample :
  0 <= 1 < 3
  /\ progress_percent 1 3 = 66
  /\ spec_progress 1 3 = 67
  /\ progress_percent 1 3 <> spec_progress 1 3
  /\ In (Progress 66)
        (trace (snd (run Fixtures.bad_address V1_2 Fixtures.worker 2 (init_store Absent)))).
Proof.
  split; [lia|]. split; [vm_compute; reflexivity|]. split; [vm_compute; reflexivity|].
  split; [vm_compute; discriminate|].
  vm_compute. repeat first [left; reflexivity | right].
Qed.

(** C7, amended. After every finalized record at index [i] the iteration
    emits [int(((i + 1) / total) * 100)], followed only by the waiting log
    line and the delay.  For [0 <= i < total <= 2^45] that value is the exact
    percentage [100 * (i + 1) / total] rounded down, or one less than that
    (the double-precision product can fall just below an integer); it lies
    between 0 and 100, and it is 100 for the last record. *)
Theorem progress_is_truncated (env : Env) (v : Variant) (self : Worker) (fuel : nat)
    (total start_index i : Z) (row : Row) (s s1 : Store) :
  0 <= i < total -> total <= 2 ^ 45 ->
  skipped v start_index i = false ->
  loop_body env v self fuel total start_index i row s = (Val Continue, s1) ->
  (exists before,
      trace s1 = before ++ [Progress (progress_percent i total);
                            Log ("Waiting for " ++ delay_str self
                                 ++ " seconds before next email..." ++ nl)%string;
                            Sleep (delay self)])
  /\ (100 * (i + 1)) / total - 1 <= progress_percent i total <= (100 * (i + 1)) / total
  /\ 0 <= progress_percent i total <= 100
  /\ (i + 1 = total -> progress_percent i total = 100).
Proof.
  intros Hi Htot Hskip Hbody.
  pose proof (progress_percent_bounds i total Hi Htot) as Hb.
  split; [|split; [exact Hb|split]].
  - apply loop_body_spec in Hbody. unfold body_post in Hbody. rewrite Hskip in Hbody.
    destruct Hbody as (rest & Ht & _ & [(_ & _ & _ & [Hr|[Hr _]])|(_ & _ & _ & _ & Hshape)]);
      [discriminate Hr|discriminate Hr|].
    destruct Hshape as (pre & mid & -> & _).
    unfold closing_events in Ht.
    exists (trace s ++ pre ++ Render i (html_file row) :: sending_log v i row
              :: mid ++ match v with V1_2 => [CheckpointWrite (i + 1)] | V1 => [] end).
    rewrite Ht. rewrite <- !app_assoc. cbn [app]. rewrite <- !app_assoc. reflexivity.
  - assert (Hk : (100 * (i + 1)) / total <= 100)
      by (apply Z.div_le_upper_bound; lia).
    split; [|lia].
    destruct (Z.eq_dec (i + 1) total) as [E|Hne].
    + replace i with (total - 1) by lia. rewrite progress_percent_last; lia.
    + assert (0 <= (100 * (i + 1)) / total) by (apply Z.div_pos; lia).
      destruct (Z.eq_dec ((100 * (i + 1)) / total) 0) as [E0|]; [|lia].
      unfold progress_percent. unfold py_int_of_float.
      apply Z.quot_pos; [|lia].
      assert (Hx1 : (0 < (i + 1) # Z.to_pos total)%Q) by (unfold Qlt; cbn; lia).
      destruct (fl_round_error _ Hx1) as (_ & _ & Hq1).
      assert (Hx2 : (0 < fl_div (i + 1) total * inject_Z 100)%Q).
      { apply Qmult_lt_0_compat; [exact Hq1|reflexivity]. }
      destruct (fl_round_error _ Hx2) as (_ & _ & Hp).
      apply Qnum_pos in Hp. unfold fl_mul. lia.
  - intros E. replace i with (total - 1) by lia. apply progress_percent_last. lia.
Qed.

Lemma progress_is_truncated_witness :
  let row := Fixtures.contact "b@example.org" in
  let s := snd (loop_body Fixtures.bad_address V1_2 Fixtures.worker 1 3 0 0
                  (Fixtures.contact "a@example.org") (init_store Absent)) in
  let s1 := snd (loop_body Fixtures.bad_address V1_2 Fixtures.worker 1 3 0 1 row s) in
  (exists before,
      trace s1 = before ++ [Progress (progress_percent 1 3);
                            Log ("Waiting for 1.0 seconds before next email..." ++ nl)%string;
                            Sleep 1])
  /\ 66 - 1 <= progress_percent 1 3 <= 66.
Proof.
  intros row s s1.
  destruct (progress_is_truncated Fixtures.bad_address V1_2 Fixtures.worker 1 3 0 1 row s s1)
    as (Hlast & Hbounds & _).
  - lia.
  - vm_compute. discriminate.
  - reflexivity.
  - vm_compute. reflexivity.
  - split; [exact Hlast|exact Hbounds].
Defined.


(** * Further properties of the code *)

(** ** The checkpoint file *)

(** X1. A checkpoint that was saved is the checkpoint that is loaded:
    once [save_checkpoint(n)] has returned, for an integer [n] of at most
    [MAX_STR_DIGITS] digits (the integers that [str] converts),
    [load_checkpoint()] returns [n].  (The file a completed write leaves is
    one the process can read back: [Content].) *)
Theorem checkpoint_round_trip (env : Env) (n : Z) (s : Store) :
  Z.abs n < 10 ^ MAX_STR_DIGITS ->
  fst (save_checkpoint env n s) = Val tt ->
  load_checkpoint (snd (save_checkpoint env n s))
  = (Val n, snd (save_checkpoint env n s)).
Proof.
  intros _. unfold save_checkpoint, bind, tick, emit, set_cp_file, raise. cbn.
  destruct (cp_write_at env (clock s)); cbn; [discriminate|]. intros _.
  unfold load_checkpoint. cbn. now rewrite strip_py_str, py_int_py_str.
Qed.

Lemma checkpoint_round_trip_witness :
  load_checkpoint (snd (save_checkpoint Fixtures.bad_address (-42) (init_store Absent)))
  = (Val (-42), snd (save_checkpoint Fixtures.bad_address (-42) (init_store Absent))).
Proof.
  apply (checkpoint_round_trip Fixtures.bad_address (-42) (init_store Absent)).
  - vm_compute. reflexivity.
  - reflexivity.
Defined.

(** ** Sources that are rejected *)

Lemma find_first {A : Type} (f : A -> bool) (l : list A) (x : A) :
  find f l = Some x ->
  exists l1 l2, l = l1 ++ x :: l2 /\ f x = true /\ forall y, In y l1 -> f y = false.
Proof.
  induction l as [|a l IH]; [discriminate|]. cbn [find].
  destruct (f a) eqn:Ea.
  - intros E. inversion E; subst. exists [], l. repeat split; auto. intros y [].
  - intros E. destruct (IH E) as (l1 & l2 & -> & Hx & Hl1).
    exists (a :: l1), l2. repeat split; auto.
    intros y [<-|Hy]; auto.
Qed.

Lemma has_column (col : string) (cols : list string) :
  existsb (String.eqb col) cols = true <-> In col cols.
Proof.
  rewrite existsb_exists. split.
  - intros (x & Hx & E). apply String.eqb_eq in E. now subst.
  - intros H. exists col. split; [exact H|apply String.eqb_refl].
Qed.

Lemma lacks_column (col : string) (cols : list string) :
  negb (existsb (String.eqb col) cols) = true <-> ~ In col cols.
Proof.
  rewrite negb_true_iff, <- has_column.
  destruct (existsb (String.eqb col) cols); split; congruence.
Qed.

(** The columns are accepted exactly when every required column is there. *)
Lemma missing_column_none (cols : list string) :
  missing_column cols = None <-> forall col, In col required_columns -> In col cols.
Proof.
  unfold missing_column. split.
  - intros Hnone col Hin.
    pose proof (find_none _ _ Hnone col Hin) as H. cbn beta in H.
    apply negb_false_iff in H. now apply has_column.
  - intros Hall. destruct (find _ required_columns) as [col|] eqn:E; [|reflexivity].
    apply find_some in E as [Hin Hlack]. apply lacks_column in Hlack.
    now destruct (Hlack (Hall col Hin)).
Qed.

(** The three ways [run] can go. *)
Lemma run_cases (env : Env) (v : Variant) (self : Worker) (fuel : nat) (fs : FileState) :
  (exists msg,
      run env v self fuel (init_store fs)
      = (Val tt, {| clock := O; trace := [Log msg; Finished]; cp_file := fs;
                    sent_count := 0; failed_emails := [] |}))
  \/ (exists n err,
        v = V1_2 /\ fs = Unopenable err
        /\ run env v self fuel (init_store fs)
           = (Raise err, {| clock := O; trace := [TotalContacts n]; cp_file := fs;
                            sent_count := 0; failed_emails := [] |}))
  \/ (exists df,
        read_excel env (excel_file self) = inr df
        /\ missing_column (columns df) = None
        /\ (v = V1 \/ forall e, fs <> Unopenable e)
        /\ let n := Z.of_nat (List.length (rows df)) in
           run env v self fuel (init_store fs)
           = match for_rows env v self fuel n (start_of v fs) 0 (rows df)
                     (loop_start v n fs) with
             | (Val _, s2) => (Val tt, finish env s2)
             | (Raise e, s2) => (Raise e, s2)
             | (OutOfFuel, s2) => (OutOfFuel, s2)
             end).
Proof.
  destruct (read_excel env (excel_file self)) as [err|df] eqn:Hread.
  { left. unfold run. rewrite Hread. eexists. reflexivity. }
  destruct (missing_column (columns df)) as [col|] eqn:Hcols.
  { left. unfold run. rewrite Hread, Hcols. eexists. reflexivity. }
  right.
  assert (Hcase : (v = V1_2 /\ exists e, fs = Unopenable e)
                  \/ (v = V1 \/ forall e, fs <> Unopenable e)).
  { destruct v; [right; now left|].
    destruct (unopenable_dec fs) as [He|Hne]; [left|right]; auto. }
  destruct Hcase as [(-> & e & ->)|Hopen].
  - left. exists (Z.of_nat (List.length (rows df))), e. do 2 (split; [reflexivity|]).
    apply (run_unopenable _ _ _ _ _ Hread Hcols).
  - right. exists df. repeat split; auto.
    apply (run_shape env v self fuel fs df Hread Hcols Hopen).
Qed.

(** A run on an accepted source starts by announcing the total. *)
Lemma run_announces_total (env : Env) (v : Variant) (self : Worker) (fuel : nat)
    (fs : FileState) (df : DataFrame) :
  read_excel env (excel_file self) = inr df ->
  missing_column (columns df) = None ->
  exists rest,
    trace (snd (run env v self fuel (init_store fs)))
    = TotalContacts (Z.of_nat (List.length (rows df))) :: rest.
Proof.
  intros Hread Hcols.
  assert (Hcase : (v = V1_2 /\ exists e, fs = Unopenable e)
                  \/ (v = V1 \/ forall e, fs <> Unopenable e)).
  { destruct v; [right; now left|].
    destruct (unopenable_dec fs) as [He|Hne]; [left|right]; auto. }
  destruct Hcase as [(-> & e & ->)|Hopen].
  { rewrite (run_unopenable _ _ _ _ _ Hread Hcols). now exists []. }
  rewrite (run_shape env v self fuel fs df Hread Hcols Hopen). cbn zeta.
  destruct (for_rows env v self fuel _ (start_of v fs) 0 (rows df) _) as [r2 s2] eqn:E.
  apply for_rows_spec in E. destruct E as (rest & Ht & _).
  cbn [loop_start trace] in Ht.
  destruct r2 as [[]|e2|]; cbn [snd]; unfold finish; cbn [trace]; rewrite Ht;
    eexists; cbn [app]; reflexivity.
Qed.

(** X2. A source that cannot be read, or that lacks a required column,
    ends the run at once: the only events are one log line and the completion
    signal; the total is not announced, the checkpoint is not read (not even
    one that cannot be opened) and no record is touched.  The column named
    in the log is the first required column, in the order
    [from_email, password, sal, signature, to_email, subject, html_file],
    that the sheet lacks.  A sheet that has all seven is accepted, in
    whatever order and with whatever other columns: the run then starts by
    announcing the number of rows. *)
Theorem run_rejects_bad_source (env : Env) (v : Variant) (self : Worker) (fuel : nat)
    (fs : FileState) :
  (forall err,
      read_excel env (excel_file self) = inl err ->
      run env v self fuel (init_store fs)
      = (Val tt,
         {| clock := O;
            trace := [Log ("Error reading Excel file: " ++ err)%string; Finished];
            cp_file := fs; sent_count := 0; failed_emails := [] |}))
  /\ (forall df,
        read_excel env (excel_file self) = inr df ->
        (exists col, In col required_columns /\ ~ In col (columns df)) ->
        exists before col after,
          required_columns = before ++ col :: after
          /\ (forall c, In c before -> In c (columns df))
          /\ ~ In col (columns df)
          /\ run env v self fuel (init_store fs)
             = (Val tt,
                {| clock := O;
                   trace := [Log ("Missing required column: " ++ col)%string; Finished];
                   cp_file := fs; sent_count := 0; failed_emails := [] |}))
  /\ (forall df,
        read_excel env (excel_file self) = inr df ->
        (forall col, In col required_columns -> In col (columns df)) ->
        exists rest,
          trace (snd (run env v self fuel (init_store fs)))
          = TotalContacts (Z.of_nat (List.length (rows df))) :: rest).
Proof.
  split; [|split].
  - intros err Hread. unfold run. rewrite Hread. reflexivity.
  - intros df Hread (c & Hc & Hlack).
    destruct (missing_column (columns df)) as [col|] eqn:E.
    + pose proof E as E'. unfold missing_column in E'.
      apply find_first in E' as (before & after & Hsplit & Hcol & Hbefore).
      exists before, col, after. split; [exact Hsplit|]. split; [|split].
      * intros c' Hc'. apply Hbefore in Hc'. apply negb_false_iff in Hc'.
        now apply has_column.
      * now apply lacks_column.
      * unfold run. rewrite Hread, E. reflexivity.
    + rewrite missing_column_none in E. now destruct (Hlack (E c Hc)).
  - intros df Hread Hall. apply run_announces_total; [exact Hread|].
    now apply missing_column_none.
Qed.

Lemma run_rejects_bad_source_witness :
  run Scenarios.no_source V1_2 Fixtures.worker 2 (init_store Absent)
  = (Val tt,
     {| clock := O;
        trace := [Log "Error reading Excel file: [Errno 2] No such file or directory: 'contacts.xlsx'";
                  Finished];
        cp_file := Absent; sent_count := 0; failed_emails := [] |})
  /\ exists before col after,
       required_columns = before ++ col :: after
       /\ (forall c, In c before -> In c (columns Scenarios.short_sheet))
       /\ ~ In col (columns Scenarios.short_sheet)
       /\ run Scenarios.bad_schema V1_2 Fixtures.worker 2 (init_store (Unopenable "denied"))
          = (Val tt,
             {| clock := O;
                trace := [Log ("Missing required column: " ++ col)%string; Finished];
                cp_file := Unopenable "denied"; sent_count := 0; failed_emails := [] |}).
Proof.
  split.
  - destruct (run_rejects_bad_source Scenarios.no_source V1_2 Fixtures.worker 2 Absent)
      as (Hread & _).
    apply Hread. reflexivity.
  - destruct (run_rejects_bad_source Scenarios.bad_schema V1_2 Fixtures.worker 2
                (Unopenable "denied")) as (_ & Hcols & _).
    apply (Hcols Scenarios.short_sheet eq_refl).
    exists "sal"%string. split; [cbn; auto|].
    cbn. intros H. repeat (destruct H as [H|H]; [discriminate H|]). exact H.
Defined.

(** ** The completion signal and the failure report *)

Lemma count_finished_app (a b : list Event) :
  count_finished (a ++ b) = (count_finished a + count_finished b)%nat.
Proof.
  induction a as [|e a IH]; [reflexivity|]. destruct e; cbn; rewrite IH; reflexivity.
Qed.

Lemma reports_app (a b : list Event) : reports (a ++ b) = reports a ++ reports b.
Proof.
  induction a as [|e a IH]; [reflexivity|]. destruct e; cbn; rewrite IH; reflexivity.
Qed.

(** The loop over the rows emits neither the completion signal nor a
    report. *)
Lemma rows_from_no_end (lo : Z) (tr : list Event) :
  Forall (rows_from lo) tr -> count_finished tr = O /\ reports tr = [].
Proof.
  induction 1 as [|e tr He _ [IH1 IH2]]; [split; reflexivity|].
  destruct e; cbn in *; try contradiction; auto.
Qed.

(** The events of a run up to the end of its loop. *)
Lemma run_loop_events (env : Env) (v : Variant) (self : Worker) (fuel : nat)
    (fs : FileState) (df : DataFrame) :
  read_excel env (excel_file self) = inr df ->
  missing_column (columns df) = None ->
  (v = V1 \/ forall e, fs <> Unopenable e) ->
  let n := Z.of_nat (List.length (rows df)) in
  let res := for_rows env v self fuel n (start_of v fs) 0 (rows df) (loop_start v n fs) in
  count_finished (trace (snd res)) = O /\ reports (trace (snd res)) = []
  /\ run env v self fuel (init_store fs)
     = match fst res with
       | Val _ => (Val tt, finish env (snd res))
       | Raise e => (Raise e, snd res)
       | OutOfFuel => (OutOfFuel, snd res)
       end.
Proof.
  intros Hread Hcols Hopen n res.
  pose proof (run_shape env v self fuel fs df Hread Hcols Hopen) as Hrun.
  cbn zeta in Hrun. fold n in Hrun. fold res in Hrun.
  destruct res as [r2 s2] eqn:Eres. unfold res in Eres.
  apply for_rows_spec in Eres. destruct Eres as (rest & Ht & Hrows & _).
  apply rows_from_no_end in Hrows as [Hf Hr].
  cbn [fst snd]. rewrite Ht, count_finished_app, reports_app, Hf, Hr.
  split; [destruct v; reflexivity|]. split; [destruct v; reflexivity|].
  rewrite Hrun. destruct r2 as [[]|e|]; reflexivity.
Qed.

(** X3. The completion signal is emitted exactly when [run] returns, then
    exactly once and as the last event; a run that ends by an exception, or
    that is still in one of its loops, has not emitted it. *)
Theorem finished_signal_once (env : Env) (v : Variant) (self : Worker) (fuel : nat)
    (fs : FileState) :
  let r := fst (run env v self fuel (init_store fs)) in
  let s' := snd (run env v self fuel (init_store fs)) in
  (r = Val tt ->
   exists before, trace s' = before ++ [Finished] /\ count_finished before = O)
  /\ (r <> Val tt -> count_finished (trace s') = O).
Proof.
  intros r s'. subst r s'.
  destruct (read_excel env (excel_file self)) as [err|df] eqn:Hread.
  { unfold run. rewrite Hread. cbn. split; [|congruence].
    intros _. eexists [_]. split; reflexivity. }
  destruct (missing_column (columns df)) as [col|] eqn:Hcols.
  { unfold run. rewrite Hread, Hcols. cbn. split; [|congruence].
    intros _. eexists [_]. split; reflexivity. }
  assert (Hcase : (v = V1_2 /\ exists e, fs = Unopenable e)
                  \/ (v = V1 \/ forall e, fs <> Unopenable e)).
  { destruct v; [right; now left|].
    destruct (unopenable_dec fs) as [He|Hne]; [left|right]; auto. }
  destruct Hcase as [(-> & e & ->)|Hopen].
  { rewrite (run_unopenable _ _ _ _ _ Hread Hcols). cbn. split; [discriminate|reflexivity]. }
  destruct (run_loop_events env v self fuel fs df Hread Hcols Hopen) as (Hf & _ & ->).
  destruct (for_rows env v self fuel _ (start_of v fs) 0 (rows df) _) as [[[]|e|] s2];
    cbn [fst snd] in *.
  - split; [|congruence]. intros _. unfold finish. cbn [trace].
    exists (trace s2 ++ report_events env s2 ++ [Log ("Finished sending emails." ++ nl)%string]).
    split; [rewrite <- !app_assoc; reflexivity|].
    rewrite !count_finished_app, Hf. unfold report_events.
    destruct (failed_emails s2); [reflexivity|].
    destruct (to_excel_at env (clock s2)); reflexivity.
  - split; [discriminate|]. intros _. exact Hf.
  - split; [discriminate|]. intros _. exact Hf.
Qed.

(** X4. The failure report is written at most once, at the end of a run
    that returns, and exactly when failures were recorded; it then holds the
    whole failure list, in the order of recording.  An error of the write
    only changes the log line that follows: the run returns all the same. *)
Theorem failure_report_once (env : Env) (v : Variant) (self : Worker) (fuel : nat)
    (fs : FileState) (df : DataFrame) :
  read_excel env (excel_file self) = inr df ->
  missing_column (columns df) = None ->
  let r := fst (run env v self fuel (init_store fs)) in
  let s' := snd (run env v self fuel (init_store fs)) in
  reports (trace s')
  = match r, failed_emails s' with
    | Val _, _ :: _ => [failed_emails s']
    | _, _ => []
    end
  /\ (r = Val tt -> failed_emails s' <> [] ->
      exists before t,
        trace s' = before
                   ++ [ReportWrite (failed_emails s');
                       match to_excel_at env t with
                       | None => Log ("Failure report saved to " ++ REPORT_FILENAME)%string
                       | Some report_err =>
                           Log ("Error saving failure report: " ++ report_err)%string
                       end;
                       Log ("Finished sending emails." ++ nl)%string;
                       Finished]).
Proof.
  intros Hread Hcols r s'. subst r s'.
  assert (Hcase : (v = V1_2 /\ exists e, fs = Unopenable e)
                  \/ (v = V1 \/ forall e, fs <> Unopenable e)).
  { destruct v; [right; now left|].
    destruct (unopenable_dec fs) as [He|Hne]; [left|right]; auto. }
  destruct Hcase as [(-> & e & ->)|Hopen].
  { rewrite (run_unopenable _ _ _ _ _ Hread Hcols). cbn. split; [reflexivity|discriminate]. }
  destruct (run_loop_events env v self fuel fs df Hread Hcols Hopen) as (_ & Hr & ->).
  destruct (for_rows env v self fuel _ (start_of v fs) 0 (rows df) _) as [[[]|e|] s2];
    cbn [fst snd] in *.
  - unfold finish. cbn [trace failed_emails]. rewrite !reports_app, Hr.
    unfold report_events. destruct (failed_emails s2) as [|fe l] eqn:El.
    + split; [reflexivity|]. intros _ H. now destruct H.
    + split.
      * destruct (to_excel_at env (clock s2)); reflexivity.
      * intros _ _. exists (trace s2), (clock s2). reflexivity.
  - split; [|discriminate]. rewrite Hr. now destruct (failed_emails s2).
  - split; [|discriminate]. rewrite Hr. now destruct (failed_emails s2).
Qed.

Lemma failure_report_once_witness :
  let s' := snd (run Scenarios.no_report V1_2 Fixtures.worker 2 (init_store Absent)) in
  fst (run Scenarios.no_report V1_2 Fixtures.worker 2 (init_store Absent)) = Val tt
  /\ reports (trace s')
     = [[failure_entry "me@example.org" "b@example.org" "Hello" "bad address"]].
Proof.
  destruct (failure_report_once Scenarios.no_report V1_2 Fixtures.worker 2 Absent
              Fixtures.contacts eq_refl eq_refl) as (Hrep & _).
  split; [vm_compute; reflexivity|]. rewrite Hrep. vm_compute. reflexivity.
Defined.

(** ** The waiting loops: what they do exactly *)

(** X5. The pause loop polls the flag, sleeps a tenth of a second after
    each poll that finds it set, and returns at the first poll that finds it
    clear: when the flag is set at the first [k] polls and clear at the next
    one, the loop returns after exactly [k] sleeps, and nothing but the
    clock and these sleeps distinguishes the store it leaves; a loop cut
    after [k] rounds or fewer is still waiting. *)
Theorem wait_while_paused_resumes (env : Env) (k fuel : nat) (s : Store) :
  (forall j, (j < k)%nat -> pause_at env (clock s + 2 * j)%nat = true) ->
  pause_at env (clock s + 2 * k)%nat = false ->
  wait_while_paused env fuel s
  = if Nat.ltb k fuel
    then (Val tt, after_polls (repeat (Sleep (1 # 10)) k) (2 * k + 1) s)
    else (OutOfFuel, after_polls (repeat (Sleep (1 # 10)) fuel) (2 * fuel) s).
Proof.
  intros Hp Hclear. destruct (Nat.ltb_spec k fuel) as [Hlt|Hge].
  - replace fuel with (k + S (fuel - S k))%nat by lia.
    rewrite (wait_while_paused_rounds env k _ s Hp).
    rewrite wait_not_paused by exact Hclear.
    unfold tick, after_polls. cbn. f_equal. f_equal. lia.
  - replace fuel with (fuel + 0)%nat at 1 by lia.
    rewrite (wait_while_paused_rounds env fuel 0 s); [reflexivity|].
    intros j Hj. apply Hp. lia.
Qed.

Lemma wait_while_paused_resumes_witness :
  wait_while_paused Scenarios.paused_three_polls 5 (init_store Absent)
  = (Val tt,
     {| clock := 7; trace := [Sleep (1 # 10); Sleep (1 # 10); Sleep (1 # 10)];
        cp_file := Absent; sent_count := 0; failed_emails := [] |}).
Proof.
  rewrite (wait_while_paused_resumes Scenarios.paused_three_polls 3 5 (init_store Absent)).
  - reflexivity.
  - intros j Hj. cbn. destruct j as [|[|[|j]]]; [reflexivity|reflexivity|reflexivity|lia].
  - reflexivity.
Defined.

(** X6. The outage loop probes the network and sleeps five seconds after
    each probe that fails: when the first [k] probes fail and the next one
    succeeds, the loop returns after [k + 1] probes and exactly [k] sleeps of
    five seconds, and changes nothing else; a loop cut after [k] rounds or
    fewer is still waiting. *)
Theorem wait_for_network_returns (env : Env) (k fuel : nat) (s : Store) :
  (forall j, (j < k)%nat -> network_at env (clock s + 2 * j)%nat = false) ->
  network_at env (clock s + 2 * k)%nat = true ->
  wait_for_network env fuel s
  = if Nat.ltb k fuel
    then (Val tt,
          after_polls (List.concat (repeat [Probe; Sleep 5] k) ++ [Probe]) (2 * k + 1) s)
    else (OutOfFuel, after_polls (List.concat (repeat [Probe; Sleep 5] fuel)) (2 * fuel) s).
Proof.
  intros Hp Hup. destruct (Nat.ltb_spec k fuel) as [Hlt|Hge].
  - replace fuel with (k + S (fuel - S k))%nat by lia.
    rewrite (wait_for_network_rounds env k _ s Hp).
    rewrite wait_for_network_S.
    unfold check_network, bind, emit, tick, ret.
    cbn [after_polls clock trace cp_file sent_count failed_emails fst snd].
    rewrite Hup. unfold after_polls. cbn. rewrite <- app_assoc. do 2 f_equal. lia.
  - replace fuel with (fuel + 0)%nat at 1 by lia.
    rewrite (wait_for_network_rounds env fuel 0 s); [reflexivity|].
    intros j Hj. apply Hp. lia.
Qed.

Lemma wait_for_network_returns_witness :
  wait_for_network Scenarios.back_at_third_probe 3 (init_store Absent)
  = (Val tt,
     {| clock := 5; trace := [Probe; Sleep 5; Probe; Sleep 5; Probe];
        cp_file := Absent; sent_count := 0; failed_emails := [] |}).
Proof.
  rewrite (wait_for_network_returns Scenarios.back_at_third_probe 2 3 (init_store Absent)).
  - reflexivity.
  - intros j Hj. cbn. destruct j as [|[|j]]; [reflexivity|reflexivity|lia].
  - reflexivity.
Defined.

Lemma wait_while_paused_stuck (env : Env) (fuel : nat) (s : Store) :
  (forall t, (clock s <= t)%nat -> pause_at env t = true) ->
  wait_while_paused env fuel s
  = (OutOfFuel, after_polls (repeat (Sleep (1 # 10)) fuel) (2 * fuel) s).
Proof.
  intros Hp. replace fuel with (fuel + 0)%nat at 1 by lia.
  rewrite (wait_while_paused_rounds env fuel 0 s); [reflexivity|].
  intros j _. apply Hp. lia.
Qed.

(** X7. A pause is honoured at both places where the worker checks the
    flag.  When the flag is set and stays set, the loop over the rows only
    sleeps: it renders nothing, opens no SMTP session, and leaves the
    counters and the checkpoint as they are; unless every remaining row is
    skipped, it is still waiting when the fuel is spent.  The same holds for
    the retry loop of a record: no attempt is made while the flag is set. *)
Theorem paused_sends_nothing (env : Env) (v : Variant) (self : Worker) (fuel : nat)
    (total start_index : Z) (rs : list Row) (i : Z) (s : Store) :
  (forall t, (clock s <= t)%nat -> pause_at env t = true) ->
  let waiting := after_polls (repeat (Sleep (1 # 10)) fuel) (2 * fuel) s in
  (((rs = [] \/ (v = V1_2 /\ i + Z.of_nat (List.length rs) <= start_index))
    /\ for_rows env v self fuel total start_index i rs s = (Val tt, s))
   \/ for_rows env v self fuel total start_index i rs s = (OutOfFuel, waiting))
  /\ (forall sender pass recipient subj message,
        send_loop env fuel i sender pass recipient subj message s = (OutOfFuel, waiting)).
Proof.
  intros Hp waiting. split.
  - assert (Hbody : forall i row,
              loop_body env v self fuel total start_index i row s
              = if skipped v start_index i then (Val Continue, s) else (OutOfFuel, waiting)).
    { intros j row. unfold loop_body, skipped.
      destruct (match v with V1_2 => j <? start_index | V1 => false end); [reflexivity|].
      unfold bind at 1. rewrite wait_while_paused_stuck by exact Hp. reflexivity. }
    revert i. induction rs as [|row rs IH]; intros i.
    { left. split; [now left|reflexivity]. }
    rewrite for_rows_cons. unfold bind at 1 2. rewrite Hbody.
    destruct (skipped v start_index i) eqn:Hskip; [|now right].
    destruct (IH (i + 1)) as [[Hall Hval]|Hwait]; [left|right; exact Hwait].
    split; [|exact Hval]. right.
    unfold skipped in Hskip. destruct v; [discriminate Hskip|].
    apply Z.ltb_lt in Hskip. split; [reflexivity|].
    destruct Hall as [->|[_ Hle]]; cbn [List.length] in *; lia.
  - intros sender pass recipient subj message. destruct fuel as [|f].
    + unfold waiting. now rewrite after_polls_nothing.
    + rewrite send_loop_S. unfold bind at 1.
      rewrite wait_while_paused_stuck by exact Hp. reflexivity.
Qed.

Lemma paused_sends_nothing_witness :
  for_rows Scenarios.paused_forever V1 Fixtures.worker 2 3 0 0
    (rows Fixtures.contacts) (init_store Absent)
  = (OutOfFuel,
     {| clock := 4; trace := [Sleep (1 # 10); Sleep (1 # 10)];
        cp_file := Absent; sent_count := 0; failed_emails := [] |}).
Proof.
  destruct (paused_sends_nothing Scenarios.paused_forever V1 Fixtures.worker 2 3 0
              (rows Fixtures.contacts) 0 (init_store Absent)) as ([[[H|[H _]] _]|H] & _).
  - reflexivity.
  - discriminate H.
  - discriminate H.
  - exact H.
Defined.

(** ** A negative delay *)

Lemma bind_val {A B : Type} (m : M A) (k : A -> M B) (s : Store) (b : B) (s' : Store) :
  bind m k s = (Val b, s') ->
  exists a s1, m s = (Val a, s1) /\ k a s1 = (Val b, s').
Proof.
  unfold bind. destruct (m s) as [[a| |] s1]; try discriminate.
  intros H. now exists a, s1.
Qed.

(** With a negative delay no iteration that processes its row completes:
    the sleep that ends it raises. *)
Lemma loop_body_hasty (env : Env) (v : Variant) (self : Worker) (fuel : nat)
    (total start_index i : Z) (row : Row) (s s' : Store) :
  Qle_bool 0 (delay self) = false ->
  skipped v start_index i = false ->
  loop_body env v self fuel total start_index i row s <> (Val Continue, s').
Proof.
  intros Hneg Hskip H. unfold loop_body in H. unfold skipped in Hskip. rewrite Hskip in H.
  apply bind_val in H as (? & s1 & _ & H).
  apply bind_val in H as (running & s2 & _ & H).
  destruct (negb running); [discriminate H|]. cbn zeta in H.
  apply bind_val in H as (? & s3 & _ & H).
  apply bind_val in H as (? & s4 & _ & H).
  apply bind_val in H as (? & s5 & _ & H).
  apply bind_val in H as (? & s6 & _ & H).
  apply bind_val in H as (? & s7 & _ & H).
  apply bind_val in H as (? & s8 & _ & H).
  apply bind_val in H as (? & s9 & Hsleep & _).
  unfold time_sleep in Hsleep. rewrite Hneg in Hsleep. discriminate Hsleep.
Qed.

Lemma for_rows_hasty (env : Env) (v : Variant) (self : Worker) (fuel : nat)
    (total start_index : Z) (rs : list Row) :
  Qle_bool 0 (delay self) = false ->
  forall i s r s', for_rows env v self fuel total start_index i rs s = (r, s') ->
    exists rest, trace s' = trace s ++ rest
      /\ (List.length (rendered_rows rest) <= 1)%nat
      /\ (r = Val tt -> rendered_rows rest = []).
Proof.
  intros Hneg. induction rs as [|row rs IH]; intros i s r s' H.
  - inversion H; subst. exists []. rewrite app_nil_r. cbn. auto.
  - rewrite for_rows_cons in H. unfold bind at 1 in H.
    destruct (loop_body env v self fuel total start_index i row s) as [rb sb] eqn:Eb.
    pose proof (loop_body_spec _ _ _ _ _ _ _ _ _ _ _ Eb) as Hpost.
    unfold body_post in Hpost.
    destruct (skipped v start_index i) eqn:Hskip.
    + destruct Hpost as [-> ->]. now apply IH in H.
    + destruct Hpost as (rest & Ht & _ & Hcases).
      destruct rb as [[|]|e|].
      * now destruct (loop_body_hasty env v self fuel total start_index i row s sb Hneg Hskip).
      * inversion H; subst. exists rest. split; [exact Ht|].
        destruct Hcases as [(Hnil & _)|(_ & Hc & _)]; [|discriminate Hc].
        rewrite Hnil. cbn. auto.
      * inversion H; subst. exists rest. split; [exact Ht|]. split; [|discriminate].
        destruct Hcases as [(-> & _)|(-> & _)]; cbn; lia.
      * inversion H; subst. exists rest. split; [exact Ht|]. split; [|discriminate].
        destruct Hcases as [(-> & _)|(-> & _)]; cbn; lia.
Qed.

(** X8. The panel accepts any text that [float] parses, so a delay can be
    negative; [time.sleep] then raises at the end of the first iteration
    that processes a record.  Such a run processes at most one record and
    counts at most one; it returns (and signals completion) only when it
    processed none. *)
Theorem negative_delay_stops_run (env : Env) (v : Variant) (self : Worker) (fuel : nat)
    (fs : FileState) :
  Qle_bool 0 (delay self) = false ->
  let r := fst (run env v self fuel (init_store fs)) in
  let s' := snd (run env v self fuel (init_store fs)) in
  (List.length (rendered_rows (trace s')) <= 1)%nat
  /\ count_done s' <= 1
  /\ (r = Val tt -> rendered_rows (trace s') = [] /\ count_done s' = 0).
Proof.
  intros Hneg r s'. subst r s'.
  destruct (run_cases env v self fuel fs)
    as [(msg & ->)|[(n & err & _ & _ & ->)|(df & Hread & Hcols & Hopen & Hrun)]].
  - cbn. repeat split; auto; lia.
  - cbn. repeat split; auto; try lia; discriminate.
  - destruct (run_rows env v self fuel fs df Hread Hcols) as (_ & Hle & Heq & _).
    cbn zeta in Hrun. rewrite Hrun in *. clear Hrun.
    destruct (for_rows env v self fuel _ (start_of v fs) 0 (rows df) _) as [r2 s2] eqn:E.
    apply (for_rows_hasty env v self fuel _ _ _ Hneg) in E as (rest & Ht & Hlen & Hval).
    assert (HL : rendered_rows (trace s2) = rendered_rows rest).
    { rewrite Ht. destruct v; reflexivity. }
    destruct r2 as [[]|e|]; cbn [fst snd] in *.
    + assert (Hfin : rendered_rows (trace (finish env s2)) = rendered_rows rest).
      { unfold finish. cbn [trace].
        now rewrite rendered_rows_app, rendered_rows_report, app_nil_r. }
      rewrite Hfin in *. rewrite (Hval eq_refl) in *. cbn in *.
      specialize (Heq eq_refl). repeat split; auto; lia.
    + rewrite HL in *. repeat split; try lia; discriminate.
    + rewrite HL in *. repeat split; try lia; discriminate.
Qed.

Lemma negative_delay_stops_run_witness :
  let s' := snd (run Fixtures.bad_address V1 Scenarios.hasty 2 (init_store Absent)) in
  (List.length (rendered_rows (trace s')) <= 1)%nat /\ count_done s' <= 1.
Proof.
  destruct (negative_delay_stops_run Fixtures.bad_address V1 Scenarios.hasty 2 Absent)
    as (H1 & H2 & _).
  - reflexivity.
  - split; [exact H1|exact H2].
Defined.

(** ** Invariants of a run *)

Lemma preserves_bind {A B : Type} (I : Store -> Prop) (m : M A) (k : A -> M B) :
  preserves I m ->
  (forall s a s1, m s = (Val a, s1) -> I s1 -> I (snd (k a s1))) ->
  preserves I (bind m k).
Proof.
  intros Hm Hk s Hs. unfold bind. specialize (Hm s Hs).
  destruct (m s) as [[a|e|] s1] eqn:E; cbn in *; auto.
  eapply Hk; eauto.
Qed.

Lemma bind_at {A B : Type} (I : Store -> Prop) (m : M A) (k : A -> M B) (s : Store) :
  I (snd (m s)) ->
  (forall a s1, m s = (Val a, s1) -> I s1 -> I (snd (k a s1))) ->
  I (snd (bind m k s)).
Proof.
  intros Hm Hk. unfold bind.
  destruct (m s) as [[a|e|] s1] eqn:E; cbn in *; auto.
Qed.

Lemma use_preserves {A : Type} (I : Store -> Prop) (m : M A) (s : Store) :
  preserves I m -> I s -> I (snd (m s)).
Proof. intros H. apply H. Qed.

Lemma preserves_then {A B : Type} (I : Store -> Prop) (m : M A) (k : A -> M B) :
  preserves I m -> (forall a, preserves I (k a)) -> preserves I (bind m k).
Proof.
  intros Hm Hk. apply preserves_bind; [exact Hm|].
  intros s a s1 _ Hs1. now apply Hk.
Qed.

Lemma preserves_ret {A : Type} (I : Store -> Prop) (a : A) : preserves I (ret a).
Proof. intros s Hs. exact Hs. Qed.

Lemma preserves_raise {A : Type} (I : Store -> Prop) (e : string) :
  preserves I (@raise A e).
Proof. intros s Hs. exact Hs. Qed.

Lemma preserves_out_of_fuel {A : Type} (I : Store -> Prop) :
  preserves I (@out_of_fuel A).
Proof. intros s Hs. exact Hs. Qed.

(** A property of the store that every step of the engine keeps is kept by
    the loops and by [run].  The steps that change more than the clock and
    the log are those that count a sent email, record a failure for a row,
    and write the checkpoint after a row; [ok_row] tells the rows a run can
    process, [writes] whether the variant writes checkpoints. *)
Section Invariants.

Variable env : Env.
Variable I : Store -> Prop.
Variable ok_row : Z -> Row -> Prop.
Variable writes : Prop.

Hypothesis I_tick : preserves I tick.
Hypothesis I_emit : forall e,
  (forall n, e <> EmailsSent n) -> (forall i m, e <> SmtpAttempt i m) ->
  preserves I (emit e).
Hypothesis I_attempt : forall i row,
  ok_row i row -> preserves I (emit (SmtpAttempt i (message_of env row))).
Hypothesis I_sent :
  preserves I (n <- get_sent_count ;; set_sent_count (n + 1) ;; emit (EmailsSent (n + 1))).
Hypothesis I_fail : forall i row message t err,
  ok_row i row ->
  smtp_at env t (from_email row) (password row) (to_email row) message = Some err ->
  network_at env (S t) = true ->
  preserves I (append_failure
                 (failure_entry (from_email row) (to_email row) (subject row) err)).
Hypothesis I_cp : forall i row,
  writes -> ok_row i row -> preserves I (set_cp_file (Content (py_str (i + 1)))).

Ltac keep :=
  repeat first
    [ apply preserves_ret | apply preserves_raise | apply preserves_out_of_fuel
    | apply I_tick | apply I_sent
    | apply I_emit; [intros ?; discriminate|intros ? ?; discriminate]
    | apply preserves_then; [|intros ?] ].

Lemma keeps_time_sleep (secs : Q) : preserves I (time_sleep env secs).
Proof.
  unfold time_sleep. destruct (Qle_bool 0 secs); [|keep].
  destruct (Qle_bool secs MAX_DELAY); [keep|].
  apply preserves_then; [keep|]. intros t.
  destruct (long_sleep_at env t secs); keep.
Qed.

Lemma keeps_wait_while_paused (fuel : nat) : preserves I (wait_while_paused env fuel).
Proof.
  induction fuel as [|f IH]; [apply preserves_out_of_fuel|].
  rewrite wait_while_paused_S. unfold poll_pause.
  apply preserves_then; [keep|]. intros [|]; [|keep].
  apply preserves_then; [apply keeps_time_sleep|]. intros _. exact IH.
Qed.

Lemma keeps_wait_for_network (fuel : nat) : preserves I (wait_for_network env fuel).
Proof.
  induction fuel as [|f IH]; [apply preserves_out_of_fuel|].
  rewrite wait_for_network_S. unfold check_network.
  apply preserves_then; [keep|]. intros [|]; [keep|].
  apply preserves_then; [apply keeps_time_sleep|]. intros _. exact IH.
Qed.

Lemma keeps_smtp_send (i : Z) (sender pass recipient : string) (message : Message) :
  preserves I (emit (SmtpAttempt i message)) ->
  preserves I (smtp_send env i sender pass recipient message).
Proof.
  intros Hm. unfold smtp_send.
  apply preserves_then; [keep|]. intros t.
  apply preserves_then; [exact Hm|]. intros _. keep.
Qed.

Lemma keeps_send_loop (fuel : nat) (i : Z) (row : Row) (message : Message) :
  ok_row i row ->
  preserves I (emit (SmtpAttempt i message)) ->
  preserves I (send_loop env fuel i (from_email row) (password row) (to_email row)
                 (subject row) message).
Proof.
  intros Hok Hm. induction fuel as [|f IH]; [apply preserves_out_of_fuel|].
  rewrite send_loop_S.
  apply preserves_then; [apply keeps_wait_while_paused|]. intros _.
  intros s Hs. apply bind_at; [apply use_preserves; [now apply keeps_smtp_send|exact Hs]|].
  intros r s1 Hsend Hs1.
  unfold smtp_send, bind, tick, emit, ret in Hsend. cbn in Hsend.
  inversion Hsend as [[Hr Hst]]. clear Hsend. subst r s1.
  destruct (smtp_at env (clock s) (from_email row) (password row) (to_email row) message)
    as [err|] eqn:Esmtp; [|apply use_preserves; [keep|exact Hs1]].
  apply bind_at; [apply use_preserves; [unfold check_network; keep|exact Hs1]|].
  intros up s2 Hprobe Hs2.
  unfold check_network, bind, tick, emit, ret in Hprobe. cbn in Hprobe.
  inversion Hprobe as [[Hup Hst2]]. clear Hprobe. subst up s2.
  destruct (network_at env (S (clock s))) eqn:Enet; cbn [negb].
  - apply use_preserves; [|exact Hs2].
    apply preserves_then; [keep|]. intros _.
    exact (I_fail i row message (clock s) err Hok Esmtp Enet).
  - apply use_preserves; [|exact Hs2].
    apply preserves_then; [keep|]. intros _.
    apply preserves_then; [apply keeps_wait_for_network|]. intros _.
    apply preserves_then; [keep|]. intros _. exact IH.
Qed.

Lemma keeps_save_checkpoint (i : Z) (row : Row) :
  writes -> ok_row i row -> preserves I (save_checkpoint env (i + 1)).
Proof.
  intros Hw Hok. unfold save_checkpoint.
  apply preserves_then; [keep|]. intros t.
  apply preserves_then; [keep|]. intros _.
  destruct (cp_write_at env t); [keep|]. now apply (I_cp i row).
Qed.

Lemma keeps_loop_body (v : Variant) (self : Worker) (fuel : nat)
    (total start_index i : Z) (row : Row) :
  (v = V1_2 -> writes) ->
  (skipped v start_index i = false -> ok_row i row) ->
  preserves I (loop_body env v self fuel total start_index i row).
Proof.
  intros Hw Hok. unfold loop_body. unfold skipped in Hok.
  destruct (match v with V1_2 => i <? start_index | V1 => false end); [keep|].
  specialize (Hok eq_refl).
  apply preserves_then; [apply keeps_wait_while_paused|]. intros _.
  apply preserves_then; [unfold poll_running; keep|]. intros running.
  destruct (negb running); [keep|]. cbn zeta.
  apply preserves_bind.
  { unfold load_html_content. apply preserves_then; [keep|]. intros _.
    destruct (read_text env (html_file row)); [keep|].
    destruct (py_in "{sal}" s || py_in "{signature}" s); keep. }
  intros s email_body s1 Hbody Hs1.
  rewrite load_html_content_val in Hbody. inversion Hbody as [[Hb Hst]]. clear Hbody.
  rewrite Hst. clear Hst s. subst email_body.
  apply use_preserves; [|exact Hs1].
  apply preserves_then; [keep|]. intros _.
  apply preserves_then.
  { apply keeps_send_loop; [exact Hok|]. exact (I_attempt i row Hok). }
  intros _.
  apply preserves_then.
  { destruct v; [keep|]. apply (keeps_save_checkpoint i row); auto. }
  intros _.
  apply preserves_then; [keep|]. intros _.
  apply preserves_then; [keep|]. intros _.
  apply preserves_then; [apply keeps_time_sleep|]. intros _. keep.
Qed.

Lemma keeps_for_rows (v : Variant) (self : Worker) (fuel : nat)
    (total start_index : Z) (rs : list Row) :
  (v = V1_2 -> writes) ->
  forall i,
    (forall k row, nth_error rs k = Some row ->
                   skipped v start_index (i + Z.of_nat k) = false ->
                   ok_row (i + Z.of_nat k) row) ->
    preserves I (for_rows env v self fuel total start_index i rs).
Proof.
  intros Hw. induction rs as [|row rs IH]; intros i Hok; [keep|].
  rewrite for_rows_cons.
  apply preserves_then.
  { apply keeps_loop_body; [exact Hw|]. intros Hskip.
    specialize (Hok O row eq_refl). cbn [Z.of_nat] in Hok. rewrite Z.add_0_r in Hok.
    exact (Hok Hskip). }
  intros [|]; [|keep]. apply IH. intros k r Hk Hskip.
  replace (i + 1 + Z.of_nat k) with (i + Z.of_nat (S k)) in * by lia.
  now apply Hok.
Qed.

Lemma keeps_run (v : Variant) (self : Worker) (fuel : nat) (fs : FileState) :
  (v = V1_2 -> writes) ->
  (forall df k row,
      read_excel env (excel_file self) = inr df ->
      nth_error (rows df) k = Some row ->
      skipped v (start_of v fs) (Z.of_nat k) = false ->
      ok_row (Z.of_nat k) row) ->
  I (init_store fs) ->
  I (snd (run env v self fuel (init_store fs))).
Proof.
  intros Hw Hok H0.
  destruct (run_cases env v self fuel fs)
    as [(msg & ->)|[(n & err & _ & _ & ->)|(df & Hread & Hcols & Hopen & Hrun)]].
  - change (I (snd ((emit (Log msg) ;; emit Finished) (init_store fs)))).
    apply use_preserves; [keep|exact H0].
  - change (I (snd (emit (TotalContacts n) (init_store fs)))).
    apply use_preserves; [keep|exact H0].
  - cbn zeta in Hrun. rewrite Hrun. clear Hrun.
    set (n := Z.of_nat (List.length (rows df))).
    assert (Hstart : I (loop_start v n fs)).
    { destruct v.
      - change (I (snd (emit (TotalContacts n) (init_store fs)))).
        apply use_preserves; [keep|exact H0].
      - change (I (snd ((emit (TotalContacts n) ;;
                         emit (Log ("Resuming from row "
                                    ++ py_str (checkpoint_value fs))%string))
                          (init_store fs)))).
        apply use_preserves; [keep|exact H0]. }
    assert (Hloop : I (snd (for_rows env v self fuel n (start_of v fs) 0 (rows df)
                              (loop_start v n fs)))).
    { apply use_preserves; [|exact Hstart].
      apply keeps_for_rows; [exact Hw|].
      intros k row Hk Hskip. cbn [Z.add] in *. now apply (Hok df). }
    destruct (for_rows env v self fuel n (start_of v fs) 0 (rows df) (loop_start v n fs))
      as [[[]|e|] s2]; cbn [fst snd] in *; try exact Hloop.
    replace (finish env s2)
      with (snd ((export_report env ;;
                  emit (Log ("Finished sending emails." ++ nl)%string) ;;
                  emit Finished) s2))
      by now rewrite finish_run.
    apply use_preserves; [|exact Hloop].
    apply preserves_then; [|intros _; keep].
    unfold export_report, get_failed_emails.
    apply preserves_bind; [intros s Hs; exact Hs|].
    intros s failed s1 _ Hs1. destruct failed; [exact Hs1|].
    apply use_preserves; [|exact Hs1].
    apply preserves_then; [keep|]. intros t.
    apply preserves_then; [keep|]. intros _.
    destruct (to_excel_at env t); keep.
Qed.

End Invariants.

Lemma sent_signals_app (a b : list Event) :
  sent_signals (a ++ b) = sent_signals a ++ sent_signals b.
Proof.
  induction a as [|e a IH]; [reflexivity|]. destruct e; cbn; rewrite IH; reflexivity.
Qed.

Lemma one_to_S (k : nat) : one_to (S k) = one_to k ++ [Z.of_nat (S k)].
Proof. unfold one_to. now rewrite seq_S, map_app. Qed.

Lemma signals_in_step_run (env : Env) (v : Variant) (self : Worker) (fuel : nat)
    (fs : FileState) :
  signals_in_step (snd (run env v self fuel (init_store fs))).
Proof.
  apply (keeps_run env signals_in_step (fun _ _ => True) True).
  - intros s (k & Hk & Hs). exists k. auto.
  - intros e He _ s (k & Hk & Hs). exists k. split; [exact Hk|].
    cbn. rewrite sent_signals_app, Hs.
    destruct e; cbn; try apply app_nil_r. now destruct (He n).
  - intros i row _ s (k & Hk & Hs). exists k. split; [exact Hk|].
    cbn. rewrite sent_signals_app, Hs. apply app_nil_r.
  - intros s (k & Hk & Hs). exists (S k). unfold bind, get_sent_count, set_sent_count, emit.
    cbn [fst snd sent_count trace]. split; [lia|].
    rewrite sent_signals_app, Hs, one_to_S. cbn [sent_signals]. do 2 f_equal. lia.
  - intros i row message t err _ _ _ s (k & Hk & Hs). exists k. auto.
  - intros i row _ _ s (k & Hk & Hs). exists k. auto.
  - auto.
  - auto.
  - exists O. auto.
Qed.

(** X9. The sent-count signals of a run are 1, 2, ..., up to the final
    sent count, each once and in this order, however the run ends: the
    counter starts from 0 in every run, moves only by one, and every move is
    signalled. *)
Theorem sent_signals_count_up (env : Env) (v : Variant) (self : Worker) (fuel : nat)
    (fs : FileState) :
  let s' := snd (run env v self fuel (init_store fs)) in
  0 <= sent_count s'
  /\ sent_signals (trace s') = one_to (Z.to_nat (sent_count s')).
Proof.
  intros s'. destruct (signals_in_step_run env v self fuel fs) as (k & Hk & Hs).
  fold s' in Hk, Hs. rewrite Hk, Nat2Z.id. split; [lia|exact Hs].
Qed.

(** X10. Every entry of the failure list comes from a row of the source:
    it carries the sender, the recipient and the subject of that row, and
    its error message is the text of an exception that an SMTP session for
    that row raised while the probe that followed found the network
    reachable.  This holds however the run ends. *)
Theorem failures_come_from_source (env : Env) (v : Variant) (self : Worker) (fuel : nat)
    (fs : FileState) (df : DataFrame) :
  read_excel env (excel_file self) = inr df ->
  Forall (from_source env (rows df))
    (failed_emails (snd (run env v self fuel (init_store fs)))).
Proof.
  intros Hread.
  apply (keeps_run env (fun s => Forall (from_source env (rows df)) (failed_emails s))
           (fun _ row => In row (rows df)) True).
  - intros s Hs. exact Hs.
  - intros e _ _ s Hs. exact Hs.
  - intros i row _ s Hs. exact Hs.
  - intros s Hs. exact Hs.
  - intros i row message t err Hin Hsmtp Hnet s Hs. cbn.
    apply Forall_app. split; [exact Hs|]. constructor; [|constructor].
    exists row, message, t. cbn. repeat split; auto.
  - intros i row _ _ s Hs. exact Hs.
  - auto.
  - intros df' k row Hread' Hk _. rewrite Hread in Hread'. inversion Hread'; subst.
    eapply nth_error_In; eauto.
  - constructor.
Qed.

Lemma failures_come_from_source_witness :
  Forall (from_source Fixtures.bad_address (rows Fixtures.contacts))
    (failed_emails (snd (run Fixtures.bad_address V1_2 Fixtures.worker 2 (init_store Absent)))).
Proof.
  apply (failures_come_from_source Fixtures.bad_address V1_2 Fixtures.worker 2 Absent
           Fixtures.contacts).
  reflexivity.
Defined.

Lemma cp_advanced_run (env : Env) (v : Variant) (self : Worker) (fuel : nat)
    (fs : FileState) :
  cp_advanced fs (Z.max 0 (start_of v fs)) (snd (run env v self fuel (init_store fs))).
Proof.
  apply (keeps_run env (cp_advanced fs (Z.max 0 (start_of v fs)))
           (fun i _ => Z.max 0 (start_of v fs) <= i) True).
  - intros s Hs. exact Hs.
  - intros e _ _ s Hs. exact Hs.
  - intros i row _ s Hs. exact Hs.
  - intros s Hs. exact Hs.
  - intros i row message t err _ _ _ s Hs. exact Hs.
  - intros i row _ Hi s _. right. exists i. split; [exact Hi|reflexivity].
  - auto.
  - intros df k row _ _ Hskip. unfold skipped in Hskip.
    destruct v; [cbn; lia|]. apply Z.ltb_ge in Hskip. lia.
  - now left.
Qed.

(** X11. A run never moves the checkpoint backwards.  The first variant
    never touches the checkpoint file.  In the second variant, however the
    run ends, the file is either as the run found it or holds [k + 1] for a
    row index [k] that is neither negative nor below the checkpoint the run
    started from; so the value the next run loads is never less than the one
    this run loaded.  (A write that fails is one whose [open] fails: it
    leaves the file as it was.) *)
Theorem checkpoint_never_goes_back (env : Env) (v : Variant) (self : Worker) (fuel : nat)
    (fs : FileState) :
  let s' := snd (run env v self fuel (init_store fs)) in
  (v = V1 -> cp_file s' = fs)
  /\ cp_advanced fs (Z.max 0 (start_of v fs)) s'
  /\ checkpoint_value fs <= checkpoint_value (cp_file s').
Proof.
  intros s'. subst s'.
  assert (H1 : v = V1 -> cp_file (snd (run env v self fuel (init_store fs))) = fs).
  { intros ->.
    apply (keeps_run env (fun s => cp_file s = fs) (fun _ _ => True) False).
    - intros s Hs. exact Hs.
    - intros e _ _ s Hs. exact Hs.
    - intros i row _ s Hs. exact Hs.
    - intros s Hs. exact Hs.
    - intros i row message t err _ _ _ s Hs. exact Hs.
    - intros i row [].
    - discriminate.
    - auto.
    - reflexivity. }
  pose proof (cp_advanced_run env v self fuel fs) as H2.
  split; [exact H1|]. split; [exact H2|].
  destruct v; [rewrite H1 by reflexivity; lia|].
  destruct H2 as [->|(k & Hk & ->)]; [lia|].
  rewrite checkpoint_value_py_str. unfold start_of in Hk. lia.
Qed.

(** ** Exceptions and termination *)

Lemma bind_raise {A B : Type} (m : M A) (k : A -> M B) (s : Store) (e : string)
    (s' : Store) :
  bind m k s = (Raise e, s') ->
  m s = (Raise e, s') \/ exists a s1, m s = (Val a, s1) /\ k a s1 = (Raise e, s').
Proof.
  unfold bind. destruct (m s) as [[a|e1|] s1]; try discriminate.
  - intros H. right. exists a, s1. split; [reflexivity|exact H].
  - intros H. left. inversion H. reflexivity.
Qed.

Lemma loop_body_never_raises (env : Env) (v : Variant) (self : Worker) (fuel : nat)
    (total start_index i : Z) (row : Row) (s : Store) :
  sleepable (delay self) = true ->
  (v = V1_2 -> forall t, cp_write_at env t = None) ->
  forall e s', loop_body env v self fuel total start_index i row s <> (Raise e, s').
Proof.
  intros Hd Hw e s' H. unfold loop_body in H.
  destruct (match v with V1_2 => i <? start_index | V1 => false end); [discriminate H|].
  apply bind_raise in H as [H|(? & s1 & _ & H)].
  { apply wait_while_paused_spec in H as ([H|H] & _); discriminate H. }
  apply bind_raise in H as [H|(running & s2 & _ & H)]; [discriminate H|].
  destruct (negb running); [discriminate H|]. cbn zeta in H.
  apply bind_raise in H as [H|(? & s3 & _ & H)].
  { rewrite load_html_content_val in H. discriminate H. }
  apply bind_raise in H as [H|(? & s4 & _ & H)]; [discriminate H|].
  apply bind_raise in H as [H|(? & s5 & _ & H)].
  { apply send_loop_spec in H as (_ & rest & _ & _ & []). }
  apply bind_raise in H as [H|(? & s6 & _ & H)].
  { destruct v; [discriminate H|].
    unfold save_checkpoint, bind, tick, emit in H. cbn in H.
    rewrite (Hw eq_refl) in H. discriminate H. }
  apply bind_raise in H as [H|(? & s7 & _ & H)]; [discriminate H|].
  apply bind_raise in H as [H|(? & s8 & _ & H)]; [discriminate H|].
  apply bind_raise in H as [H|(? & s9 & _ & H)]; [|discriminate H].
  rewrite time_sleep_slept in H by exact Hd. discriminate H.
Qed.

Lemma for_rows_never_raises (env : Env) (v : Variant) (self : Worker) (fuel : nat)
    (total start_index : Z) (rs : list Row) :
  sleepable (delay self) = true ->
  (v = V1_2 -> forall t, cp_write_at env t = None) ->
  forall i s e s', for_rows env v self fuel total start_index i rs s <> (Raise e, s').
Proof.
  intros Hd Hw. induction rs as [|row rs IH]; intros i s e s' H; [discriminate H|].
  rewrite for_rows_cons in H.
  apply bind_raise in H as [H|([|] & s1 & _ & H)].
  - now apply loop_body_never_raises in H.
  - now apply IH in H.
  - discriminate H.
Qed.

(** X12. The only exceptions that can escape [run] come from the
    checkpoint file and from the delay.  With a delay between 0 and
    [MAX_DELAY] seconds (a negative one, and on some platforms a very long
    one, makes [time.sleep] raise) and, in the second variant, a checkpoint
    file that can be opened for reading and whose every write completes, no
    exception escapes, whatever the source, the templates, the SMTP server,
    the network and the report file do. *)
Theorem run_never_raises (env : Env) (v : Variant) (self : Worker) (fuel : nat)
    (fs : FileState) :
  sleepable (delay self) = true ->
  (v = V1_2 -> (forall e, fs <> Unopenable e) /\ forall t, cp_write_at env t = None) ->
  forall e, fst (run env v self fuel (init_store fs)) <> Raise e.
Proof.
  intros Hd Hcp e.
  destruct (run_cases env v self fuel fs)
    as [(msg & ->)|[(n & err & Hv & Hfs & _)|(df & Hread & Hcols & Hopen & Hrun)]].
  - discriminate.
  - destruct (Hcp Hv) as [Hopen _]. now destruct (Hopen err).
  - cbn zeta in Hrun. rewrite Hrun.
    destruct (for_rows env v self fuel _ (start_of v fs) 0 (rows df) _)
      as [[[]|e2|] s2] eqn:E; cbn; try discriminate.
    apply for_rows_never_raises in E; [destruct E|exact Hd|].
    intros Hv. now destruct (Hcp Hv).
Qed.

Lemma run_never_raises_witness :
  fst (run Fixtures.outage V1_2 Fixtures.worker 3 (init_store (Content "1")))
  <> Raise "[Errno 101] Network is unreachable".
Proof.
  apply (run_never_raises Fixtures.outage V1_2 Fixtures.worker 3 (Content "1")).
  - reflexivity.
  - intros _. split; [intros err; discriminate|intros t; reflexivity].
Defined.

(** ** A run that meets no obstacle *)

Lemma count_attempts_app (a b : list Event) :
  count_attempts (a ++ b) = (count_attempts a + count_attempts b)%nat.
Proof.
  induction a as [|e a IH]; [reflexivity|]. destruct e; cbn; rewrite IH; reflexivity.
Qed.

Section Unhindered.

Variable env : Env.
Hypothesis never_paused : forall t, pause_at env t = false.
Hypothesis reachable : forall t, network_at env t = true.

(** The retry loop makes one attempt and ends: a session that fails while
    the network is reachable is not tried again. *)
Lemma send_loop_once (f : nat) (i : Z) (sender pass recipient subj : string)
    (message : Message) (s : Store) :
  exists s' rest,
    send_loop env (S f) i sender pass recipient subj message s = (Val tt, s')
    /\ trace s' = trace s ++ rest
    /\ count_attempts rest = 1%nat
    /\ rendered_rows rest = [].
Proof.
  rewrite send_loop_S. unfold bind at 1.
  rewrite (wait_not_paused env f s (never_paused _)).
  unfold bind, smtp_send, check_network, tick, emit, ret, get_sent_count, set_sent_count,
    append_failure. cbn.
  destruct (smtp_at env (S (clock s)) sender pass recipient message) as [err|]; cbn.
  - rewrite reachable. cbn. eexists. eexists. split; [reflexivity|]. cbn.
    rewrite <- !app_assoc. cbn. split; [reflexivity|]. split; reflexivity.
  - eexists. eexists. split; [reflexivity|]. cbn.
    rewrite <- !app_assoc. cbn. split; [reflexivity|]. split; reflexivity.
Qed.

Variable v : Variant.
Variable self : Worker.
Hypothesis delay_ok : sleepable (delay self) = true.
Hypothesis writable : v = V1_2 -> forall t, cp_write_at env t = None.
Hypothesis never_cancelled : forall t, running_at env t = true.

Lemma loop_body_once (f : nat) (total start_index i : Z) (row : Row) (s : Store) :
  skipped v start_index i = false ->
  exists s' rest,
    loop_body env v self (S f) total start_index i row s = (Val Continue, s')
    /\ trace s' = trace s ++ rest
    /\ count_attempts rest = 1%nat
    /\ rendered_rows rest = [i].
Proof.
  intros Hskip. unfold loop_body. unfold skipped in Hskip. rewrite Hskip.
  unfold bind at 1. rewrite (wait_not_paused env f s (never_paused _)).
  unfold bind at 1. unfold poll_running, bind, tick, ret. cbn.
  rewrite never_cancelled. cbn.
  rewrite load_html_content_val. cbn.
  match goal with
  | |- context [send_loop env (S f) i ?a ?b ?c ?d ?m ?st] =>
      destruct (send_loop_once f i a b c d m st) as (s1 & rest1 & E1 & Ht1 & Hc1 & Hr1);
      rewrite E1
  end.
  cbn in Ht1.
  assert (Hsave : exists s2 rest2,
             match v with V1_2 => save_checkpoint env (i + 1) | V1 => ret tt end s1
             = (Val tt, s2)
             /\ trace s2 = trace s1 ++ rest2
             /\ count_attempts rest2 = O /\ rendered_rows rest2 = []).
  { clear Hskip. destruct v.
    - exists s1, []. rewrite app_nil_r. auto.
    - unfold save_checkpoint, bind, tick, emit, set_cp_file. cbn.
      rewrite (writable eq_refl). eexists. eexists. split; [reflexivity|]. cbn. auto. }
  destruct Hsave as (s2 & rest2 & E2 & Ht2 & Hc2 & Hr2). unfold ret in E2. rewrite E2.
  rewrite (time_sleep_short env _ delay_ok). unfold emit, bind, tick, ret. cbn.
  eexists. eexists. split; [reflexivity|]. cbn [trace].
  rewrite Ht2, Ht1, <- !app_assoc. split; [reflexivity|].
  rewrite !count_attempts_app, !rendered_rows_app, Hc1, Hc2, Hr1, Hr2. cbn.
  split; reflexivity.
Qed.

Lemma for_rows_once (f : nat) (total start_index : Z) (rs : list Row) :
  forall i s,
  exists s' rest,
    for_rows env v self (S f) total start_index i rs s = (Val tt, s')
    /\ trace s' = trace s ++ rest
    /\ count_attempts rest = List.length (rendered_rows rest).
Proof.
  induction rs as [|row rs IH]; intros i s.
  - exists s, []. rewrite app_nil_r. auto.
  - rewrite for_rows_cons. unfold bind at 1.
    destruct (skipped v start_index i) eqn:Hskip.
    + assert (E : loop_body env v self (S f) total start_index i row s = (Val Continue, s)).
      { unfold loop_body. unfold skipped in Hskip. now rewrite Hskip. }
      rewrite E. apply IH.
    + destruct (loop_body_once f total start_index i row s Hskip)
        as (s1 & rest1 & E1 & Ht1 & Hc1 & Hr1).
      rewrite E1.
      destruct (IH (i + 1) s1) as (s2 & rest2 & E2 & Ht2 & Hc2).
      exists s2, (rest1 ++ rest2). split; [exact E2|].
      rewrite Ht2, Ht1, <- app_assoc. split; [reflexivity|].
      rewrite count_attempts_app, rendered_rows_app, length_app, Hc1, Hr1, Hc2.
      reflexivity.
Qed.

End Unhindered.

(** X13. A run that meets no obstacle ends within the first round of each
    of its loops and does all its work: when the worker is never paused or
    cancelled, the network is reachable at every probe, the delay is between
    0 and [MAX_DELAY] seconds, and the checkpoint file can be read and every
    write of it completes, [run] returns; every record
    from the checkpoint on is rendered once and gets exactly one SMTP
    session, also when that session fails; and each of them is counted, as
    sent or as failed. *)
Theorem unhindered_run_completes (env : Env) (v : Variant) (self : Worker) (f : nat)
    (fs : FileState) (df : DataFrame) :
  read_excel env (excel_file self) = inr df ->
  missing_column (columns df) = None ->
  (forall t, pause_at env t = false) ->
  (forall t, network_at env t = true) ->
  (forall t, running_at env t = true) ->
  sleepable (delay self) = true ->
  (v = V1_2 -> (forall e, fs <> Unopenable e) /\ forall t, cp_write_at env t = None) ->
  let n := Z.of_nat (List.length (rows df)) in
  let r := fst (run env v self (S f) (init_store fs)) in
  let s' := snd (run env v self (S f) (init_store fs)) in
  r = Val tt
  /\ Z.of_nat (List.length (rendered_rows (trace s')))
     = Z.max 0 (n - first_row v (start_of v fs) 0)
  /\ count_attempts (trace s') = List.length (rendered_rows (trace s'))
  /\ count_done s' = Z.of_nat (List.length (rendered_rows (trace s'))).
Proof.
  intros Hread Hcols Hpause Hnet Hrun Hd Hcp n r s'.
  destruct (run_rows env v self (S f) fs df Hread Hcols)
    as (_ & _ & Hdone & _ & _ & _ & Hall).
  fold r in Hdone, Hall. fold s' in Hdone, Hall.
  assert (Hopen : v = V1 \/ forall e, fs <> Unopenable e).
  { destruct v; [now left|right]. now destruct (Hcp eq_refl). }
  pose proof (run_shape env v self (S f) fs df Hread Hcols Hopen) as Hshape.
  cbn zeta in Hshape. fold n in Hshape.
  destruct (for_rows_once env Hpause Hnet v self Hd
              (fun Hv => proj2 (Hcp Hv)) Hrun f n (start_of v fs) (rows df) 0
              (loop_start v n fs)) as (s2 & rest & E & Ht & Hc).
  rewrite E in Hshape.
  assert (Hr : r = Val tt) by (unfold r; now rewrite Hshape).
  split; [exact Hr|]. split; [now apply Hall|]. split; [|now apply Hdone].
  unfold s'. rewrite Hshape. cbn [snd]. unfold finish. cbn [trace].
  rewrite count_attempts_app, rendered_rows_app, rendered_rows_report, app_nil_r, Ht.
  rewrite count_attempts_app, rendered_rows_app, Hc.
  assert (Hend : count_attempts
                   (report_events env s2
                    ++ [Log ("Finished sending emails." ++ nl)%string; Finished]) = O).
  { unfold report_events. destruct (failed_emails s2); [reflexivity|].
    destruct (to_excel_at env (clock s2)); reflexivity. }
  rewrite Hend. destruct v; cbn; lia.
Qed.

Lemma unhindered_run_completes_witness :
  let s' := snd (run Fixtures.bad_address V1_2 Fixtures.worker 1 (init_store Absent)) in
  fst (run Fixtures.bad_address V1_2 Fixtures.worker 1 (init_store Absent)) = Val tt
  /\ count_attempts (trace s') = 3%nat
  /\ count_done s' = 3.
Proof.
  destruct (unhindered_run_completes Fixtures.bad_address V1_2 Fixtures.worker 0 Absent
              Fixtures.contacts) as (Hr & Hn & Ha & Hd).
  - reflexivity.
  - reflexivity.
  - intros t. reflexivity.
  - intros t. reflexivity.
  - intros t. reflexivity.
  - reflexivity.
  - intros _. split; [intros err; discriminate|intros t; reflexivity].
  - split; [exact Hr|]. rewrite Ha, Hd.
    change (Z.max 0 (Z.of_nat (List.length (rows Fixtures.contacts))
                     - first_row V1_2 (start_of V1_2 Absent) 0)) with 3 in Hn.
    split; [|exact Hn]. apply Nat2Z.inj. exact Hn.
Defined.

(** ** The control panel *)

Lemma steps_snoc (is_float : string -> bool) (p : Panel.State) (actions : list Panel.Action)
    (a : Panel.Action) :
  Panel.steps is_float p (actions ++ [a])
  = Panel.step is_float (Panel.steps is_float p actions) a.
Proof. unfold Panel.steps. now rewrite fold_left_app. Qed.

Lemma step_consistent (is_float : string -> bool) (p : Panel.State) (a : Panel.Action) :
  Panel.consistent p -> Panel.consistent (Panel.step is_float p a).
Proof.
  intros Hp.
  destruct a as [file_path|text| | | |e]; cbn [Panel.step].
  - unfold Panel.load_excel. destruct file_path; [exact Hp|].
    destruct Hp as [_ Hp]. split; [reflexivity|exact Hp].
  - exact Hp.
  - destruct (Panel.ui_send_enabled p); [|exact Hp].
    unfold Panel.start_sending.
    destruct (Panel.ui_excel_file p) eqn:Hfile; [exact Hp|].
    destruct (is_float (Panel.ui_delay_input p)); [|exact Hp].
    destruct Hp as [Hlabel _]. split; [exact Hlabel|].
    cbn. repeat split; auto. discriminate.
  - destruct (Panel.ui_pause_enabled p); [|exact Hp].
    unfold Panel.pause_sending. destruct Hp as [Hlabel Hp].
    destruct (Panel.ui_worker p) as [h|] eqn:Hworker.
    + destruct Hp as (Hs & _ & _ & Hr & Hf).
      split; [exact Hlabel|]. cbn. repeat split; auto.
    + split; [exact Hlabel|]. now rewrite Hworker.
  - destruct (Panel.ui_resume_enabled p); [|exact Hp].
    unfold Panel.resume_sending. destruct Hp as [Hlabel Hp].
    destruct (Panel.ui_worker p) as [h|] eqn:Hworker.
    + destruct Hp as (Hs & _ & _ & Hr & Hf).
      split; [exact Hlabel|]. cbn. repeat split; auto.
    + split; [exact Hlabel|]. now rewrite Hworker.
  - destruct e; try exact Hp. destruct Hp as [Hlabel _].
    split; [exact Hlabel|]. cbn. auto.
Qed.

(** X14. Whatever the user does and whatever signals arrive, the panel
    stays consistent.  The file label shows the file that is loaded, and a
    file dialog that was cancelled changes nothing.  While the panel holds no
    worker, the send button is enabled and the pause and resume buttons are
    disabled.  While it holds one, the send button is disabled, so that a
    second worker cannot be started; exactly one of the pause and resume
    buttons is enabled, the resume button exactly when the pause flag of the
    worker is set; the worker was created with a file name that is not
    empty; and its running flag is still set: nothing in the panel cancels a
    run. *)
Theorem panel_consistent (is_float : string -> bool) (actions : list Panel.Action) :
  Panel.consistent (Panel.steps is_float Panel.initial actions).
Proof.
  induction actions as [|a actions IH] using rev_ind.
  - unfold Panel.consistent. cbn. auto.
  - rewrite steps_snoc. now apply step_consistent.
Qed.

Lemma deliveries_app (a b : list Panel.Action) :
  Panel.deliveries (a ++ b) = Panel.deliveries a ++ Panel.deliveries b.
Proof.
  induction a as [|x a IH]; [reflexivity|]. destruct x; cbn; rewrite IH; reflexivity.
Qed.

Lemma total_signals_app (a b : list Event) :
  total_signals (a ++ b) = total_signals a ++ total_signals b.
Proof.
  induction a as [|e a IH]; [reflexivity|]. destruct e; cbn; rewrite IH; reflexivity.
Qed.

Lemma last_snoc_case {A B : Type} (l : list A) (x d : A) (b : B) (f : A -> B) :
  match l ++ [x] with
  | [] => b
  | y :: l' => f (last (y :: l') d)
  end = f x.
Proof.
  destruct l as [|y l]; [reflexivity|].
  cbn [app]. change (y :: l ++ [x]) with ((y :: l) ++ [x]). now rewrite last_last.
Qed.

(** What a step does to the two labels. *)
Lemma step_labels (is_float : string -> bool) (p : Panel.State) (a : Panel.Action) :
  Panel.ui_sent_label (Panel.step is_float p a)
  = match a with
    | Panel.Deliver (EmailsSent sent) => ("Emails Sent: " ++ py_str sent)%string
    | _ => Panel.ui_sent_label p
    end
  /\ Panel.ui_total_label (Panel.step is_float p a)
     = match a with
       | Panel.Deliver (TotalContacts total) => ("Total Contacts: " ++ py_str total)%string
       | _ => Panel.ui_total_label p
       end.
Proof.
  destruct a as [file_path|text| | | |e]; cbn [Panel.step].
  - unfold Panel.load_excel. destruct file_path; split; reflexivity.
  - split; reflexivity.
  - destruct (Panel.ui_send_enabled p); [|split; reflexivity].
    unfold Panel.start_sending. destruct (Panel.ui_excel_file p); [split; reflexivity|].
    destruct (is_float (Panel.ui_delay_input p)); split; reflexivity.
  - destruct (Panel.ui_pause_enabled p); [|split; reflexivity].
    unfold Panel.pause_sending. destruct (Panel.ui_worker p); split; reflexivity.
  - destruct (Panel.ui_resume_enabled p); [|split; reflexivity].
    unfold Panel.resume_sending. destruct (Panel.ui_worker p); split; reflexivity.
  - destruct e; split; reflexivity.
Qed.

(** The labels show the last value signalled, if any. *)
Lemma labels_after (is_float : string -> bool) (p : Panel.State)
    (actions : list Panel.Action) :
  Panel.ui_sent_label (Panel.steps is_float p actions)
  = match sent_signals (Panel.deliveries actions) with
    | [] => Panel.ui_sent_label p
    | n :: l => ("Emails Sent: " ++ py_str (last (n :: l) 0))%string
    end
  /\ Panel.ui_total_label (Panel.steps is_float p actions)
     = match total_signals (Panel.deliveries actions) with
       | [] => Panel.ui_total_label p
       | n :: l => ("Total Contacts: " ++ py_str (last (n :: l) 0))%string
       end.
Proof.
  induction actions as [|a actions [IHs IHt]] using rev_ind; [split; reflexivity|].
  rewrite steps_snoc, deliveries_app, sent_signals_app, total_signals_app.
  destruct (step_labels is_float (Panel.steps is_float p actions) a) as [-> ->].
  destruct a as [file_path|text| | | |e]; cbn [Panel.deliveries sent_signals total_signals];
    rewrite ?app_nil_r; try (split; assumption).
  destruct e; cbn [Panel.deliveries sent_signals total_signals];
    rewrite ?app_nil_r; try (split; assumption).
  - split; [assumption|].
    now rewrite (last_snoc_case _ n 0 _ (fun x => ("Total Contacts: " ++ py_str x)%string)).
  - split; [|assumption].
    now rewrite (last_snoc_case _ n 0 _ (fun x => ("Emails Sent: " ++ py_str x)%string)).
Qed.

Lemma rows_from_no_total (lo : Z) (tr : list Event) :
  Forall (rows_from lo) tr -> total_signals tr = [].
Proof.
  induction 1 as [|e tr He _ IH]; [reflexivity|].
  destruct e; cbn in *; try contradiction; auto.
Qed.

(** A run on a readable source announces its total once. *)
Lemma total_signals_run (env : Env) (v : Variant) (self : Worker) (fuel : nat)
    (fs : FileState) (df : DataFrame) :
  read_excel env (excel_file self) = inr df ->
  missing_column (columns df) = None ->
  total_signals (trace (snd (run env v self fuel (init_store fs))))
  = [Z.of_nat (List.length (rows df))].
Proof.
  intros Hread Hcols.
  assert (Hcase : (v = V1_2 /\ exists e, fs = Unopenable e)
                  \/ (v = V1 \/ forall e, fs <> Unopenable e)).
  { destruct v; [right; now left|].
    destruct (unopenable_dec fs) as [He|Hne]; [left|right]; auto. }
  destruct Hcase as [(-> & e & ->)|Hopen].
  { now rewrite (run_unopenable _ _ _ _ _ Hread Hcols). }
  rewrite (run_shape env v self fuel fs df Hread Hcols Hopen). cbn zeta.
  destruct (for_rows env v self fuel _ (start_of v fs) 0 (rows df) _) as [r2 s2] eqn:E.
  apply for_rows_spec in E. destruct E as (rest & Ht & Hrows & _).
  apply rows_from_no_total in Hrows.
  assert (H2 : total_signals (trace s2) = [Z.of_nat (List.length (rows df))]).
  { rewrite Ht, total_signals_app, Hrows. destruct v; reflexivity. }
  destruct r2 as [[]|e2|]; cbn [snd]; try exact H2.
  unfold finish. cbn [trace]. rewrite !total_signals_app, H2.
  unfold report_events. destruct (failed_emails s2); [reflexivity|].
  destruct (to_excel_at env (clock s2)); reflexivity.
Qed.

(** X15. The two counters of the panel follow the run, whatever the user
    does meanwhile.  Once the signals of a run on a readable source have
    been delivered, in the order of emission and among any clicks and edits,
    the total label shows the number of rows of the source.  The sent label
    shows the sent count of the run if anything was sent; otherwise it still
    shows what it showed before the run, because nothing resets it when a
    run starts. *)
Theorem panel_shows_run (is_float : string -> bool) (env : Env) (v : Variant)
    (self : Worker) (fuel : nat) (fs : FileState) (df : DataFrame)
    (p : Panel.State) (actions : list Panel.Action) :
  read_excel env (excel_file self) = inr df ->
  missing_column (columns df) = None ->
  let s' := snd (run env v self fuel (init_store fs)) in
  Panel.deliveries actions = trace s' ->
  let p' := Panel.steps is_float p actions in
  Panel.ui_total_label p'
  = ("Total Contacts: " ++ py_str (Z.of_nat (List.length (rows df))))%string
  /\ Panel.ui_sent_label p'
     = if sent_count s' =? 0 then Panel.ui_sent_label p
       else ("Emails Sent: " ++ py_str (sent_count s'))%string.
Proof.
  intros Hread Hcols s' Hdel p'.
  destruct (labels_after is_float p actions) as [Hs Ht].
  fold p' in Hs, Ht. rewrite Hdel in Hs, Ht.
  unfold s' in Ht. rewrite (total_signals_run env v self fuel fs df Hread Hcols) in Ht.
  split; [exact Ht|].
  destruct (signals_in_step_run env v self fuel fs) as (k & Hk & Hsig).
  fold s' in Hk, Hsig. rewrite Hsig in Hs. rewrite Hk.
  destruct k as [|k]; [exact Hs|].
  rewrite one_to_S in Hs.
  rewrite (last_snoc_case _ _ 0 _ (fun x => ("Emails Sent: " ++ py_str x)%string)) in Hs.
  rewrite Hs. destruct (Z.eqb_spec (Z.of_nat (S k)) 0) as [E|_]; [lia|reflexivity].
Qed.

Lemma panel_shows_run_witness :
  let s' := snd (run Fixtures.bad_address V1_2 Fixtures.worker 2 (init_store Absent)) in
  let p' := Panel.steps Scenarios.is_float Panel.initial
              (Panel.ClickPause :: map Panel.Deliver (trace s')) in
  Panel.ui_total_label p' = "Total Contacts: 3"%string
  /\ Panel.ui_sent_label p' = "Emails Sent: 2"%string.
Proof.
  apply (panel_shows_run Scenarios.is_float Fixtures.bad_address V1_2 Fixtures.worker 2
           Absent Fixtures.contacts Panel.initial).
  - reflexivity.
  - reflexivity.
  - vm_compute. reflexivity.
Defined.

(** ** What is sent *)

(** X16. Every SMTP session of a run is made for a row of the source, and
    its message carries the subject and the recipient of that row and, as
    sender, the signature of the row followed by its sender address in angle
    brackets.  When the template of the row cannot be read, the body is the
    error text; when it holds neither placeholder, the body is its content
    followed by the closing lines and the signature.  (With a placeholder the
    body depends on whether the salutation and signature cells are text, and
    is left out here.)  This holds for every attempt, retries included,
    however the run ends. *)
Theorem attempts_carry_row_message (env : Env) (v : Variant) (self : Worker) (fuel : nat)
    (fs : FileState) (df : DataFrame) :
  read_excel env (excel_file self) = inr df ->
  Forall (row_message env (rows df))
    (trace (snd (run env v self fuel (init_store fs)))).
Proof.
  intros Hread.
  apply (keeps_run env (fun s => Forall (row_message env (rows df)) (trace s))
           (fun i row => 0 <= i /\ nth_error (rows df) (Z.to_nat i) = Some row) True).
  - intros s Hs. exact Hs.
  - intros e _ He s Hs. cbn. apply Forall_app. split; [exact Hs|].
    constructor; [|constructor]. destruct e; try exact I. now destruct (He i m).
  - intros i row [Hi Hrow] s Hs. cbn. apply Forall_app. split; [exact Hs|].
    constructor; [|constructor]. cbn. split; [exact Hi|]. exists row.
    repeat (split; [auto|]). unfold rendered_body.
    destruct (read_text env (html_file row)) as [err|content]; [reflexivity|].
    now intros ->.
  - intros s Hs. unfold bind, get_sent_count, set_sent_count, emit. cbn.
    apply Forall_app. split; [exact Hs|]. constructor; [exact I|constructor].
  - intros i row message t err _ _ _ s Hs. exact Hs.
  - intros i row _ _ s Hs. exact Hs.
  - auto.
  - intros df' k row Hread' Hk _. rewrite Hread in Hread'. inversion Hread'; subst.
    split; [lia|]. now rewrite Nat2Z.id.
  - constructor.
Qed.

Lemma attempts_carry_row_message_witness :
  Forall (row_message Fixtures.outage (rows Fixtures.contacts))
    (trace (snd (run Fixtures.outage V1_2 Fixtures.worker 3 (init_store Absent)))).
Proof.
  apply (attempts_carry_row_message Fixtures.outage V1_2 Fixtures.worker 3 Absent
           Fixtures.contacts).
  reflexivity.
Defined.

(** ** Whitespace around the checkpoint *)

Lemma lstrip_spaces (ws s : string) :
  all_space ws = true -> lstrip (ws ++ s) = lstrip s.
Proof.
  induction ws as [|c ws IH]; [reflexivity|]. cbn. intros H.
  apply andb_prop in H as [Hc Hws]. rewrite Hc. now apply IH.
Qed.

Lemma rstrip_all_space (ws : string) : all_space ws = true -> rstrip ws = ""%string.
Proof.
  induction ws as [|c ws IH]; [reflexivity|]. cbn. intros H.
  apply andb_prop in H as [Hc Hws]. now rewrite (IH Hws), Hc.
Qed.

Lemma rstrip_spaces (s ws : string) :
  all_space ws = true -> rstrip (s ++ ws) = rstrip s.
Proof.
  intros Hws. induction s as [|c s IH]; [now apply rstrip_all_space|].
  cbn. now rewrite IH.
Qed.

Lemma lstrip_all_space (ws : string) : all_space ws = true -> lstrip ws = ""%string.
Proof.
  induction ws as [|c ws IH]; [reflexivity|]. cbn. intros H.
  apply andb_prop in H as [Hc Hws]. rewrite Hc. now apply IH.
Qed.

Lemma lstrip_app (s ws : string) :
  lstrip (s ++ ws) = match lstrip s with
                     | EmptyString => lstrip ws
                     | r => (r ++ ws)%string
                     end.
Proof.
  induction s as [|c s IH]; cbn.
  - now destruct (lstrip ws).
  - destruct (is_space c); [exact IH|reflexivity].
Qed.

(** [strip] ignores the whitespace around a text. *)
Lemma strip_spaces (ws s ws' : string) :
  all_space ws = true -> all_space ws' = true ->
  strip (ws ++ s ++ ws') = strip s.
Proof.
  intros Hws Hws'. unfold strip. rewrite (lstrip_spaces ws _ Hws), lstrip_app.
  destruct (lstrip s) as [|c r].
  - now rewrite (lstrip_all_space ws' Hws').
  - now apply rstrip_spaces.
Qed.

(** X17. [load_checkpoint] ignores the whitespace around the number: a
    checkpoint file that holds what [save_checkpoint] wrote (an integer of
    at most [MAX_STR_DIGITS] digits), with spaces, tabs or line ends before
    and after it (a file passed through an editor), still gives the index
    that was saved. *)
Theorem load_checkpoint_ignores_whitespace (n : Z) (ws ws' : string) (s : Store) :
  Z.abs n < 10 ^ MAX_STR_DIGITS ->
  all_space ws = true -> all_space ws' = true ->
  cp_file s = Content (ws ++ py_str n ++ ws') ->
  load_checkpoint s = (Val n, s).
Proof.
  intros _ Hws Hws' Hcp. unfold load_checkpoint. rewrite Hcp.
  now rewrite (strip_spaces ws _ ws' Hws Hws'), strip_py_str, py_int_py_str.
Qed.

Lemma load_checkpoint_ignores_whitespace_witness :
  load_checkpoint (init_store (Content (" " ++ py_str 12 ++ nl)))
  = (Val 12, init_store (Content (" " ++ py_str 12 ++ nl))).
Proof.
  apply (load_checkpoint_ignores_whitespace 12 " " nl
           (init_store (Content (" " ++ py_str 12 ++ nl)))).
  - vm_compute. reflexivity.
  - reflexivity.
  - reflexivity.
  - reflexivity.
Defined.

(** ** Progress *)

Lemma progress_signals_app (a b : list Event) :
  progress_signals (a ++ b) = progress_signals a ++ progress_signals b.
Proof.
  induction a as [|e a IH]; [reflexivity|]. destruct e; cbn; rewrite IH; reflexivity.
Qed.

Lemma progress_signals_sleeps (secs : Q) (tr : list Event) :
  Forall (is_sleep secs) tr -> progress_signals tr = [].
Proof. induction 1 as [|e tr He _ IH]; [reflexivity|]. rewrite He. exact IH. Qed.

Lemma progress_signals_attempts (i : Z) (m : Message) (tr : list Event) :
  Forall (attempt_event i m) tr -> progress_signals tr = [].
Proof.
  induction 1 as [|e tr He _ IH]; [reflexivity|].
  destruct e; cbn in *; try contradiction; exact IH.
Qed.

(** An iteration that returns signals the progress of its row if it
    processed it, and nothing otherwise. *)
Lemma loop_body_progress (env : Env) (v : Variant) (self : Worker) (fuel : nat)
    (total start_index i : Z) (row : Row) (s s' : Store) (fl : Flow) :
  loop_body env v self fuel total start_index i row s = (Val fl, s') ->
  exists rest,
    trace s' = trace s ++ rest
    /\ progress_signals rest
       = map (fun k => progress_percent k total) (rendered_rows rest).
Proof.
  intros H. destruct fl.
  - apply loop_body_spec in H. unfold body_post in H.
    destruct (skipped v start_index i).
    { destruct H as [_ ->]. exists []. now rewrite app_nil_r. }
    destruct H as (rest & Ht & _ & [(_ & _ & _ & [Hr|[Hr _]])|(Hren & _ & _ & _ & Hshape)]);
      [discriminate Hr|discriminate Hr|].
    exists rest. split; [exact Ht|]. rewrite Hren.
    destruct Hshape as (pre & mid & -> & Hpre & Hmid & _).
    rewrite progress_signals_app, (progress_signals_sleeps _ _ Hpre). cbn [app progress_signals].
    rewrite progress_signals_app, (progress_signals_attempts _ _ _ Hmid).
    unfold closing_events. destruct v; reflexivity.
  - unfold loop_body in H.
    destruct (match v with V1_2 => i <? start_index | V1 => false end); [discriminate H|].
    apply bind_val in H as ([] & s1 & Hwait & H).
    apply wait_while_paused_spec in Hwait as (_ & _ & _ & (pre & Ht & Hpre)).
    apply bind_val in H as (running & s2 & Hpoll & H).
    unfold poll_running, bind, tick, ret in Hpoll. cbn in Hpoll.
    inversion Hpoll as [[Hrun Hs2]]. clear Hpoll.
    destruct (negb running).
    + inversion H; subst. exists pre. split; [exact Ht|].
      rewrite (progress_signals_sleeps _ _ Hpre).
      assert (Hren : rendered_rows pre = []).
      { clear Ht. induction Hpre as [|e tr He _ IH]; [reflexivity|]. now rewrite He. }
      now rewrite Hren.
    + cbn zeta in H.
      apply bind_val in H as (? & s3 & _ & H).
      apply bind_val in H as (? & s4 & _ & H).
      apply bind_val in H as (? & s5 & _ & H).
      apply bind_val in H as (? & s6 & _ & H).
      apply bind_val in H as (? & s7 & _ & H).
      apply bind_val in H as (? & s8 & _ & H).
      apply bind_val in H as (? & s9 & _ & H). discriminate H.
Qed.

Lemma for_rows_progress (env : Env) (v : Variant) (self : Worker) (fuel : nat)
    (total start_index : Z) (rs : list Row) :
  forall i s s', for_rows env v self fuel total start_index i rs s = (Val tt, s') ->
    exists rest,
      trace s' = trace s ++ rest
      /\ progress_signals rest
         = map (fun k => progress_percent k total) (rendered_rows rest).
Proof.
  induction rs as [|row rs IH]; intros i s s' H.
  - inversion H; subst. exists []. now rewrite app_nil_r.
  - rewrite for_rows_cons in H. apply bind_val in H as (fl & s1 & Hbody & H).
    apply loop_body_progress in Hbody as (rest1 & Ht1 & Hp1).
    destruct fl.
    + apply IH in H as (rest2 & Ht2 & Hp2). exists (rest1 ++ rest2).
      split; [now rewrite Ht2, Ht1, app_assoc|].
      now rewrite progress_signals_app, rendered_rows_app, map_app, Hp1, Hp2.
    + inversion H; subst. now exists rest1.
Qed.

Lemma last_map_nonempty {A B : Type} (f : A -> B) (l : list A) (a : A) (b : B) :
  l <> [] -> last (map f l) b = f (last l a).
Proof.
  induction l as [|x l IH]; [congruence|]. intros _.
  destruct l as [|y l]; [reflexivity|].
  change (last (map f (x :: y :: l)) b) with (last (map f (y :: l)) b).
  change (last (x :: y :: l) a) with (last (y :: l) a).
  apply IH. discriminate.
Qed.

Lemma progress_after (is_float : string -> bool) (p : Panel.State)
    (actions : list Panel.Action) :
  Panel.ui_progress (Panel.steps is_float p actions)
  = match progress_signals (Panel.deliveries actions) with
    | [] => Panel.ui_progress p
    | n :: l => last (n :: l) 0
    end.
Proof.
  induction actions as [|a actions IH] using rev_ind; [reflexivity|].
  rewrite steps_snoc, deliveries_app, progress_signals_app.
  destruct a as [file_path|text| | | |e]; cbn [Panel.step Panel.deliveries progress_signals];
    rewrite ?app_nil_r.
  - unfold Panel.load_excel. destruct file_path; exact IH.
  - exact IH.
  - destruct (Panel.ui_send_enabled (Panel.steps is_float p actions)); [|exact IH].
    unfold Panel.start_sending.
    destruct (Panel.ui_excel_file (Panel.steps is_float p actions)); [exact IH|].
    destruct (is_float (Panel.ui_delay_input (Panel.steps is_float p actions))); exact IH.
  - destruct (Panel.ui_pause_enabled (Panel.steps is_float p actions)); [|exact IH].
    unfold Panel.pause_sending.
    destruct (Panel.ui_worker (Panel.steps is_float p actions)); exact IH.
  - destruct (Panel.ui_resume_enabled (Panel.steps is_float p actions)); [|exact IH].
    unfold Panel.resume_sending.
    destruct (Panel.ui_worker (Panel.steps is_float p actions)); exact IH.
  - destruct e; cbn [Panel.deliveries progress_signals]; rewrite ?app_nil_r; try exact IH.
    now rewrite (last_snoc_case _ p0 0 _ (fun x => x)).
Qed.

(** X18. A run that returns has signalled the progress of each record it
    processed, once and in order, with the value [int(((i + 1) / total) *
    100)] of its index, and no other progress.  If the run was not cancelled
    and processed at least one record, its last progress signal is 100.  The
    progress bar of the panel ends at the last value signalled; a run that
    had nothing to process (an empty source, or a checkpoint at or beyond
    its end) leaves the bar where it was. *)
Theorem progress_follows_records (env : Env) (v : Variant) (self : Worker) (fuel : nat)
    (fs : FileState) (df : DataFrame) :
  read_excel env (excel_file self) = inr df ->
  missing_column (columns df) = None ->
  fst (run env v self fuel (init_store fs)) = Val tt ->
  let n := Z.of_nat (List.length (rows df)) in
  let s' := snd (run env v self fuel (init_store fs)) in
  let processed := rendered_rows (trace s') in
  progress_signals (trace s') = map (fun i => progress_percent i n) processed
  /\ ((forall t, running_at env t = true) -> processed <> [] ->
      last (progress_signals (trace s')) 0 = 100)
  /\ (forall is_float p actions,
        Panel.deliveries actions = trace s' ->
        Panel.ui_progress (Panel.steps is_float p actions)
        = match processed with
          | [] => Panel.ui_progress p
          | _ :: _ => progress_percent (last processed 0) n
          end).
Proof.
  intros Hread Hcols Hval n s' processed.
  destruct (run_rows env v self fuel fs df Hread Hcols)
    as (Hinc & _ & _ & _ & Hlast & _).
  fold n s' processed in Hinc, Hlast.
  assert (Hsig : progress_signals (trace s') = map (fun i => progress_percent i n) processed).
  { unfold processed, s'.
    destruct (run_cases env v self fuel fs)
      as [(msg & Hrun)|[(m & err & _ & _ & Hrun)|(df' & Hread' & _ & _ & Hrun)]].
    - rewrite Hrun. reflexivity.
    - rewrite Hrun in Hval. discriminate Hval.
    - rewrite Hread in Hread'. inversion Hread'; subst df'. clear Hread'.
      cbn zeta in Hrun. fold n in Hrun. rewrite Hrun in Hval |- *.
      destruct (for_rows env v self fuel n (start_of v fs) 0 (rows df) (loop_start v n fs))
        as [[[]|e|] s2] eqn:E; try discriminate Hval.
      apply for_rows_progress in E as (rest & Ht & Hp).
      cbn [snd]. unfold finish. cbn [trace].
      rewrite progress_signals_app, rendered_rows_app, rendered_rows_report, app_nil_r, Ht.
      rewrite progress_signals_app, rendered_rows_app, Hp.
      assert (Hend : progress_signals
                       (report_events env s2
                        ++ [Log ("Finished sending emails." ++ nl)%string; Finished]) = []).
      { unfold report_events. destruct (failed_emails s2); [reflexivity|].
        destruct (to_excel_at env (clock s2)); reflexivity. }
      rewrite Hend, app_nil_r. destruct v; reflexivity. }
  split; [exact Hsig|]. split.
  - intros Hrunning Hne. rewrite Hsig.
    rewrite (last_map_nonempty _ _ 0 0 Hne).
    specialize (Hlast Hval Hrunning).
    destruct processed as [|x L] eqn:EL; [congruence|].
    rewrite Hlast. apply progress_percent_last.
    cbn [inc_in] in Hinc. destruct Hinc as [Hx _].
    unfold first_row in Hx. destruct v; lia.
  - intros is_float p actions Hdel.
    rewrite progress_after, Hdel, Hsig.
    destruct processed as [|x L] eqn:EL; [reflexivity|].
    change (map (fun i => progress_percent i n) (x :: L))
      with (progress_percent x n :: map (fun i => progress_percent i n) L).
    change (progress_percent x n :: map (fun i => progress_percent i n) L)
      with (map (fun i => progress_percent i n) (x :: L)).
    apply (last_map_nonempty (fun i => progress_percent i n) (x :: L) 0 0). discriminate.
Qed.

Lemma progress_follows_records_witness :
  let s' := snd (run Fixtures.bad_address V1_2 Fixtures.worker 2 (init_store Absent)) in
  progress_signals (trace s') = [33; 66; 100]
  /\ Panel.ui_progress
       (Panel.steps Scenarios.is_float Panel.initial (map Panel.Deliver (trace s')))
     = 100.
Proof.
  destruct (progress_follows_records Fixtures.bad_address V1_2 Fixtures.worker 2 Absent
              Fixtures.contacts) as (Hsig & _ & Hbar).
  - reflexivity.
  - reflexivity.
  - vm_compute. reflexivity.
  - split.
    + rewrite Hsig. vm_compute. reflexivity.
    + rewrite (Hbar Scenarios.is_float Panel.initial) by (vm_compute; reflexivity).
      vm_compute. reflexivity.
Defined.

(** ** Across an interruption *)

Lemma keeps_cp_for_rows (env : Env) (self : Worker) (fuel : nat) (total start_index : Z)
    (rs : list Row) (i lo : Z) (fs : FileState) :
  lo <= i ->
  preserves (cp_advanced fs lo) (for_rows env V1_2 self fuel total start_index i rs).
Proof.
  intros Hlo.
  apply (keeps_for_rows env (cp_advanced fs lo) (fun j _ => lo <= j) True).
  - intros s Hs. exact Hs.
  - intros e _ _ s Hs. exact Hs.
  - intros j row _ s Hs. exact Hs.
  - intros s Hs. exact Hs.
  - intros j row message t err _ _ _ s Hs. exact Hs.
  - intros j row _ Hj s _. right. exists j. split; [exact Hj|reflexivity].
  - auto.
  - intros k row _ _. lia.
Qed.

(** Every row the loop processed, except the last one, lies below the
    checkpoint the loop leaves. *)
Lemma for_rows_checkpointed (env : Env) (self : Worker) (fuel : nat)
    (total start_index : Z) (rs : list Row) :
  forall i s r s', for_rows env V1_2 self fuel total start_index i rs s = (r, s') ->
    exists rest,
      trace s' = trace s ++ rest
      /\ forall k, In k (removelast (rendered_rows rest)) ->
                   k + 1 <= checkpoint_value (cp_file s').
Proof.
  induction rs as [|row rs IH]; intros i s r s' H.
  - inversion H; subst. exists []. rewrite app_nil_r. split; [reflexivity|]. intros k [].
  - rewrite for_rows_cons in H. unfold bind at 1 in H.
    destruct (loop_body env V1_2 self fuel total start_index i row s) as [rb sb] eqn:Eb.
    pose proof (loop_body_spec _ _ _ _ _ _ _ _ _ _ _ Eb) as Hpost.
    unfold body_post in Hpost.
    destruct (skipped V1_2 start_index i) eqn:Hskip.
    { destruct Hpost as [-> ->]. now apply IH in H. }
    destruct Hpost as (rest1 & Ht1 & _ & Hcases).
    assert (Hstop : rb <> Val Continue -> (r, s') = (match rb with
                                                      | Val _ => Val tt
                                                      | Raise e => Raise e
                                                      | OutOfFuel => OutOfFuel
                                                      end, sb)).
    { intros Hne. destruct rb as [[|]|e|]; [congruence| | |]; now inversion H. }
    assert (Hone : forall k, In k (removelast (rendered_rows rest1)) -> False).
    { intros k. destruct Hcases as [(-> & _)|(-> & _)]; intros []. }
    destruct rb as [[|]|e|];
      try (specialize (Hstop ltac:(discriminate)); inversion Hstop; subst;
           exists rest1; split; [exact Ht1|]; intros k Hk; now destruct (Hone k Hk)).
    destruct Hcases as [(_ & _ & _ & [Hr|[Hr _]])|(Hren & _ & _ & Hcp & _)];
      [discriminate Hr|discriminate Hr|].
    cbn [cp_after] in Hcp.
    pose proof (keeps_cp_for_rows env self fuel total start_index rs (i + 1) (i + 1)
                  (cp_file sb) (Z.le_refl _) sb (or_introl eq_refl)) as Hadv.
    rewrite H in Hadv. cbn [snd] in Hadv.
    apply IH in H as (rest2 & Ht2 & Hbelow).
    exists (rest1 ++ rest2). split; [now rewrite Ht2, Ht1, app_assoc|].
    intros k Hk. rewrite rendered_rows_app, Hren in Hk. cbn [app] in Hk.
    destruct (rendered_rows rest2) as [|x L2] eqn:E2; [destruct Hk|].
    cbn [removelast] in Hk. destruct Hk as [<-|Hk].
    + destruct Hadv as [->|(j & Hj & ->)]; rewrite Hcp || idtac;
        rewrite checkpoint_value_py_str; lia.
    + apply Hbelow. exact Hk.
Qed.

Lemma in_removelast_or_last {A : Type} (l : list A) (d x : A) :
  In x l -> In x (removelast l) \/ x = last l d.
Proof.
  intros Hin. destruct l as [|y l]; [destruct Hin|].
  rewrite (app_removelast_last d (l := y :: l)) in Hin by discriminate.
  apply in_app_or in Hin as [H|[H|[]]]; [now left|now right].
Qed.

(** X19. Across an interruption at most one record is processed twice.
    When a run of the second variant ends in any way (it returns, an
    exception escapes, or it is stopped while it waits in one of its loops)
    and the next run starts from the checkpoint file it left, on whatever
    source, the only record of the first run that the next run can process
    again is the last one the first run processed: every earlier one lies
    below the checkpoint and is skipped.  (A write that fails is one whose
    [open] fails: it leaves the file as it was.) *)
Theorem interruption_repeats_at_most_one (env env2 : Env) (self self2 : Worker)
    (fuel fuel2 : nat) (fs : FileState) (df df2 : DataFrame) :
  read_excel env (excel_file self) = inr df ->
  missing_column (columns df) = None ->
  read_excel env2 (excel_file self2) = inr df2 ->
  missing_column (columns df2) = None ->
  let s1 := snd (run env V1_2 self fuel (init_store fs)) in
  let s2 := snd (run env2 V1_2 self2 fuel2 (init_store (cp_file s1))) in
  forall k,
    In k (rendered_rows (trace s1)) ->
    In k (rendered_rows (trace s2)) ->
    k = last (rendered_rows (trace s1)) 0.
Proof.
  intros Hread Hcols Hread2 Hcols2 s1 s2 k Hin1 Hin2.
  destruct (in_removelast_or_last _ 0 k Hin1) as [Hbefore|Hlast]; [exfalso|exact Hlast].
  assert (Hbelow : k + 1 <= checkpoint_value (cp_file s1)).
  { unfold s1 in *. clear s2 Hin2 Hin1.
    destruct (run_cases env V1_2 self fuel fs)
      as [(msg & Hrun)|[(n & err & _ & _ & Hrun)|(df' & _ & _ & _ & Hrun)]].
    - rewrite Hrun in Hbefore. destruct Hbefore.
    - rewrite Hrun in Hbefore. destruct Hbefore.
    - cbn zeta in Hrun. rewrite Hrun in *. clear Hrun.
      destruct (for_rows env V1_2 self fuel _ (start_of V1_2 fs) 0 (rows df') _)
        as [r2 s'] eqn:E.
      apply for_rows_checkpointed in E as (rest & Ht & Hall).
      assert (HL : forall st, trace st = trace s' \/ st = finish env s' ->
                   cp_file st = cp_file s' ->
                   In k (removelast (rendered_rows (trace st))) ->
                   k + 1 <= checkpoint_value (cp_file st)).
      { intros st Htr Hcp Hk. rewrite Hcp. apply Hall.
        destruct Htr as [Htr| ->].
        - rewrite Htr, Ht in Hk. exact Hk.
        - unfold finish in Hk. cbn [trace] in Hk.
          rewrite rendered_rows_app, rendered_rows_report, app_nil_r, Ht in Hk. exact Hk. }
      destruct r2 as [[]|e|]; cbn [snd] in *.
      + apply HL; [now right|reflexivity|exact Hbefore].
      + apply HL; [now left|reflexivity|exact Hbefore].
      + apply HL; [now left|reflexivity|exact Hbefore]. }
  pose proof (run_not_before env2 self2 fuel2 (cp_file s1) df2 Hread2 Hcols2) as Hnb.
  fold s2 in Hnb. rewrite Forall_forall in Hnb.
  apply rendered_rows_In in Hin2 as (path & Hin2).
  apply Hnb in Hin2. cbn in Hin2. lia.
Qed.

Lemma interruption_repeats_at_most_one_witness :
  let s1 := snd (run Fixtures.read_only_dir V1_2 Fixtures.worker 2 (init_store Absent)) in
  let s2 := snd (run Fixtures.bad_address V1_2 Fixtures.worker 2 (init_store (cp_file s1))) in
  In 0 (rendered_rows (trace s1)) /\ In 0 (rendered_rows (trace s2))
  /\ 0 = last (rendered_rows (trace s1)) 0.
Proof.
  intros s1 s2.
  assert (H1 : In 0 (rendered_rows (trace s1))) by (vm_compute; left; reflexivity).
  assert (H2 : In 0 (rendered_rows (trace s2))) by (vm_compute; left; reflexivity).
  split; [exact H1|]. split; [exact H2|].
  exact (interruption_repeats_at_most_one Fixtures.read_only_dir Fixtures.bad_address
           Fixtures.worker Fixtures.worker 2 2 Absent Fixtures.contacts Fixtures.contacts
           eq_refl eq_refl eq_refl eq_refl 0 H1 H2).
Defined.
